(** * Status derivation and fleet aggregation of the OpenChoreo Backstage plugins

    A shallow embedding of
    - the status derivation written inline in [transformComponentWorkflowRun]
      (openchoreo-backend, transformers/workflow-run.ts),
    - [deriveWorkflowRunStatus] of the CI backend's WorkflowService module and
      of the generic workflow service, over typed run records and over
      untyped values,
    - [listDataPlanes] of DataPlaneInfoService,
    - the aggregation methods of PlatformEnvironmentInfoService, and
    - the build and run operations of WorkflowService, BuildInfoService and
      the generic workflow service,
    followed by the properties stated about them. *)

From stdpp Require Import gmap strings list fin_maps.
From Stdlib Require Import DecimalString.

Open Scope string_scope.
Open Scope list_scope.

(** ** JavaScript primitives used by the sources *)

Module Js.

(** Truthiness of a value of type [string | undefined]: [undefined] and the
    empty string are falsy. *)
Definition truthy (v : option string) : bool :=
  match v with
  | Some s => bool_decide (s ≠ "")
  | None => false
  end.

(** [a || b] where [a : string | undefined] and [b : string]. *)
Definition or_else (a : option string) (b : string) : string :=
  match a with
  | Some s => if truthy a then s else b
  | None => b
  end.

(** [a ?? b]. *)
Definition nullish {A} (a : option A) (b : A) : A := default b a.

(** [`${n}`] for a non-negative integer. *)
Definition show (n : nat) : string := NilZero.string_of_uint (Nat.to_uint n).

(** A value of type [unknown] or [any]: what JSON can carry, and
    [undefined]. *)
#[local] Unset Elimination Schemes.
Inductive value :=
| Undefined
| Null
| Bool (b : bool)
| Num (n : Z)
| Str (s : string)
| Arr (xs : list value)
| Obj (fields : list (string * value)).
#[local] Set Elimination Schemes.

(** Truthiness of an arbitrary value, as tested by [if (v)], [v && ...],
    [v || ...] and [!v]. *)
Definition truthyValue (v : value) : bool :=
  match v with
  | Undefined | Null => false
  | Bool b => b
  | Num n => negb (n =? 0)%Z
  | Str s => bool_decide (s ≠ "")
  | Arr _ | Obj _ => true
  end.

(** [String(v)] *)
Fixpoint toString (v : value) : string :=
  match v with
  | Undefined => "undefined"
  | Null => "null"
  | Bool true => "true"
  | Bool false => "false"
  | Num n => NilZero.string_of_int (Z.to_int n)
  | Str s => s
  | Arr xs =>
      (fix join (xs : list value) : string :=
         match xs with
         | [] => ""
         | x :: rest =>
             let element :=
               match x with
               | Undefined | Null => ""
               | _ => toString x
               end in
             match rest with
             | [] => element
             | _ :: _ => element +:+ "," +:+ join rest
             end
         end) xs
  | Obj _ => "[object Object]"
  end.

(** What a [throw] statement or a rejected promise carries: an Error object,
    given by the name of its class and its message, or any other value. *)
Inductive thrown :=
| ErrorObject (name message : string)
| Thrown (v : value).

(** [new Error(message)] *)
Definition Error (message : string) : thrown := ErrorObject "Error" message.

(** [`${error}`] for a caught [error] *)
Definition text (error : thrown) : string :=
  match error with
  | ErrorObject name message =>
      if bool_decide (name = "") then message
      else if bool_decide (message = "") then name
      else name +:+ ": " +:+ message
  | Thrown v => toString v
  end.

(** [error instanceof Error ? error : new Error(String(error))] *)
Definition asError (error : thrown) : thrown :=
  match error with
  | ErrorObject _ _ => error
  | Thrown v => Error (toString v)
  end.

End Js.

(** ** The raw Kubernetes-style WorkflowRun *)

Module Condition.
Record t := { type : string; status : string; reason : option string }.
End Condition.

Module Task.
Record t := { phase : option string; completedAt : option string }.
End Task.

Module RunStatus.
Record t := {
  completedAt : option string;
  startedAt : option string;
  conditions : option (list Condition.t);
  tasks : option (list Task.t)
}.
End RunStatus.

Module Metadata.
Record t := {
  name : option string;
  uid : option string;
  namespace : option string;
  creationTimestamp : option string;
  labels : option (gmap string string);
  annotations : option (gmap string string)
}.
End Metadata.

Module WorkflowRef.
Record t := { name : string; parameters : Js.value }.
End WorkflowRef.

Module RunSpec.
Record t := { workflow : option WorkflowRef.t }.
End RunSpec.

Module WorkflowRun.
Record t := {
  metadata : option Metadata.t;
  spec : option RunSpec.t;
  status : option RunStatus.t
}.
End WorkflowRun.

(** The flat shape handed to the frontend. *)
Module ComponentWorkflowRunResponse.
Record workflow_t := { wname : string; wparameters : Js.value }.
Record t := {
  name : string;
  uuid : string;
  componentName : string;
  projectName : string;
  namespaceName : string;
  status : string;
  commit : option string;
  image : option string;
  createdAt : option string;
  workflow : option workflow_t
}.
End ComponentWorkflowRunResponse.

(** [t.phase === 'Failed' || t.phase === 'Error'] *)
Definition failedOrError (t : Task.t) : bool :=
  bool_decide (Task.phase t = Some "Failed") || bool_decide (Task.phase t = Some "Error").

(** [t.phase === p] *)
Definition phaseIs (p : string) (t : Task.t) : bool :=
  bool_decide (Task.phase t = Some p).

(** [c.type === 'Ready'] *)
Definition isReadyType (c : Condition.t) : bool :=
  bool_decide (Condition.type c = "Ready").

(** [reason && reason !== 'Running' && reason !== 'Pending'] *)
Definition terminalReason (reason : option string) : bool :=
  Js.truthy reason
  && bool_decide (reason ≠ Some "Running")
  && bool_decide (reason ≠ Some "Pending").

(** ** openchoreo-backend: transformers/workflow-run.ts *)

Module Transformer.
Import ComponentWorkflowRunResponse.

(** The statement block that assigns [status] in
    [transformComponentWorkflowRun]. *)
Definition derive (run : WorkflowRun.t) : string :=
  let readyCondition :=
    st ← WorkflowRun.status run;
    cs ← RunStatus.conditions st;
    List.find isReadyType cs in
  let tasks := Js.nullish (WorkflowRun.status run ≫= RunStatus.tasks) [] in
  if Js.truthy (WorkflowRun.status run ≫= RunStatus.completedAt) then
    if existsb failedOrError tasks then "Failed"
    else
      let reason := readyCondition ≫= Condition.reason in
      match reason with
      | Some r => if terminalReason reason then r else "Succeeded"
      | None => "Succeeded"
      end
  else
    match readyCondition with
    | Some rc =>
        Js.or_else (Condition.reason rc)
          (if bool_decide (Condition.status rc = "True") then "Succeeded" else "Running")
    | None =>
        if existsb failedOrError tasks then "Failed"
        else if bool_decide (0 < length tasks) && forallb (phaseIs "Succeeded") tasks
        then "Succeeded"
        else if existsb (phaseIs "Running") tasks then "Running"
        else if Js.truthy (WorkflowRun.status run ≫= RunStatus.startedAt) then "Running"
        else "Pending"
    end.

Definition transformComponentWorkflowRun (run : WorkflowRun.t) : t :=
  let labels := Js.nullish (WorkflowRun.metadata run ≫= Metadata.labels) ∅ in
  let annotations := Js.nullish (WorkflowRun.metadata run ≫= Metadata.annotations) ∅ in
  let status := derive run in
  {| name := Js.nullish (WorkflowRun.metadata run ≫= Metadata.name) "";
     uuid := Js.nullish (WorkflowRun.metadata run ≫= Metadata.uid) "";
     componentName := Js.nullish (labels !! "openchoreo.dev/component") "";
     projectName := Js.nullish (labels !! "openchoreo.dev/project") "";
     namespaceName := Js.nullish (WorkflowRun.metadata run ≫= Metadata.namespace) "";
     status := status;
     commit := annotations !! "openchoreo.dev/commit";
     image := annotations !! "openchoreo.dev/image";
     createdAt := WorkflowRun.metadata run ≫= Metadata.creationTimestamp;
     workflow :=
       match WorkflowRun.spec run ≫= RunSpec.workflow with
       | Some w =>
           Some {| wname := WorkflowRef.name w; wparameters := WorkflowRef.parameters w |}
       | None => None
       end |}.
End Transformer.

(** ** openchoreo-ci-backend: WorkflowService module *)

Module WorkflowService.
Import ComponentWorkflowRunResponse.

Definition deriveWorkflowRunStatus (run : WorkflowRun.t) : string :=
  let readyCondition :=
    List.find isReadyType
      (Js.nullish (WorkflowRun.status run ≫= RunStatus.conditions) []) in
  let tasks := Js.nullish (WorkflowRun.status run ≫= RunStatus.tasks) [] in
  if Js.truthy (WorkflowRun.status run ≫= RunStatus.completedAt) then
    if existsb failedOrError tasks then "Failed"
    else
      let reason := readyCondition ≫= Condition.reason in
      match reason with
      | Some r => if terminalReason reason then r else "Succeeded"
      | None => "Succeeded"
      end
  else
    match readyCondition with
    | Some rc =>
        Js.or_else (Condition.reason rc)
          (if bool_decide (Condition.status rc = "True") then "Succeeded" else "Running")
    | None =>
        if existsb failedOrError tasks then "Failed"
        else if forallb (phaseIs "Succeeded") tasks && bool_decide (0 < length tasks)
        then "Succeeded"
        else if existsb (phaseIs "Running") tasks then "Running"
        else if Js.truthy (WorkflowRun.status run ≫= RunStatus.startedAt) then "Running"
        else "Pending"
    end.

Definition transformWorkflowRun (run : WorkflowRun.t) : t :=
  let labels := Js.nullish (WorkflowRun.metadata run ≫= Metadata.labels) ∅ in
  let annotations := Js.nullish (WorkflowRun.metadata run ≫= Metadata.annotations) ∅ in
  let status := deriveWorkflowRunStatus run in
  {| name := Js.nullish (WorkflowRun.metadata run ≫= Metadata.name) "";
     uuid := Js.nullish (WorkflowRun.metadata run ≫= Metadata.uid) "";
     componentName := Js.nullish (labels !! "openchoreo.dev/component") "";
     projectName := Js.nullish (labels !! "openchoreo.dev/project") "";
     namespaceName := Js.nullish (WorkflowRun.metadata run ≫= Metadata.namespace) "";
     status := status;
     commit := annotations !! "openchoreo.dev/commit";
     image := annotations !! "openchoreo.dev/image";
     createdAt := WorkflowRun.metadata run ≫= Metadata.creationTimestamp;
     workflow :=
       match WorkflowRun.spec run ≫= RunSpec.workflow with
       | Some w =>
           Some {| wname := WorkflowRef.name w; wparameters := WorkflowRef.parameters w |}
       | None => None
       end |}.
End WorkflowService.

(** ** Generic workflow service (third copy of the derivation) *)

Module GenericWorkflowService.

Definition deriveWorkflowRunStatus (run : WorkflowRun.t) : string :=
  let conditions := Js.nullish (WorkflowRun.status run ≫= RunStatus.conditions) [] in
  let readyCondition := List.find isReadyType conditions in
  let tasks := Js.nullish (WorkflowRun.status run ≫= RunStatus.tasks) [] in
  if Js.truthy (WorkflowRun.status run ≫= RunStatus.completedAt) then
    if existsb failedOrError tasks then "Failed"
    else
      let reason := readyCondition ≫= Condition.reason in
      match reason with
      | Some r => if terminalReason reason then r else "Succeeded"
      | None => "Succeeded"
      end
  else
    match readyCondition with
    | Some rc =>
        Js.or_else (Condition.reason rc)
          (if bool_decide (Condition.status rc = "True") then "Succeeded" else "Running")
    | None =>
        if existsb failedOrError tasks then "Failed"
        else if forallb (phaseIs "Succeeded") tasks && bool_decide (0 < length tasks)
        then "Succeeded"
        else if existsb (phaseIs "Running") tasks then "Running"
        else if Js.truthy (WorkflowRun.status run ≫= RunStatus.startedAt) then "Running"
        else "Pending"
    end.
End GenericWorkflowService.

(** ** The derivations as JavaScript runs them

    The derivations take what the API delivered: [run: any] in two of the
    copies, a type that is not checked at run time in the third.  Here the
    three copies are written over untyped values, where reading a property
    of [undefined] or [null] and calling an array method on something that
    is not an array throw a TypeError. *)

Module Dyn.

(** A computation that yields a value or throws. *)
Definition E (A : Type) : Type := (Js.thrown + A)%type.

#[global] Instance E_ret : MRet E := λ A x, inr x.

#[global] Instance E_bind : MBind E := λ A B f c,
  match c with
  | inl e => inl e
  | inr x => f x
  end.

Definition TypeError (message : string) : Js.thrown := Js.ErrorObject "TypeError" message.

(** The value an object holds under a property name. *)
Fixpoint field (name : string) (fields : list (string * Js.value)) : Js.value :=
  match fields with
  | [] => Js.Undefined
  | (key, v) :: rest => if String.eqb key name then v else field name rest
  end.

(** [v.name], for the property names the sources read: status, conditions,
    tasks, completedAt, startedAt, type, reason and phase, none of which a
    string, a number, a boolean or an array owns. *)
Definition prop (name : string) (v : Js.value) : E Js.value :=
  match v with
  | Js.Undefined =>
      inl (TypeError ("Cannot read properties of undefined (reading '" +:+ name +:+ "')"))
  | Js.Null =>
      inl (TypeError ("Cannot read properties of null (reading '" +:+ name +:+ "')"))
  | Js.Obj fields => inr (field name fields)
  | Js.Bool _ | Js.Num _ | Js.Str _ | Js.Arr _ => inr Js.Undefined
  end.

(** [v?.name] *)
Definition optProp (name : string) (v : Js.value) : E Js.value :=
  match v with
  | Js.Undefined | Js.Null => inr Js.Undefined
  | _ => prop name v
  end.

(** [v ?? d] *)
Definition nullish (v d : Js.value) : Js.value :=
  match v with
  | Js.Undefined | Js.Null => d
  | _ => v
  end.

(** [v === 'literal'] *)
Definition isString (literal : string) (v : Js.value) : bool :=
  match v with
  | Js.Str s => String.eqb s literal
  | _ => false
  end.

(** The elements [v.find(...)], [v.some(...)] and [v.every(...)] go through:
    only an array has these methods. *)
Definition elements (method : string) (v : Js.value) : E (list Js.value) :=
  match v with
  | Js.Arr xs => inr xs
  | Js.Undefined =>
      inl (TypeError ("Cannot read properties of undefined (reading '" +:+ method +:+ "')"))
  | Js.Null =>
      inl (TypeError ("Cannot read properties of null (reading '" +:+ method +:+ "')"))
  | Js.Bool _ | Js.Num _ | Js.Str _ | Js.Obj _ =>
      inl (TypeError (method +:+ " is not a function"))
  end.

(** [xs.find(callback)] *)
Fixpoint find (callback : Js.value → E bool) (xs : list Js.value) : E Js.value :=
  match xs with
  | [] => inr Js.Undefined
  | x :: rest =>
      found ← callback x;
      if found : bool then inr x else find callback rest
  end.

(** [xs.some(callback)] *)
Fixpoint some (callback : Js.value → E bool) (xs : list Js.value) : E bool :=
  match xs with
  | [] => inr false
  | x :: rest =>
      found ← callback x;
      if found : bool then inr true else some callback rest
  end.

(** [xs.every(callback)] *)
Fixpoint every (callback : Js.value → E bool) (xs : list Js.value) : E bool :=
  match xs with
  | [] => inr true
  | x :: rest =>
      holds ← callback x;
      if holds : bool then every callback rest else inr false
  end.

(** [run.status?.name] *)
Definition statusField (name : string) (run : Js.value) : E Js.value :=
  status ← prop "status" run;
  optProp name status.

(** [c => c.type === 'Ready'] *)
Definition isReadyType (c : Js.value) : E bool :=
  type ← prop "type" c;
  mret (isString "Ready" type).

(** [t => t.phase === 'Failed' || t.phase === 'Error'] *)
Definition failedOrError (t : Js.value) : E bool :=
  phase ← prop "phase" t;
  mret (isString "Failed" phase || isString "Error" phase).

(** [t => t.phase === p] *)
Definition phaseIs (p : string) (t : Js.value) : E bool :=
  phase ← prop "phase" t;
  mret (isString p phase).

(** [reason && reason !== 'Running' && reason !== 'Pending'] *)
Definition terminalReason (reason : Js.value) : bool :=
  Js.truthyValue reason && negb (isString "Running" reason)
  && negb (isString "Pending" reason).

(** In the three copies below [ts] stands for the elements of [tasks] once
    [tasks.some(...)] has returned: from there on [tasks] is an array, and
    [tasks.length], [tasks.every(...)] and [tasks.some(...)] go through the
    same elements. *)

Module Transformer.
(** The statement block that assigns [status] in
    [transformComponentWorkflowRun]. *)
Definition derive (run : Js.value) : E Js.value :=
  conditions ← statusField "conditions" run;
  readyCondition ←
    match conditions with
    | Js.Undefined | Js.Null => mret Js.Undefined
    | _ => cs ← elements "find" conditions; find isReadyType cs
    end;
  tasks ← statusField "tasks" run;
  let tasks := nullish tasks (Js.Arr []) in
  completedAt ← statusField "completedAt" run;
  if Js.truthyValue completedAt then
    ts ← elements "some" tasks;
    failed ← some failedOrError ts;
    if failed : bool then mret (Js.Str "Failed")
    else
      reason ← optProp "reason" readyCondition;
      if terminalReason reason then mret reason else mret (Js.Str "Succeeded")
  else if Js.truthyValue readyCondition then
    reason ← prop "reason" readyCondition;
    if Js.truthyValue reason then mret reason
    else
      status ← prop "status" readyCondition;
      mret (if isString "True" status then Js.Str "Succeeded" else Js.Str "Running")
  else
    ts ← elements "some" tasks;
    failed ← some failedOrError ts;
    if failed : bool then mret (Js.Str "Failed")
    else
      succeeded ←
        (if bool_decide (0 < length ts) then every (phaseIs "Succeeded") ts
           else mret false);
      if succeeded : bool then mret (Js.Str "Succeeded")
      else
        running ← some (phaseIs "Running") ts;
        if running : bool then mret (Js.Str "Running")
        else
          startedAt ← statusField "startedAt" run;
          if Js.truthyValue startedAt then mret (Js.Str "Running")
          else mret (Js.Str "Pending").
End Transformer.

Module WorkflowService.
Definition deriveWorkflowRunStatus (run : Js.value) : E Js.value :=
  conditions ← statusField "conditions" run;
  cs ← elements "find" (nullish conditions (Js.Arr []));
  readyCondition ← find isReadyType cs;
  tasks ← statusField "tasks" run;
  let tasks := nullish tasks (Js.Arr []) in
  completedAt ← statusField "completedAt" run;
  if Js.truthyValue completedAt then
    ts ← elements "some" tasks;
    failed ← some failedOrError ts;
    if failed : bool then mret (Js.Str "Failed")
    else
      reason ← optProp "reason" readyCondition;
      if terminalReason reason then mret reason else mret (Js.Str "Succeeded")
  else if Js.truthyValue readyCondition then
    reason ← prop "reason" readyCondition;
    if Js.truthyValue reason then mret reason
    else
      status ← prop "status" readyCondition;
      mret (if isString "True" status then Js.Str "Succeeded" else Js.Str "Running")
  else
    ts ← elements "some" tasks;
    failed ← some failedOrError ts;
    if failed : bool then mret (Js.Str "Failed")
    else
      succeeded ←
        (all ← every (phaseIs "Succeeded") ts;
           mret (all && bool_decide (0 < length ts)));
      if succeeded : bool then mret (Js.Str "Succeeded")
      else
        running ← some (phaseIs "Running") ts;
        if running : bool then mret (Js.Str "Running")
        else
          startedAt ← statusField "startedAt" run;
          if Js.truthyValue startedAt then mret (Js.Str "Running")
          else mret (Js.Str "Pending").
End WorkflowService.

Module GenericWorkflowService.
Definition deriveWorkflowRunStatus (run : Js.value) : E Js.value :=
  conditions ← statusField "conditions" run;
  let conditions := nullish conditions (Js.Arr []) in
  cs ← elements "find" conditions;
  readyCondition ← find isReadyType cs;
  tasks ← statusField "tasks" run;
  let tasks := nullish tasks (Js.Arr []) in
  completedAt ← statusField "completedAt" run;
  if Js.truthyValue completedAt then
    ts ← elements "some" tasks;
    failed ← some failedOrError ts;
    if failed : bool then mret (Js.Str "Failed")
    else
      reason ← optProp "reason" readyCondition;
      if terminalReason reason then mret reason else mret (Js.Str "Succeeded")
  else if Js.truthyValue readyCondition then
    reason ← prop "reason" readyCondition;
    if Js.truthyValue reason then mret reason
    else
      status ← prop "status" readyCondition;
      mret (if isString "True" status then Js.Str "Succeeded" else Js.Str "Running")
  else
    ts ← elements "some" tasks;
    failed ← some failedOrError ts;
    if failed : bool then mret (Js.Str "Failed")
    else
      succeeded ←
        (all ← every (phaseIs "Succeeded") ts;
           mret (all && bool_decide (0 < length ts)));
      if succeeded : bool then mret (Js.Str "Succeeded")
      else
        running ← some (phaseIs "Running") ts;
        if running : bool then mret (Js.Str "Running")
        else
          startedAt ← statusField "startedAt" run;
          if Js.truthyValue startedAt then mret (Js.Str "Running")
          else mret (Js.Str "Pending").
End GenericWorkflowService.

End Dyn.

(** ** Effects: the logger, exceptions and local mutable state *)

Module Eff.

Inductive level := debug | info | warn | error.

(** A call [logger.<level>(message, cause?)]. *)
Record entry := { lvl : level; message : string; cause : option Js.thrown }.

#[global] Instance level_eq_dec : EqDecision level.
Proof. solve_decision. Defined.

(** A stretch of a method body that runs without interruption: it reads and
    writes the local mutable variables [σ], appends to the log, and either
    yields a value or throws. *)
Definition M (σ A : Type) : Type :=
  list entry * σ → (Js.thrown + A) * (list entry * σ).

#[global] Instance M_ret {σ} : MRet (M σ) := λ A x s, (inr x, s).

#[global] Instance M_bind {σ} : MBind (M σ) := λ A B f c s,
  match c s with
  | (inl e, s') => (inl e, s')
  | (inr x, s') => f x s'
  end.

Definition throw {σ A} (e : Js.thrown) : M σ A := λ s, (inl e, s).

(** [try { body } catch (e) { handler }] *)
Definition try_catch {σ A} (body : M σ A) (handler : Js.thrown → M σ A) : M σ A :=
  λ s, match body s with
       | (inl e, s') => handler e s'
       | (inr x, s') => (inr x, s')
       end.

Definition log {σ} (l : level) (msg : string) (c : option Js.thrown) : M σ unit :=
  λ s, (inr (), (s.1 ++ [{| lvl := l; message := msg; cause := c |}], s.2)).

Definition get {σ} : M σ σ := λ s, (inr s.2, s).

Definition modify {σ} (f : σ → σ) : M σ unit := λ s, (inr (), (s.1, f s.2)).

(** A call of an async function whose promise is not awaited at once: the
    part up to the first [await] runs at the call and yields the rest, which
    runs when the awaited promise has settled. *)
Definition async (σ A : Type) : Type := M σ (M σ A).

(** The first [await] of an async function: [rest] is what follows it. *)
Definition suspend {σ A} (rest : M σ A) : M σ (M σ A) := mret rest.

(** [try { body } catch (e) { handler }] around a body that awaits. *)
Definition try_async {σ A} (body : M σ (M σ A)) (handler : Js.thrown → M σ A)
    : async σ A :=
  λ s, match body s with
       | (inl e, s') =>
           match handler e s' with
           | (r, s'') => (inr (λ s, (r, s)), s'')
           end
       | (inr rest, s') => (inr (try_catch rest handler), s')
       end.

(** [await f(...)]: the call and the rest of it, one after the other. *)
Definition awaited {σ A} (call : async σ A) : M σ A :=
  rest ← (call : M σ (M σ A)); rest.

(** The order in which the promises of one [Promise.all] settle.  The
    promises are taken from the last to the first; the k-th number of
    [order] tells how many of the later promises settle before the k-th
    one.  Every order of settling is given by some [order]; the empty list
    gives the order of the requests. *)
Fixpoint settled {A} (order : list nat) (xs : list A) : list A :=
  match xs with
  | [] => []
  | x :: rest =>
      let later := settled (tail order) rest in
      take (hd 0 order) later ++ x :: drop (hd 0 order) later
  end.

(** The values of settled promises, put back at the positions of their
    requests. *)
Definition aligned {B} (n : nat) (values : list (nat * B)) : list B :=
  omap (λ i, snd <$> List.find (λ p, Nat.eqb p.1 i) values) (seq 0 n).

(** [await Promise.all(xs.map(async x => ...))]: the callbacks are called one
    after the other, each running up to its first [await]; what follows in
    each runs when its promise settles, in the order [order] gives; the
    values come back in the order of [xs].  A callback that throws rejects
    the whole: control returns to the caller at that moment, before the
    callbacks still pending go on. *)
Definition all {σ A B} (order : list nat) (f : A → async σ B) (xs : list A)
    : M σ (list B) :=
  pending ← mapM (λ x, try_catch (f x : M σ (M σ B)) (λ e, mret (throw e))) xs;
  values ← mapM (λ p, b ← p.2; mret (p.1, b))
              (settled order (zip (seq 0 (length pending)) pending));
  mret (aligned (length pending) values).

(** A call of a method from a fresh log, with its locals initialised. *)
Definition run {σ A} (c : M σ A) (init : σ) : (Js.thrown + A) * (list entry * σ) :=
  c ([], init).

Definition result {σ A} (r : (Js.thrown + A) * (list entry * σ)) : Js.thrown + A := r.1.
Definition logged {σ A} (r : (Js.thrown + A) * (list entry * σ)) : list entry := r.2.1.

Definition warnings (es : list entry) : list entry :=
  filter (λ e, lvl e = warn) es.

End Eff.

(** ** The remote platform API as the typed client presents it *)

Module Api.

(** What [await client.GET(...)] resolves to. *)
Record response (A : Type) := {
  data : option A;
  error : option Js.value;
  ok : bool;
  status : nat;
  statusText : string
}.
Arguments data {A}. Arguments error {A}. Arguments ok {A}.
Arguments status {A}. Arguments statusText {A}.

(** The request either rejects (network failure) or resolves. *)
Inductive outcome (A : Type) :=
| rejected (e : Js.thrown)
| resolved (r : response A).
Arguments rejected {A}. Arguments resolved {A}.

Definition await {σ A} (o : outcome A) : Eff.M σ (response A) :=
  match o with
  | rejected e => Eff.throw e
  | resolved r => mret r
  end.

(** [error] where it is used as a condition: [if (res.error)], [!error]. *)
Definition errored {A} (r : response A) : bool :=
  match error r with
  | Some v => Js.truthyValue v
  | None => false
  end.

(** [error || !response.ok] *)
Definition failed {A} (r : response A) : bool :=
  errored r || negb (ok r).

(** The pages the remote serves for a cursor-paged listing when the
    cursors are followed one after the other; the last page carries no
    nextCursor. *)
Inductive paged (A : Type) :=
| last_page (r : outcome (list A))
| next_page (r : outcome (list A)) (rest : paged A).
Arguments last_page {A}. Arguments next_page {A}.

(** Modelled from the spec: fetchAllPages of the client library, which is
    not among the sources.  "fetchPage(cursor) -> {items, nextCursor};
    exhausted when nextCursor is absent; the aggregator accumulates across
    pages", "with no backoff or partial-failure policy": a page whose fetch
    throws makes the whole call throw.  The callbacks of the sources hand
    over [res.data], which may be [undefined]; the spec does not say what
    the library does with such a page, so that is left open:
    [undefinedPage] is the error it throws then, or [None] when it takes
    the page, which has no cursor to follow, as the empty end of the
    listing. *)
Fixpoint fetchAllPages {σ A} (undefinedPage : option Js.thrown)
    (fetchPage : outcome (list A) → Eff.M σ (option (list A))) (pages : paged A)
    : Eff.M σ (list A) :=
  let ended : Eff.M σ (list A) :=
    match undefinedPage with
    | Some e => Eff.throw e
    | None => mret []
    end in
  match pages with
  | last_page r =>
      page ← fetchPage r;
      match page with
      | Some items => mret items
      | None => ended
      end
  | next_page r rest =>
      page ← fetchPage r;
      match page with
      | Some items =>
          more ← fetchAllPages undefinedPage fetchPage rest;
          mret (items ++ more)
      | None => ended
      end
  end.

End Api.

(** Kubernetes-style objects of the new API. *)
Module K8s.
Record t := { metadata : Metadata.t; conditions : list Condition.t }.
End K8s.

(** The helpers imported from the client library; they are not among the
    sources and are taken as given. *)
Module ClientNode.
Record t := {
  getName : K8s.t → option string;
  getNamespace : K8s.t → option string;
  getDisplayName : K8s.t → option string;
  getDescription : K8s.t → option string;
  getCreatedAt : K8s.t → option string;
  isReady : K8s.t → bool
}.
End ClientNode.

Module NewEnvironment.
Record ref_t := { name : option string }.
Record gateway_t := { publicVirtualHost : option string }.
Record spec_t := {
  dataPlaneRef : option ref_t;
  isProduction : option bool;
  gateway : option gateway_t
}.
Record t := { obj : K8s.t; spec : option spec_t }.
End NewEnvironment.

Module NewDataPlane.
Record ref_t := { name : option string }.
Record gateway_t := {
  publicVirtualHost : option string;
  organizationVirtualHost : option string;
  publicHTTPPort : option nat;
  publicHTTPSPort : option nat;
  organizationHTTPPort : option nat;
  organizationHTTPSPort : option nat
}.
Record spec_t := {
  gateway : option gateway_t;
  secretStoreRef : option ref_t;
  observabilityPlaneRef : option ref_t;
  imagePullSecretRefs : option (list string)
}.
Record t := { obj : K8s.t; spec : option spec_t }.
End NewDataPlane.

Module NewReleaseBinding.
Record spec_t := { environment : option string }.
Record t := { obj : K8s.t; spec : option spec_t }.
End NewReleaseBinding.

(** The flat shapes of the platform view. *)
Module Environment.
Record t := {
  name : string;
  namespace : string;
  displayName : string;
  description : string;
  namespaceName : string;
  dataPlaneRef : string;
  isProduction : bool;
  dnsPrefix : string;
  createdAt : string;
  status : string
}.
End Environment.

Module DataPlane.
Record t := {
  name : string;
  namespace : option string;
  displayName : option string;
  description : option string;
  namespaceName : string;
  imagePullSecretRefs : option (list string);
  secretStoreRef : option string;
  publicVirtualHost : option string;
  namespaceVirtualHost : option string;
  publicHTTPPort : option nat;
  publicHTTPSPort : option nat;
  namespaceHTTPPort : option nat;
  namespaceHTTPSPort : option nat;
  observabilityPlaneRef : option string;
  createdAt : option string;
  status : string
}.
End DataPlane.

(** [{ ...dataplane, environments }] *)
Module DataPlaneWithEnvironments.
Record t := { dataplane : DataPlane.t; environments : list Environment.t }.
End DataPlaneWithEnvironments.

Module Component.
Record t := { namespaceName : string; projectName : string; componentName : string }.
End Component.

(** Everything outside the service: the remote API, the clock, and what
    the client library and the event loop leave open. *)
Module Remote.
Record t := {
  namespaces : Api.outcome (list K8s.t);
  environments : string → Api.outcome (list NewEnvironment.t);
  dataplanes : string → Api.outcome (list NewDataPlane.t);
  dataplanePages : string → Api.paged NewDataPlane.t;
  releasebindingPages : string → string → Api.paged NewReleaseBinding.t;
  (** [Date.now() - startTime] as read when a method reports its duration *)
  totalTime : nat;
  (** what fetchAllPages does with a page that is [undefined] *)
  undefinedPage : option Js.thrown;
  (** the order in which the requests of a [Promise.all] are answered, for
      the [Promise.all] of the named method that starts at the given index
      of its input *)
  settleOrder : string → nat → list nat
}.
End Remote.

(** ** openchoreo-backend: DataPlaneInfoService *)

Module DataPlaneInfoService.
Section Service.
Context {DataPlaneResponse : Type}.
(** [transformDataPlane] of the transformers module, taken as given. *)
Context (transformDataPlane : NewDataPlane.t → DataPlaneResponse).
Context (remote : Remote.t).


End Service.
End DataPlaneInfoService.

(** ** PlatformEnvironmentInfoService *)

Module PlatformEnvironmentInfoService.
Section Service.
Context (lib : ClientNode.t) (remote : Remote.t).

Definition elapsed : string := Js.show (Remote.totalTime remote).

(** [const batchSize = 10] *)
Definition batchSize : nat := 10.

(** [xs.slice(i, j)] for [0 <= i <= j] *)
Definition slice {A} (i j : nat) (xs : list A) : list A := take (j - i) (drop i xs).

Definition transformEnvironmentData
    (environmentData : list NewEnvironment.t) (namespaceName : string)
    : list Environment.t :=
  map (λ env,
    let o := NewEnvironment.obj env in
    let name := Js.or_else (ClientNode.getName lib o) "" in
    {| Environment.name := name;
       Environment.namespace := Js.or_else (ClientNode.getNamespace lib o) "";
       Environment.displayName := Js.or_else (ClientNode.getDisplayName lib o) name;
       Environment.description := Js.or_else (ClientNode.getDescription lib o) "";
       Environment.namespaceName := namespaceName;
       Environment.dataPlaneRef :=
         Js.or_else (sp ← NewEnvironment.spec env;
                     ref ← NewEnvironment.dataPlaneRef sp;
                     NewEnvironment.name ref) "";
       Environment.isProduction :=
         Js.nullish (NewEnvironment.spec env ≫= NewEnvironment.isProduction) false;
       Environment.dnsPrefix :=
         Js.or_else (sp ← NewEnvironment.spec env;
                     gw ← NewEnvironment.gateway sp;
                     NewEnvironment.publicVirtualHost gw) "";
       Environment.createdAt := Js.or_else (ClientNode.getCreatedAt lib o) "";
       Environment.status := if ClientNode.isReady lib o then "Ready" else "NotReady" |})
    environmentData.

Definition transformDataPlaneData
    (dataplaneData : list NewDataPlane.t) (namespaceName : string)
    : list DataPlane.t :=
  map (λ dp,
    let o := NewDataPlane.obj dp in
    let gateway := NewDataPlane.spec dp ≫= NewDataPlane.gateway in
    let secretStore := NewDataPlane.spec dp ≫= NewDataPlane.secretStoreRef in
    let obsRef := NewDataPlane.spec dp ≫= NewDataPlane.observabilityPlaneRef in
    {| DataPlane.name := Js.or_else (ClientNode.getName lib o) "";
       DataPlane.namespace := ClientNode.getNamespace lib o;
       DataPlane.displayName := ClientNode.getDisplayName lib o;
       DataPlane.description := ClientNode.getDescription lib o;
       DataPlane.namespaceName := namespaceName;
       DataPlane.imagePullSecretRefs :=
         NewDataPlane.spec dp ≫= NewDataPlane.imagePullSecretRefs;
       DataPlane.secretStoreRef := secretStore ≫= NewDataPlane.name;
       DataPlane.publicVirtualHost := gateway ≫= NewDataPlane.publicVirtualHost;
       DataPlane.namespaceVirtualHost := gateway ≫= NewDataPlane.organizationVirtualHost;
       DataPlane.publicHTTPPort := gateway ≫= NewDataPlane.publicHTTPPort;
       DataPlane.publicHTTPSPort := gateway ≫= NewDataPlane.publicHTTPSPort;
       DataPlane.namespaceHTTPPort := gateway ≫= NewDataPlane.organizationHTTPPort;
       DataPlane.namespaceHTTPSPort := gateway ≫= NewDataPlane.organizationHTTPSPort;
       DataPlane.observabilityPlaneRef := obsRef ≫= NewDataPlane.name;
       DataPlane.createdAt := ClientNode.getCreatedAt lib o;
       DataPlane.status := if ClientNode.isReady lib o then "Ready" else "NotReady" |})
    dataplaneData.

Definition fetchNamespaceNames : Eff.M () (list string) :=
  res ← Api.await (Remote.namespaces remote);
  if Api.failed res then
    Eff.log Eff.error
      ("Failed to fetch namespaces: " +:+ Js.show (Api.status res) +:+ " "
       +:+ Api.statusText res) None;;
    mret []
  else
    match Api.data res with
    | None => Eff.log Eff.warn "No namespaces found" None;; mret []
    | Some items =>
        mret (omap (λ ns, let name := ClientNode.getName lib ns in
                          if Js.truthy name then name else None) items)
    end.

(** The call [this.fetchEnvironmentsByNamespace(namespaceName, userToken)]:
    the method runs up to its request; the rest runs when the response is
    there. *)
Definition fetchEnvironmentsByNamespaceAsync (namespaceName : string)
    : Eff.async () (list Environment.t) :=
  Eff.try_async
    (Eff.log Eff.debug ("Starting environment fetch for namespace: " +:+ namespaceName) None;;
     Eff.suspend
       (res ← Api.await (Remote.environments remote namespaceName);
        if Api.failed res then
          Eff.log Eff.error
            ("Failed to fetch environments for namespace " +:+ namespaceName +:+ ": "
             +:+ Js.show (Api.status res) +:+ " " +:+ Api.statusText res) None;;
          mret []
        else
          match Api.data res with
          | None =>
              Eff.log Eff.warn ("No environments found for namespace " +:+ namespaceName)
                None;;
              mret []
          | Some items =>
              let result := transformEnvironmentData items namespaceName in
              Eff.log Eff.debug
                ("Environment fetch completed for " +:+ namespaceName +:+ ": "
                 +:+ Js.show (length result) +:+ " environments found (" +:+ elapsed
                 +:+ "ms)") None;;
              mret result
          end))
    (λ error,
      Eff.log Eff.error
        ("Error fetching environments for namespace " +:+ namespaceName +:+ " ("
         +:+ elapsed +:+ "ms):") (Some error);;
      mret []).

(** The method, awaited by its caller. *)
Definition fetchEnvironmentsByNamespace (namespaceName : string)
    : Eff.M () (list Environment.t) :=
  Eff.awaited (fetchEnvironmentsByNamespaceAsync namespaceName).

Definition fetchAllEnvironments : Eff.M () (list Environment.t) :=
  Eff.try_catch
    (Eff.log Eff.debug "Starting platform-wide environment fetch" None;;
     namespaces ← fetchNamespaceNames;
     results ← Eff.all (Remote.settleOrder remote "fetchAllEnvironments" 0)
                 fetchEnvironmentsByNamespaceAsync namespaces;
     let allEnvironments := concat results in
     Eff.log Eff.debug
       ("Platform environment fetch completed: " +:+ Js.show (length allEnvironments)
        +:+ " environments across " +:+ Js.show (length namespaces) +:+ " namespaces ("
        +:+ elapsed +:+ "ms)") None;;
     mret allEnvironments)
    (λ error,
      Eff.log Eff.error
        ("Error fetching platform environments (" +:+ elapsed +:+ "ms):") (Some error);;
      mret []).

(** The call [this.fetchDataplanesByNamespace(namespaceName, userToken)]. *)
Definition fetchDataplanesByNamespaceAsync (namespaceName : string)
    : Eff.async () (list DataPlane.t) :=
  Eff.try_async
    (Eff.log Eff.debug ("Starting dataplane fetch for namespace: " +:+ namespaceName) None;;
     Eff.suspend
       (res ← Api.await (Remote.dataplanes remote namespaceName);
        if Api.failed res then
          Eff.log Eff.error
            ("Failed to fetch dataplanes for namespace " +:+ namespaceName +:+ ": "
             +:+ Js.show (Api.status res) +:+ " " +:+ Api.statusText res) None;;
          mret []
        else
          match Api.data res with
          | None =>
              Eff.log Eff.warn ("No dataplanes found for namespace " +:+ namespaceName)
                None;;
              mret []
          | Some items =>
              let result := transformDataPlaneData items namespaceName in
              Eff.log Eff.debug
                ("Dataplane fetch completed for " +:+ namespaceName +:+ ": "
                 +:+ Js.show (length result) +:+ " dataplanes found (" +:+ elapsed
                 +:+ "ms)") None;;
              mret result
          end))
    (λ error,
      Eff.log Eff.error
        ("Error fetching dataplanes for namespace " +:+ namespaceName +:+ " ("
         +:+ elapsed +:+ "ms):") (Some error);;
      mret []).

(** The method, awaited by its caller. *)
Definition fetchDataplanesByNamespace (namespaceName : string)
    : Eff.M () (list DataPlane.t) :=
  Eff.awaited (fetchDataplanesByNamespaceAsync namespaceName).

Definition fetchAllDataplanes : Eff.M () (list DataPlane.t) :=
  Eff.try_catch
    (Eff.log Eff.debug "Starting platform-wide dataplane fetch" None;;
     namespaces ← fetchNamespaceNames;
     results ← Eff.all (Remote.settleOrder remote "fetchAllDataplanes" 0)
                 fetchDataplanesByNamespaceAsync namespaces;
     let allDataplanes := concat results in
     Eff.log Eff.debug
       ("Platform dataplane fetch completed: " +:+ Js.show (length allDataplanes)
        +:+ " dataplanes across " +:+ Js.show (length namespaces) +:+ " namespaces ("
        +:+ elapsed +:+ "ms)") None;;
     mret allDataplanes)
    (λ error,
      Eff.log Eff.error
        ("Error fetching platform dataplanes (" +:+ elapsed +:+ "ms):") (Some error);;
      mret []).

(** [`${env.namespaceName}/${env.dataPlaneRef}`] *)
Definition environmentKey (env : Environment.t) : string :=
  Environment.namespaceName env +:+ "/" +:+ Environment.dataPlaneRef env.

(** [`${dataplane.namespaceName}/${dataplane.name}`] *)
Definition dataplaneKey (dataplane : DataPlane.t) : string :=
  DataPlane.namespaceName dataplane +:+ "/" +:+ DataPlane.name dataplane.

(** The body of [environments.forEach(env => ...)]: create the group when the
    key is new, then push onto the array stored under the key. *)
Definition groupStep (environmentsByDataPlane : gmap string (list Environment.t))
    (env : Environment.t) : gmap string (list Environment.t) :=
  let key := environmentKey env in
  let withGroup :=
    if bool_decide (is_Some (environmentsByDataPlane !! key))
    then environmentsByDataPlane
    else <[key := []]> environmentsByDataPlane in
  alter (λ group, group ++ [env]) key withGroup.

(** The Map built by fetchDataplanesWithEnvironments. *)
Definition groupEnvironments (environments : list Environment.t)
    : gmap string (list Environment.t) :=
  foldl groupStep ∅ environments.

Definition attachEnvironments
    (environmentsByDataPlane : gmap string (list Environment.t))
    (dataplanes : list DataPlane.t) : list DataPlaneWithEnvironments.t :=
  map (λ dataplane,
    {| DataPlaneWithEnvironments.dataplane := dataplane;
       DataPlaneWithEnvironments.environments :=
         default [] (environmentsByDataPlane !! dataplaneKey dataplane) |})
    dataplanes.

Definition fetchDataplanesWithEnvironments
    : Eff.M () (list DataPlaneWithEnvironments.t) :=
  Eff.try_catch
    (Eff.log Eff.debug "Starting dataplanes with environments fetch" None;;
     dataplanes ← fetchAllDataplanes;
     environments ← fetchAllEnvironments;
     let environmentsByDataPlane := groupEnvironments environments in
     let dataplanesWithEnvironments := attachEnvironments environmentsByDataPlane dataplanes in
     Eff.log Eff.debug
       ("Dataplanes with environments fetch completed: "
        +:+ Js.show (length dataplanesWithEnvironments) +:+ " dataplanes with "
        +:+ Js.show (length environments) +:+ " total environments (" +:+ elapsed
        +:+ "ms)") None;;
     mret dataplanesWithEnvironments)
    (λ error,
      Eff.log Eff.error
        ("Error fetching dataplanes with environments (" +:+ elapsed +:+ "ms):")
        (Some error);;
      mret []).

(** The callback handed to fetchAllPages for release bindings: a truthy
    [res.error] makes it throw; otherwise it hands over [res.data!]. *)
Definition releaseBindingsPage {σ} (res : Api.outcome (list NewReleaseBinding.t))
    : Eff.M σ (option (list NewReleaseBinding.t)) :=
  res ← Api.await res;
  if Api.errored res then Eff.throw (Js.Error "Failed to fetch release bindings")
  else mret (Api.data res).

Definition fetchBindings {σ} (component : Component.t)
    : Eff.M σ (list NewReleaseBinding.t) :=
  Api.fetchAllPages (Remote.undefinedPage remote) releaseBindingsPage
    (Remote.releasebindingPages remote
       (Component.namespaceName component) (Component.componentName component)).

Definition warnFailedBindings {σ} (component : Component.t) (error : Js.thrown)
    : Eff.M σ unit :=
  Eff.log Eff.warn
    ("Failed to fetch bindings for component " +:+ Component.namespaceName component
     +:+ "/" +:+ Component.projectName component +:+ "/"
     +:+ Component.componentName component +:+ ":") (Some (Js.asError error)).

(** The body of [bindings.forEach(binding => ...)] in
    fetchComponentCountsPerEnvironment. *)
Definition countBinding (component : Component.t)
    (componentCountsByEnvironment : gmap string nat) (binding : NewReleaseBinding.t)
    : gmap string nat :=
  let envName := NewReleaseBinding.spec binding ≫= NewReleaseBinding.environment in
  match envName with
  | Some name =>
      if Js.truthy envName then
        let key := Component.namespaceName component +:+ "/" +:+ name in
        let currentCount := default 0 (componentCountsByEnvironment !! key) in
        <[key := currentCount + 1]> componentCountsByEnvironment
      else componentCountsByEnvironment
  | None => componentCountsByEnvironment
  end.

(** One callback of [batch.map(async component => ...)] in
    fetchComponentCountsPerEnvironment, from its [await] on: the callback
    does nothing to the log or to the Map before. *)
Definition countComponent (component : Component.t) : Eff.M (gmap string nat) unit :=
  Eff.try_catch
    (bindings ← fetchBindings component;
     Eff.modify (λ counts, foldl (countBinding component) counts bindings))
    (λ error, warnFailedBindings component error).

(** [for (let i = 0; i < components.length; i += batchSize)], with the body
    given as a function of [i] and of the batch; [fuel] bounds the number of
    iterations. *)
Fixpoint forBatches {σ} (fuel : nat) (i : nat) (components : list Component.t)
    (body : nat → list Component.t → Eff.M σ unit) : Eff.M σ unit :=
  match fuel with
  | 0 => mret ()
  | S fuel' =>
      if bool_decide (i < length components) then
        body i (slice i (i + batchSize) components);;
        forBatches fuel' (i + batchSize) components body
      else mret ()
  end.

Definition fetchComponentCountsPerEnvironment (components : list Component.t)
    : Eff.M (gmap string nat) (gmap string nat) :=
  Eff.try_catch
    (Eff.log Eff.debug
       ("Starting component counts fetch for " +:+ Js.show (length components)
        +:+ " components") None;;
     forBatches (length components) 0 components
       (λ i batch,
          Eff.all (Remote.settleOrder remote "fetchComponentCountsPerEnvironment" i)
            (λ component, Eff.suspend (countComponent component)) batch;;
          mret ());;
     componentCountsByEnvironment ← Eff.get;
     Eff.log Eff.debug
       ("Component counts fetch completed: Found deployments in "
        +:+ Js.show (size componentCountsByEnvironment) +:+ " environments ("
        +:+ elapsed +:+ "ms)") None;;
     mret componentCountsByEnvironment)
    (λ error,
      Eff.log Eff.error ("Error fetching component counts (" +:+ elapsed +:+ "ms):")
        (Some error);;
      Eff.get).

(** One callback of [batch.map(async component => ...)] in
    fetchHealthyWorkloadCount, from its [await] on. *)
Definition healthyCount (component : Component.t) : Eff.M nat nat :=
  Eff.try_catch
    (bindings ← fetchBindings component;
     mret (length (List.filter (λ binding,
                      ClientNode.isReady lib (NewReleaseBinding.obj binding)) bindings)))
    (λ error, warnFailedBindings component error;; mret 0).

(** The batch loop of fetchHealthyWorkloadCount; the local
    [healthyWorkloadCount] is the state. *)
Definition healthyBatch (i : nat) (batch : list Component.t) : Eff.M nat unit :=
  batchCounts ← Eff.all (Remote.settleOrder remote "fetchHealthyWorkloadCount" i)
                  (λ component, Eff.suspend (healthyCount component)) batch;
  Eff.modify (λ healthyWorkloadCount,
    healthyWorkloadCount + foldl (λ sum count, sum + count) 0 batchCounts).

Definition fetchHealthyWorkloadCount (components : list Component.t) : Eff.M nat nat :=
  Eff.try_catch
    (Eff.log Eff.debug
       ("Starting healthy workload count for " +:+ Js.show (length components)
        +:+ " components") None;;
     forBatches (length components) 0 components healthyBatch;;
     healthyWorkloadCount ← Eff.get;
     Eff.log Eff.debug
       ("Healthy workload count completed: Found " +:+ Js.show healthyWorkloadCount
        +:+ " healthy workloads (" +:+ elapsed +:+ "ms)") None;;
     mret healthyWorkloadCount)
    (λ error,
      Eff.log Eff.error
        ("Error fetching healthy workload count (" +:+ elapsed +:+ "ms):") (Some error);;
      mret 0).

(** [{ ...env, componentCount }] and the data plane carrying such
    environments, as fetchDataplanesWithEnvironmentsAndComponentCounts
    builds them. *)
Record CountedEnvironment := {
  environment : Environment.t;
  componentCount : nat
}.

Record DataPlaneWithCountedEnvironments := {
  countedDataplane : DataPlane.t;
  countedEnvironments : list CountedEnvironment
}.

Definition fetchDataplanesWithEnvironmentsAndComponentCounts
    : Eff.M () (list DataPlaneWithCountedEnvironments) :=
  Eff.try_catch
    (Eff.log Eff.debug
       "Starting dataplanes with environments and component counts fetch" None;;
     dataplanesWithEnvironments ← fetchDataplanesWithEnvironments;
     let enrichedDataplanes :=
       map (λ dataplane,
         {| countedDataplane := DataPlaneWithEnvironments.dataplane dataplane;
            countedEnvironments :=
              map (λ env, {| environment := env; componentCount := 0 |})
                (DataPlaneWithEnvironments.environments dataplane) |})
         dataplanesWithEnvironments in
     Eff.log Eff.debug
       ("Dataplanes with environments and component counts fetch completed: "
        +:+ Js.show (length enrichedDataplanes) +:+ " dataplanes (" +:+ elapsed
        +:+ "ms)") None;;
     mret enrichedDataplanes)
    (λ error,
      Eff.log Eff.error
        ("Error fetching dataplanes with environments and component counts ("
         +:+ elapsed +:+ "ms):") (Some error);;
      mret []).

(** The answer of the remote to the existence probe of
    fetchDistinctDeployedComponentsCount: release bindings of a component
    of a namespace, asked for with [limit: 1]. *)
Context (probe : string → string → Api.outcome (list NewReleaseBinding.t)).

(** [`${component.namespaceName}/${component.projectName}/${component.componentName}`] *)
Definition componentKey (component : Component.t) : string :=
  Component.namespaceName component +:+ "/" +:+ Component.projectName component
  +:+ "/" +:+ Component.componentName component.

(** [!error && response.ok && data?.items && data.items.length > 0] *)
Definition hasBinding (res : Api.response (list NewReleaseBinding.t)) : bool :=
  negb (Api.errored res)
  && Api.ok res
  && match Api.data res with
     | Some items => bool_decide (0 < length items)
     | None => false
     end.

(** One callback of [batch.map(async component => ...)] in
    fetchDistinctDeployedComponentsCount, from its [await] on; the Set
    [deployedComponents] is the state. *)
Definition probeComponent (component : Component.t) : Eff.M (gset string) unit :=
  Eff.try_catch
    (res ← Api.await
             (probe (Component.namespaceName component)
                    (Component.componentName component));
     if hasBinding res then
       Eff.modify (λ deployedComponents, deployedComponents ∪ {[componentKey component]})
     else mret ())
    (λ error, warnFailedBindings component error).

Definition fetchDistinctDeployedComponentsCount (components : list Component.t)
    : Eff.M (gset string) nat :=
  Eff.try_catch
    (Eff.log Eff.debug
       ("Starting distinct deployed components count for "
        +:+ Js.show (length components) +:+ " components") None;;
     forBatches (length components) 0 components
       (λ i batch,
          Eff.all (Remote.settleOrder remote "fetchDistinctDeployedComponentsCount" i)
            (λ component, Eff.suspend (probeComponent component)) batch;;
          mret ());;
     deployedComponents ← Eff.get;
     Eff.log Eff.debug
       ("Distinct deployed components count completed: Found "
        +:+ Js.show (size deployedComponents) +:+ " deployed components ("
        +:+ elapsed +:+ "ms)") None;;
     mret (size deployedComponents))
    (λ error,
      Eff.log Eff.error
        ("Error fetching distinct deployed components count (" +:+ elapsed +:+ "ms):")
        (Some error);;
      mret 0).


End Service.
End PlatformEnvironmentInfoService.

(** ** Workflow runs as the remote serves them *)

Module RunsApi.
Record t := {
  (** GET /api/v1/namespaces/{namespaceName}/workflowruns, page after page *)
  workflowrunPages : string → Api.paged WorkflowRun.t;
  (** GET /api/v1/namespaces/{namespaceName}/workflowruns/{runName} *)
  workflowrun : string → string → Api.outcome WorkflowRun.t;
  (** what fetchAllPages does with a page that is [undefined] *)
  undefinedPage : option Js.thrown
}.
End RunsApi.

(** [run.metadata?.labels?.[key]] *)
Definition labelOf (key : string) (run : WorkflowRun.t) : option string :=
  m ← WorkflowRun.metadata run; ls ← Metadata.labels m; ls !! key.

(** ** openchoreo-ci-backend: the build operations of WorkflowService *)

Module CiWorkflowService.
Section Service.
Context (api : RunsApi.t).

(** The callback handed to fetchAllPages by fetchBuilds. *)
Definition workflowRunsPage (res : Api.outcome (list WorkflowRun.t))
    : Eff.M () (option (list WorkflowRun.t)) :=
  res ← Api.await res;
  if Api.failed res then
    Eff.throw (Js.Error ("Failed to fetch component workflow runs: "
                         +:+ Js.show (Api.status res) +:+ " " +:+ Api.statusText res))
  else mret (Api.data res).

Definition fetchBuilds (namespaceName projectName componentName : string)
    : Eff.M () (list ComponentWorkflowRunResponse.t) :=
  Eff.log Eff.debug
    ("Fetching component workflow runs for component: " +:+ componentName
     +:+ " in project: " +:+ projectName +:+ ", namespace: " +:+ namespaceName) None;;
  Eff.try_catch
    (allRuns ← Api.fetchAllPages (RunsApi.undefinedPage api) workflowRunsPage
                 (RunsApi.workflowrunPages api namespaceName);
     let builds :=
       map WorkflowService.transformWorkflowRun
         (List.filter
            (λ run, bool_decide (labelOf "openchoreo.dev/component" run
                                 = Some componentName))
            allRuns) in
     Eff.log Eff.debug
       ("Successfully fetched " +:+ Js.show (length builds)
        +:+ " component workflow runs for component: " +:+ componentName) None;;
     mret builds)
    (λ error,
      Eff.log Eff.error
        ("Failed to fetch component workflow runs for component " +:+ componentName
         +:+ ": " +:+ Js.text error) None;;
      Eff.throw error).

Definition getWorkflowRun (namespaceName projectName componentName runName : string)
    : Eff.M () ComponentWorkflowRunResponse.t :=
  Eff.log Eff.debug
    ("Fetching workflow run: " +:+ runName +:+ " for component: " +:+ componentName
     +:+ " in project: " +:+ projectName +:+ ", namespace: " +:+ namespaceName) None;;
  Eff.try_catch
    (res ← Api.await (RunsApi.workflowrun api namespaceName runName);
     if Api.failed res then
       Eff.throw (Js.Error ("Failed to fetch workflow run: " +:+ Js.show (Api.status res)
                            +:+ " " +:+ Api.statusText res))
     else
       match Api.data res with
       | None => Eff.throw (Js.Error "No workflow run data returned")
       | Some data =>
           let runLabels :=
             Js.nullish (WorkflowRun.metadata data ≫= Metadata.labels) ∅ in
           if bool_decide (runLabels !! "openchoreo.dev/component" ≠ Some componentName)
              || bool_decide (runLabels !! "openchoreo.dev/project" ≠ Some projectName)
           then
             Eff.throw (Js.Error ("Workflow run " +:+ runName
                                  +:+ " does not belong to component " +:+ componentName
                                  +:+ " in project " +:+ projectName))
           else
             Eff.log Eff.debug ("Successfully fetched workflow run: " +:+ runName) None;;
             mret (WorkflowService.transformWorkflowRun data)
       end)
    (λ error,
      Eff.log Eff.error
        ("Failed to fetch workflow run " +:+ runName +:+ " for component "
         +:+ componentName +:+ ": " +:+ Js.text error) None;;
      Eff.throw error).

End Service.
End CiWorkflowService.

(** ** openchoreo-backend: BuildInfoService *)

Module BuildInfoService.
Section Service.
Context (api : RunsApi.t).

(** The callback handed to fetchAllPages by fetchBuilds. *)
Definition workflowRunsPage (res : Api.outcome (list WorkflowRun.t))
    : Eff.M () (option (list WorkflowRun.t)) :=
  res ← Api.await res;
  if Api.failed res then
    Eff.throw (Js.Error ("Failed to fetch component workflow runs: "
                         +:+ Js.show (Api.status res) +:+ " " +:+ Api.statusText res))
  else mret (Api.data res).

Definition fetchBuilds (namespaceName _projectName componentName : string)
    : Eff.M () (list ComponentWorkflowRunResponse.t) :=
  Eff.log Eff.debug
    ("Fetching component workflow runs for component: " +:+ componentName
     +:+ " in namespace: " +:+ namespaceName) None;;
  Eff.try_catch
    (items ← Api.fetchAllPages (RunsApi.undefinedPage api) workflowRunsPage
               (RunsApi.workflowrunPages api namespaceName);
     let builds :=
       map Transformer.transformComponentWorkflowRun
         (List.filter
            (λ run, bool_decide (labelOf "openchoreo.dev/component" run
                                 = Some componentName))
            items) in
     Eff.log Eff.debug
       ("Successfully fetched " +:+ Js.show (length builds)
        +:+ " component workflow runs for component: " +:+ componentName) None;;
     mret builds)
    (λ error,
      Eff.log Eff.error
        ("Failed to fetch component workflow runs for component " +:+ componentName
         +:+ ": " +:+ Js.text error) None;;
      Eff.throw error).

(** Here the labels are read with [data?.metadata?.labels ?? {}] and there
    is no separate test for missing data: without data no label matches. *)
Definition getWorkflowRun (namespaceName projectName componentName runName : string)
    : Eff.M () ComponentWorkflowRunResponse.t :=
  Eff.log Eff.debug
    ("Fetching workflow run: " +:+ runName +:+ " in namespace: " +:+ namespaceName) None;;
  Eff.try_catch
    (res ← Api.await (RunsApi.workflowrun api namespaceName runName);
     if Api.failed res then
       Eff.throw (Js.Error ("Failed to fetch workflow run: " +:+ Js.show (Api.status res)
                            +:+ " " +:+ Api.statusText res))
     else
       let runLabels :=
         Js.nullish (data ← Api.data res; m ← WorkflowRun.metadata data; Metadata.labels m)
           ∅ in
       if bool_decide (runLabels !! "openchoreo.dev/component" ≠ Some componentName)
          || bool_decide (runLabels !! "openchoreo.dev/project" ≠ Some projectName)
       then
         Eff.throw (Js.Error ("Workflow run " +:+ runName
                              +:+ " does not belong to component " +:+ componentName
                              +:+ " in project " +:+ projectName))
       else
         Eff.log Eff.debug ("Successfully fetched workflow run: " +:+ runName) None;;
         match Api.data res with
         | Some data => mret (Transformer.transformComponentWorkflowRun data)
         | None =>
             (* not reached: without data the label test above has thrown *)
             Eff.throw (Js.ErrorObject "TypeError"
                          "Cannot read properties of undefined (reading 'metadata')")
         end)
    (λ error,
      Eff.log Eff.error
        ("Failed to fetch workflow run " +:+ runName +:+ ": " +:+ Js.text error) None;;
      Eff.throw error).

End Service.
End BuildInfoService.

(** ** Generic workflow service: runs *)

Module GenericRuns.

(** The local flat WorkflowRun shape. *)
Record run_t := {
  name : string;
  uuid : option string;
  workflowName : string;
  namespaceName : string;
  status : string;
  parameters : option Js.value;
  createdAt : option string;
  finishedAt : option string
}.

Definition transformWorkflowRun (run : WorkflowRun.t) : run_t :=
  {| name := Js.nullish (WorkflowRun.metadata run ≫= Metadata.name) "";
     uuid := WorkflowRun.metadata run ≫= Metadata.uid;
     workflowName :=
       Js.nullish (sp ← WorkflowRun.spec run; w ← RunSpec.workflow sp;
                   Some (WorkflowRef.name w)) "";
     namespaceName := Js.nullish (WorkflowRun.metadata run ≫= Metadata.namespace) "";
     status := GenericWorkflowService.deriveWorkflowRunStatus run;
     parameters :=
       sp ← WorkflowRun.spec run; w ← RunSpec.workflow sp;
       Some (WorkflowRef.parameters w);
     createdAt := WorkflowRun.metadata run ≫= Metadata.creationTimestamp;
     finishedAt := WorkflowRun.status run ≫= RunStatus.completedAt |}.

(** A raw item of the run listing: the Kubernetes-style run, and the flat
    [workflowName] field the filter also looks at. *)
Record raw_t := { run : WorkflowRun.t; flatWorkflowName : option string }.

(** The body of the listing response. *)
Record listing_t := {
  items : option (list raw_t);
  pagination : option (option string)
}.

Record page_t := {
  pageItems : list run_t;
  pagePagination : option (option string)
}.

Section Service.
(** GET /api/v1/namespaces/{namespaceName}/workflowruns *)
Context (workflowruns : string → Api.outcome listing_t).

(** [`${workflowName ? `, workflow: ${workflowName}` : ''}`] *)
Definition workflowSuffix (workflowName : option string) : string :=
  match workflowName with
  | Some w => if Js.truthy workflowName then ", workflow: " +:+ w else ""
  | None => ""
  end.

Definition listWorkflowRuns (namespaceName : string) (workflowName : option string)
    : Eff.M () page_t :=
  Eff.log Eff.debug
    ("Fetching workflow runs for namespace: " +:+ namespaceName
     +:+ workflowSuffix workflowName) None;;
  Eff.try_catch
    (res ← Api.await (workflowruns namespaceName);
     if Api.failed res then
       Eff.throw (Js.Error ("Failed to fetch workflow runs: " +:+ Js.show (Api.status res)
                            +:+ " " +:+ Api.statusText res))
     else
       let rawItems := Js.nullish (Api.data res ≫= items) [] in
       let filtered :=
         if Js.truthy workflowName then
           List.filter
             (λ raw,
                bool_decide ((sp ← WorkflowRun.spec (run raw); w ← RunSpec.workflow sp;
                              Some (WorkflowRef.name w)) = workflowName)
                || bool_decide (flatWorkflowName raw = workflowName))
             rawItems
         else rawItems in
       let items := map (λ raw, transformWorkflowRun (run raw)) filtered in
       Eff.log Eff.debug
         ("Successfully fetched " +:+ Js.show (length items)
          +:+ " workflow runs for namespace: " +:+ namespaceName
          +:+ workflowSuffix workflowName) None;;
       mret {| pageItems := items; pagePagination := Api.data res ≫= pagination |})
    (λ error,
      Eff.log Eff.error
        ("Failed to fetch workflow runs for namespace " +:+ namespaceName +:+ ": "
         +:+ Js.text error) None;;
      Eff.throw error).

End Service.
End GenericRuns.

(** ** Vocabulary of the claims about aggregation *)

(** The environments of a list whose composite key is [key], in input order. *)
Definition withKey (key : string) (environments : list Environment.t)
    : list Environment.t :=
  filter (λ env, PlatformEnvironmentInfoService.environmentKey env = key) environments.

(** All groups of a grouping, one after the other. *)
Definition allGroups (groups : gmap string (list Environment.t)) : list Environment.t :=
  concat (map_to_list groups).*2.

(** The sum of all counters of a counting map. *)
Definition totalCount (counts : gmap string nat) : nat :=
  map_fold (λ _ count sum, count + sum) 0 counts.

(** The environment a binding names, when it names one. *)
Definition environmentOf (binding : NewReleaseBinding.t) : option string :=
  match NewReleaseBinding.spec binding ≫= NewReleaseBinding.environment with
  | Some name => if bool_decide (name ≠ "") then Some name else None
  | None => None
  end.

(** The bindings of a component counted under [key]. *)
Definition countedUnder (component : Component.t) (key : string)
    (bindings : list NewReleaseBinding.t) : list NewReleaseBinding.t :=
  filter (λ binding,
    (λ name, Component.namespaceName component +:+ "/" +:+ name) <$> environmentOf binding
    = Some key) bindings.

(** The bindings that name an environment. *)
Definition withEnvironment (bindings : list NewReleaseBinding.t)
    : list NewReleaseBinding.t :=
  filter (λ binding, is_Some (environmentOf binding)) bindings.

(** The requests of a paged listing, in the order of the pages. *)
Fixpoint responses {A} (pages : Api.paged A) : list (Api.outcome (list A)) :=
  match pages with
  | Api.last_page r => [r]
  | Api.next_page r rest => r :: responses rest
  end.

(** The page request is rejected or answered with an error value. *)
Definition broken {A} (res : Api.outcome A) : bool :=
  match res with
  | Api.rejected _ => true
  | Api.resolved r => Api.errored r
  end.

(** The items a page request delivers: it is answered without an error
    value and with data. *)
Definition delivered {A} (res : Api.outcome A) : option A :=
  match res with
  | Api.rejected _ => None
  | Api.resolved r => if Api.errored r then None else Api.data r
  end.

(** What following all pages yields when [page] tells what one page request
    hands to the pager: the first failure, or the items of the pages in
    order, up to a page without data. *)
Fixpoint collectPages {A} (undefinedPage : option Js.thrown)
    (page : Api.outcome (list A) → Js.thrown + option (list A))
    (pages : Api.paged A) : Js.thrown + list A :=
  let ended : Js.thrown + list A :=
    match undefinedPage with
    | Some e => inl e
    | None => inr []
    end in
  match pages with
  | Api.last_page r =>
      match page r with
      | inl e => inl e
      | inr (Some items) => inr items
      | inr None => ended
      end
  | Api.next_page r rest =>
      match page r with
      | inl e => inl e
      | inr (Some items) =>
          match collectPages undefinedPage page rest with
          | inl e => inl e
          | inr more => inr (items ++ more)
          end
      | inr None => ended
      end
  end.

(** What a page callback hands to the pager when it throws [message] for a
    response that [fails] and hands over the data otherwise. *)
Definition handedOver {A} (fails : Api.response A → bool)
    (message : Api.response A → string) (res : Api.outcome A)
    : Js.thrown + option A :=
  match res with
  | Api.rejected e => inl e
  | Api.resolved r => if fails r then inl (Js.Error (message r)) else inr (Api.data r)
  end.

(** The outcome of fetching the bindings of a component. *)
Definition bindingsOf (remote : Remote.t) (component : Component.t)
    : Js.thrown + list NewReleaseBinding.t :=
  Eff.result (Eff.run (PlatformEnvironmentInfoService.fetchBindings remote component) ()).

(** The bindings of the components whose fetch succeeds. *)
Definition fetchedBindings (remote : Remote.t) (component : Component.t)
    : list NewReleaseBinding.t :=
  match bindingsOf remote component with
  | inl _ => []
  | inr bindings => bindings
  end.

(** The ready bindings of a component whose fetch succeeds, none otherwise. *)
Definition readyBindings (lib : ClientNode.t) (remote : Remote.t)
    (component : Component.t) : nat :=
  length (List.filter (λ binding, ClientNode.isReady lib (NewReleaseBinding.obj binding))
            (fetchedBindings remote component)).


(** Environments used as examples. *)
Definition environment (namespaceName name dataPlaneRef : string) : Environment.t :=
  {| Environment.name := name;
     Environment.namespace := namespaceName;
     Environment.displayName := name;
     Environment.description := "";
     Environment.namespaceName := namespaceName;
     Environment.dataPlaneRef := dataPlaneRef;
     Environment.isProduction := false;
     Environment.dnsPrefix := "";
     Environment.createdAt := "";
     Environment.status := "Ready" |}.

Definition sampleEnvironments : list Environment.t :=
  [ environment "acme" "dev" "default";
    environment "globex" "dev" "default";
    environment "acme" "scratch" "";
    environment "acme" "prod" "default" ].

(** ** Vocabulary of the claims about status derivation *)

(** The fields a run record exposes to the derivation, with the defaults the
    code applies to missing parts. *)
Definition completedAtOf (run : WorkflowRun.t) : option string :=
  WorkflowRun.status run ≫= RunStatus.completedAt.
Definition startedAtOf (run : WorkflowRun.t) : option string :=
  WorkflowRun.status run ≫= RunStatus.startedAt.
Definition conditionsOf (run : WorkflowRun.t) : list Condition.t :=
  default [] (WorkflowRun.status run ≫= RunStatus.conditions).
Definition tasksOf (run : WorkflowRun.t) : list Task.t :=
  default [] (WorkflowRun.status run ≫= RunStatus.tasks).

(** A timestamp field is set when it holds a (non-empty) timestamp. *)
Definition isSet (ts : option string) : Prop := ∃ s, ts = Some s ∧ s ≠ "".

(** [c] is the Ready condition of [cs]: the first entry of type "Ready". *)
Definition ReadyCondition (cs : list Condition.t) (c : Condition.t) : Prop :=
  ∃ before after,
    cs = before ++ c :: after
    ∧ Condition.type c = "Ready"
    ∧ Forall (λ c', Condition.type c' ≠ "Ready") before.

Definition NoReadyCondition (cs : list Condition.t) : Prop :=
  Forall (λ c, Condition.type c ≠ "Ready") cs.

Definition AnyFailed (ts : list Task.t) : Prop :=
  Exists (λ t, Task.phase t = Some "Failed" ∨ Task.phase t = Some "Error") ts.

Definition AllSucceeded (ts : list Task.t) : Prop :=
  ts ≠ [] ∧ Forall (λ t, Task.phase t = Some "Succeeded") ts.

Definition AnyRunning (ts : list Task.t) : Prop :=
  Exists (λ t, Task.phase t = Some "Running") ts.

(** The status derivations found in the repository. *)
Definition derivations : list (WorkflowRun.t → string) :=
  [ Transformer.derive;
    WorkflowService.deriveWorkflowRunStatus;
    GenericWorkflowService.deriveWorkflowRunStatus ].

(** ** Run records as JavaScript holds them *)

(** [v] holds the optional string [s]: the string itself, or [undefined] or
    [null] when it is missing. *)
Definition holdsString (v : Js.value) (s : option string) : Prop :=
  match s with
  | Some s => v = Js.Str s
  | None => v = Js.Undefined ∨ v = Js.Null
  end.

(** [v] holds the optional list [xs], element by element. *)
Definition holdsList {A} (holds : Js.value → A → Prop) (v : Js.value)
    (xs : option (list A)) : Prop :=
  match xs with
  | Some xs => ∃ vs, v = Js.Arr vs ∧ Forall2 holds vs xs
  | None => v = Js.Undefined ∨ v = Js.Null
  end.

Definition holdsCondition (v : Js.value) (c : Condition.t) : Prop :=
  ∃ fields,
    v = Js.Obj fields
    ∧ Dyn.field "type" fields = Js.Str (Condition.type c)
    ∧ Dyn.field "status" fields = Js.Str (Condition.status c)
    ∧ holdsString (Dyn.field "reason" fields) (Condition.reason c).

Definition holdsTask (v : Js.value) (t : Task.t) : Prop :=
  ∃ fields, v = Js.Obj fields ∧ holdsString (Dyn.field "phase" fields) (Task.phase t).

Definition holdsStatus (v : Js.value) (status : option RunStatus.t) : Prop :=
  match status with
  | Some st =>
      ∃ fields,
        v = Js.Obj fields
        ∧ holdsString (Dyn.field "completedAt" fields) (RunStatus.completedAt st)
        ∧ holdsString (Dyn.field "startedAt" fields) (RunStatus.startedAt st)
        ∧ holdsList holdsCondition (Dyn.field "conditions" fields) (RunStatus.conditions st)
        ∧ holdsList holdsTask (Dyn.field "tasks" fields) (RunStatus.tasks st)
  | None => v = Js.Undefined ∨ v = Js.Null
  end.

(** [v] is a well-typed run record, and [run] is what it says: every part
    the derivation reads is missing ([undefined], [null] or not there) or of
    its type; what else the object carries does not matter. *)
Definition holdsRun (v : Js.value) (run : WorkflowRun.t) : Prop :=
  ∃ fields, v = Js.Obj fields ∧ holdsStatus (Dyn.field "status" fields) (WorkflowRun.status run).

(** The plain object for a run record: missing parts are left out. *)
Definition optionalField {A} (name : string) (value : A → Js.value) (x : option A)
    : list (string * Js.value) :=
  match x with
  | Some a => [(name, value a)]
  | None => []
  end.

Definition conditionObject (c : Condition.t) : Js.value :=
  Js.Obj ([("type", Js.Str (Condition.type c)); ("status", Js.Str (Condition.status c))]
          ++ optionalField "reason" Js.Str (Condition.reason c)).

Definition taskObject (t : Task.t) : Js.value :=
  Js.Obj (optionalField "phase" Js.Str (Task.phase t)
          ++ optionalField "completedAt" Js.Str (Task.completedAt t)).

Definition statusObject (st : RunStatus.t) : Js.value :=
  Js.Obj (optionalField "completedAt" Js.Str (RunStatus.completedAt st)
          ++ optionalField "startedAt" Js.Str (RunStatus.startedAt st)
          ++ optionalField "conditions" (λ cs, Js.Arr (conditionObject <$> cs))
               (RunStatus.conditions st)
          ++ optionalField "tasks" (λ ts, Js.Arr (taskObject <$> ts)) (RunStatus.tasks st)).

Definition runObject (run : WorkflowRun.t) : Js.value :=
  Js.Obj (optionalField "status" statusObject (WorkflowRun.status run)).

(** Values that are not run records. *)
Definition conditionsNotAList : Js.value :=
  Js.Obj [("status", Js.Obj [("conditions", Js.Num 5)])].

Definition numericReason : Js.value :=
  Js.Obj [("status",
           Js.Obj [("conditions",
                    Js.Arr [Js.Obj [("type", Js.Str "Ready"); ("reason", Js.Num 42)]])])].

(** Records used as examples. *)
Definition mkRun (st : RunStatus.t) : WorkflowRun.t :=
  {| WorkflowRun.metadata := None; WorkflowRun.spec := None; WorkflowRun.status := Some st |}.

Definition task (p : string) : Task.t :=
  {| Task.phase := Some p; Task.completedAt := None |}.

Definition ready (st : string) (r : option string) : Condition.t :=
  {| Condition.type := "Ready"; Condition.status := st; Condition.reason := r |}.

(** Completed run whose Ready condition still says "Running". *)
Definition staleRunningRun : WorkflowRun.t :=
  mkRun {| RunStatus.completedAt := Some "2024-01-01T00:00:00Z";
           RunStatus.startedAt := None;
           RunStatus.conditions := Some [ready "False" (Some "Running")];
           RunStatus.tasks := Some [task "Succeeded"] |}.

(** Completed run whose Ready condition carries the empty reason. *)
Definition emptyReasonCompletedRun : WorkflowRun.t :=
  mkRun {| RunStatus.completedAt := Some "2024-01-01T00:00:00Z";
           RunStatus.startedAt := None;
           RunStatus.conditions := Some [ready "True" (Some "")];
           RunStatus.tasks := Some [task "Succeeded"] |}.

(** Run in progress whose Ready condition carries the empty reason. *)
Definition emptyReasonOpenRun : WorkflowRun.t :=
  mkRun {| RunStatus.completedAt := None;
           RunStatus.startedAt := Some "2024-01-01T00:00:00Z";
           RunStatus.conditions := Some [ready "False" (Some "")];
           RunStatus.tasks := Some [task "Running"] |}.

Definition cancelledRun : WorkflowRun.t :=
  mkRun {| RunStatus.completedAt := Some "2024-01-01T00:00:00Z";
           RunStatus.startedAt := None;
           RunStatus.conditions := Some [ready "False" (Some "Cancelled")];
           RunStatus.tasks := Some [task "Succeeded"] |}.

Definition pendingConditionRun : WorkflowRun.t :=
  mkRun {| RunStatus.completedAt := None;
           RunStatus.startedAt := None;
           RunStatus.conditions := Some [ready "False" (Some "Pending")];
           RunStatus.tasks := Some [] |}.

Definition blankRun : WorkflowRun.t :=
  {| WorkflowRun.metadata := None; WorkflowRun.spec := None; WorkflowRun.status := None |}.

Definition startedRun : WorkflowRun.t :=
  mkRun {| RunStatus.completedAt := None;
           RunStatus.startedAt := Some "2024-01-01T00:00:00Z";
           RunStatus.conditions := None;
           RunStatus.tasks := Some [task "Pending"] |}.

(** Bindings and components used as examples. *)
Definition k8s (name : string) : K8s.t :=
  {| K8s.metadata :=
       {| Metadata.name := Some name; Metadata.uid := None; Metadata.namespace := None;
          Metadata.creationTimestamp := None; Metadata.labels := None;
          Metadata.annotations := None |};
     K8s.conditions := [] |}.

Definition readyK8s (name : string) : K8s.t :=
  {| K8s.metadata := K8s.metadata (k8s name);
     K8s.conditions := [ready "True" None] |}.

Definition bindingTo (name environment : string) : NewReleaseBinding.t :=
  {| NewReleaseBinding.obj := readyK8s name;
     NewReleaseBinding.spec := Some {| NewReleaseBinding.environment := Some environment |} |}.

Definition bindingNowhere (name : string) : NewReleaseBinding.t :=
  {| NewReleaseBinding.obj := readyK8s name;
     NewReleaseBinding.spec := Some {| NewReleaseBinding.environment := None |} |}.

Definition component (namespaceName componentName : string) : Component.t :=
  {| Component.namespaceName := namespaceName;
     Component.projectName := "shop";
     Component.componentName := componentName |}.

(** A loop body that records the components of a batch in the order in
    which their callbacks complete. *)
Definition recordSettled (order : nat → list nat) (i : nat) (batch : list Component.t)
    : Eff.M (list Component.t) unit :=
  Eff.modify (λ seen, seen ++ Eff.settled (order i) batch).

(** The components in the order in which the callbacks of a batched method
    complete: batch after batch, and within a batch as its requests are
    answered. *)
Definition completionOrder (remote : Remote.t) (method : string)
    (components : list Component.t) : list Component.t :=
  (Eff.run (PlatformEnvironmentInfoService.forBatches (length components) 0 components
              (recordSettled (Remote.settleOrder remote method))) []).2.2.

(** Whether fetching the bindings of a component succeeds. *)
Definition fetchSucceeds (remote : Remote.t) (component : Component.t) : bool :=
  match bindingsOf remote component with
  | inl _ => false
  | inr _ => true
  end.

(** The warning logged for a component whose fetch fails. *)
Definition warningOf (remote : Remote.t) (component : Component.t) : option Eff.entry :=
  match bindingsOf remote component with
  | inl e =>
      Some {| Eff.lvl := Eff.warn;
              Eff.message :=
                "Failed to fetch bindings for component "
                +:+ Component.namespaceName component +:+ "/"
                +:+ Component.projectName component +:+ "/"
                +:+ Component.componentName component +:+ ":";
              Eff.cause := Some (Js.asError e) |}
  | inr _ => None
  end.

(** The counting map after the bindings of the given components, fetched
    successfully, have been accumulated into [counts]. *)
Definition accumulated (remote : Remote.t) (counts : gmap string nat)
    (components : list Component.t) : gmap string nat :=
  foldl (λ counts component,
           foldl (PlatformEnvironmentInfoService.countBinding component) counts
             (fetchedBindings remote component))
    counts components.

(** What a batch callback does to the log and to the local accumulator. *)
Definition warned (remote : Remote.t) (es : list Eff.entry) (c : Component.t)
    : list Eff.entry :=
  es ++ option_list (warningOf remote c).

Definition countStep (remote : Remote.t) (c : Component.t)
    (s : list Eff.entry * gmap string nat) : list Eff.entry * gmap string nat :=
  (warned remote s.1 c,
   foldl (PlatformEnvironmentInfoService.countBinding c) s.2 (fetchedBindings remote c)).

Definition healthyStep (lib : ClientNode.t) (remote : Remote.t) (c : Component.t)
    (s : list Eff.entry * nat) : list Eff.entry * nat :=
  (warned remote s.1 c, s.2 + readyBindings lib remote c).

(** A stand-in for the client library helpers, for the examples. *)
Definition sampleLib : ClientNode.t :=
  {| ClientNode.getName := λ o, Metadata.name (K8s.metadata o);
     ClientNode.getNamespace := λ o, Metadata.namespace (K8s.metadata o);
     ClientNode.getDisplayName := λ _, None;
     ClientNode.getDescription := λ _, None;
     ClientNode.getCreatedAt := λ o, Metadata.creationTimestamp (K8s.metadata o);
     ClientNode.isReady := λ o,
       existsb (λ c, isReadyType c && bool_decide (Condition.status c = "True"))
         (K8s.conditions o) |}.

Definition okResponse {A} (items : A) : Api.outcome A :=
  Api.resolved {| Api.data := Some items; Api.error := None; Api.ok := true;
                  Api.status := 200; Api.statusText := "OK" |}.

Definition errorResponse {A} (status : nat) (statusText : string) : Api.outcome A :=
  Api.resolved {| Api.data := None; Api.error := Some (Js.Str statusText); Api.ok := false;
                  Api.status := status; Api.statusText := statusText |}.

Definition plainDataPlane (name : string) : NewDataPlane.t :=
  {| NewDataPlane.obj := readyK8s name; NewDataPlane.spec := None |}.

(** A remote with two namespaces; the data planes of "globex" cannot be
    fetched, and neither can the bindings of the component "search". *)
Definition sampleRemote : Remote.t :=
  {| Remote.namespaces := okResponse [k8s "acme"; k8s "globex"];
     Remote.environments := λ _, okResponse [];
     Remote.dataplanes := λ namespaceName,
       if bool_decide (namespaceName = "globex")
       then Api.rejected (Js.ErrorObject "TypeError" "fetch failed")
       else okResponse [plainDataPlane "default"];
     Remote.dataplanePages := λ namespaceName,
       if bool_decide (namespaceName = "globex")
       then Api.next_page (okResponse [plainDataPlane "default"])
              (Api.last_page (errorResponse 503 "Service Unavailable"))
       else Api.next_page (okResponse [plainDataPlane "default"])
              (Api.last_page (okResponse [plainDataPlane "edge"]));
     Remote.releasebindingPages := λ namespaceName componentName,
       if bool_decide (componentName = "search")
       then Api.last_page (errorResponse 500 "Internal Server Error")
       else Api.next_page (okResponse [bindingTo componentName "dev"])
              (Api.last_page (okResponse [bindingTo componentName "prod";
                                          bindingNowhere componentName]));
     Remote.totalTime := 12;
     Remote.undefinedPage :=
       Some (Js.ErrorObject "TypeError"
               "Cannot read properties of undefined (reading 'items')");
     Remote.settleOrder := λ _ _, [3; 0; 2] |}.



Definition sampleComponents : list Component.t :=
  component "acme" <$>
    ["cart"; "search"; "pay"; "mail"; "auth"; "feed"; "chat"; "maps"; "ads"; "logs";
     "docs"; "jobs"].

(** ** Vocabulary of the further properties *)

(** A loop body that only records the batch it is given. *)
Definition recordBatch (batch : list Component.t)
    : Eff.M (list (list Component.t)) unit :=
  Eff.modify (λ seen, seen ++ [batch]).

(** The batches the loop of the aggregation methods hands to its body. *)
Definition batchesOf (components : list Component.t) : list (list Component.t) :=
  (Eff.run (PlatformEnvironmentInfoService.forBatches (length components) 0 components
              (λ _, recordBatch)) []).2.2.

(** What a platform-wide method returns, [] standing in for a thrown error. *)
Definition returned {σ A} (r : (Js.thrown + list A) * (list Eff.entry * σ)) : list A :=
  match Eff.result r with
  | inl _ => []
  | inr items => items
  end.

(** The namespace names, environments and data planes the platform-wide
    listings deliver for a remote. *)
Definition platformNamespaces (lib : ClientNode.t) (remote : Remote.t) : list string :=
  returned (Eff.run (PlatformEnvironmentInfoService.fetchNamespaceNames lib remote) ()).

Definition platformEnvironments (lib : ClientNode.t) (remote : Remote.t)
    : list Environment.t :=
  returned (Eff.run (PlatformEnvironmentInfoService.fetchAllEnvironments lib remote) ()).

Definition platformDataplanes (lib : ClientNode.t) (remote : Remote.t)
    : list DataPlane.t :=
  returned (Eff.run (PlatformEnvironmentInfoService.fetchAllDataplanes lib remote) ()).

(** The environments and data planes one namespace contributes. *)
Definition environmentsIn (lib : ClientNode.t) (remote : Remote.t)
    (namespaceName : string) : list Environment.t :=
  returned (Eff.run (PlatformEnvironmentInfoService.fetchEnvironmentsByNamespace
                       lib remote namespaceName) ()).

Definition dataplanesIn (lib : ClientNode.t) (remote : Remote.t)
    (namespaceName : string) : list DataPlane.t :=
  returned (Eff.run (PlatformEnvironmentInfoService.fetchDataplanesByNamespace
                       lib remote namespaceName) ()).

(** The string contains no "/". *)
Definition slashFree (s : string) : Prop :=
  ∀ before after, s ≠ before +:+ "/" +:+ after.

(** The same, as a test. *)
Fixpoint noSlash (s : string) : bool :=
  match s with
  | EmptyString => true
  | String c rest => negb (bool_decide (String c "" = "/")) && noSlash rest
  end.

(** Whether the existence probe finds a binding for the component. *)
Definition deployed (probe : string → string → Api.outcome (list NewReleaseBinding.t))
    (component : Component.t) : bool :=
  match probe (Component.namespaceName component) (Component.componentName component) with
  | Api.rejected _ => false
  | Api.resolved res => PlatformEnvironmentInfoService.hasBinding res
  end.

(** Whether the existence probe of the component is rejected. *)
Definition probeRejected (probe : string → string → Api.outcome (list NewReleaseBinding.t))
    (component : Component.t) : bool :=
  match probe (Component.namespaceName component) (Component.componentName component) with
  | Api.rejected _ => true
  | Api.resolved _ => false
  end.

(** The warning logged for a component whose existence probe is rejected. *)
Definition probeWarning (probe : string → string → Api.outcome (list NewReleaseBinding.t))
    (component : Component.t) : option Eff.entry :=
  match probe (Component.namespaceName component) (Component.componentName component) with
  | Api.rejected e =>
      Some {| Eff.lvl := Eff.warn;
              Eff.message :=
                "Failed to fetch bindings for component "
                +:+ Component.namespaceName component +:+ "/"
                +:+ Component.projectName component +:+ "/"
                +:+ Component.componentName component +:+ ":";
              Eff.cause := Some (Js.asError e) |}
  | Api.resolved _ => None
  end.

(** What a callback of fetchDistinctDeployedComponentsCount does to the log
    and to the set. *)
Definition probeStep (probe : string → string → Api.outcome (list NewReleaseBinding.t))
    (c : Component.t) (s : list Eff.entry * gset string) : list Eff.entry * gset string :=
  (s.1 ++ option_list (probeWarning probe c),
   if deployed probe c
   then s.2 ∪ {[PlatformEnvironmentInfoService.componentKey c]} else s.2).

(** A data plane and an environment used as examples. *)
Definition dataPlaneNamed (namespaceName name : string) : DataPlane.t :=
  {| DataPlane.name := name; DataPlane.namespace := Some namespaceName;
     DataPlane.displayName := None; DataPlane.description := None;
     DataPlane.namespaceName := namespaceName; DataPlane.imagePullSecretRefs := None;
     DataPlane.secretStoreRef := None; DataPlane.publicVirtualHost := None;
     DataPlane.namespaceVirtualHost := None; DataPlane.publicHTTPPort := None;
     DataPlane.publicHTTPSPort := None; DataPlane.namespaceHTTPPort := None;
     DataPlane.namespaceHTTPSPort := None; DataPlane.observabilityPlaneRef := None;
     DataPlane.createdAt := None; DataPlane.status := "Ready" |}.



(** The run carries the labels of the component and of the project. *)
Definition belongsTo (projectName componentName : string) (run : WorkflowRun.t) : Prop :=
  labelOf "openchoreo.dev/component" run = Some componentName
  ∧ labelOf "openchoreo.dev/project" run = Some projectName.

(** Runs and a remote used as examples. *)
Definition labelledRun (name componentName projectName : string) : WorkflowRun.t :=
  {| WorkflowRun.metadata :=
       Some {| Metadata.name := Some name; Metadata.uid := None;
               Metadata.namespace := Some "acme"; Metadata.creationTimestamp := None;
               Metadata.labels :=
                 Some (<["openchoreo.dev/component" := componentName]>
                         (<["openchoreo.dev/project" := projectName]> ∅));
               Metadata.annotations := None |};
     WorkflowRun.spec := None;
     WorkflowRun.status := None |}.

Definition sampleRuns : RunsApi.t :=
  {| RunsApi.workflowrunPages := λ _,
       Api.next_page (okResponse [labelledRun "r1" "cart" "shop"; blankRun])
         (Api.last_page (okResponse [labelledRun "r2" "pay" "shop";
                                     labelledRun "r3" "cart" "blog"]));
     RunsApi.workflowrun := λ _ runName,
       if bool_decide (runName = "r1") then okResponse (labelledRun "r1" "cart" "shop")
       else if bool_decide (runName = "r0") then okResponse blankRun
       else errorResponse 404 "Not Found";
     RunsApi.undefinedPage := None |}.

(* ===================================================================== *)
(** * Properties *)
(* ===================================================================== *)

(** ** Reflection of the boolean tests *)

Section Reflection.

Lemma truthy_isSet (v : option string) : Js.truthy v = true ↔ isSet v.
Proof.
  unfold Js.truthy, isSet. destruct v as [s|].
  - rewrite bool_decide_eq_true. split; [eauto | intros (s' & [= <-] & ?); done].
  - split; [done | intros (? & ? & ?); done].
Qed.

Lemma truthy_not_isSet (v : option string) : Js.truthy v = false ↔ ¬ isSet v.
Proof. rewrite <- truthy_isSet. destruct (Js.truthy v); naive_solver. Qed.

Lemma failed_reflect (ts : list Task.t) :
  existsb failedOrError ts = true ↔ AnyFailed ts.
Proof.
  unfold AnyFailed. rewrite existsb_exists, Exists_exists.
  setoid_rewrite <- list_elem_of_In. unfold failedOrError.
  setoid_rewrite orb_true_iff. setoid_rewrite bool_decide_eq_true. done.
Qed.

Lemma not_failed_reflect (ts : list Task.t) :
  existsb failedOrError ts = false ↔ ¬ AnyFailed ts.
Proof. rewrite <- failed_reflect. destruct (existsb _ _); naive_solver. Qed.

Lemma running_reflect (ts : list Task.t) :
  existsb (phaseIs "Running") ts = true ↔ AnyRunning ts.
Proof.
  unfold AnyRunning. rewrite existsb_exists, Exists_exists.
  setoid_rewrite <- list_elem_of_In. unfold phaseIs.
  setoid_rewrite bool_decide_eq_true. done.
Qed.

Lemma succeeded_reflect (ts : list Task.t) :
  bool_decide (0 < length ts) && forallb (phaseIs "Succeeded") ts = true
  ↔ AllSucceeded ts.
Proof.
  unfold AllSucceeded. rewrite andb_true_iff, bool_decide_eq_true.
  rewrite forallb_forall, Forall_forall. setoid_rewrite <- list_elem_of_In.
  unfold phaseIs. setoid_rewrite bool_decide_eq_true.
  destruct ts; simpl; split; intros [? ?]; split; try done; lia.
Qed.

Lemma find_ready_Some (cs : list Condition.t) (c : Condition.t) :
  List.find isReadyType cs = Some c ↔ ReadyCondition cs c.
Proof.
  unfold ReadyCondition. induction cs as [|d cs IH]; simpl.
  - split; [done | intros ([|??] & ? & ? & _); done].
  - unfold isReadyType at 1. case_bool_decide as Hd.
    + split.
      * intros [= ->]. exists [], cs. done.
      * intros ([|d' before] & after & Heq & Hc & Hall); simplify_eq/=; [done|].
        by inversion Hall.
    + rewrite IH. split.
      * intros (before & after & -> & Hc & Hall).
        exists (d :: before), after. split_and!; [done | done | by constructor].
      * intros ([|d' before] & after & Heq & Hc & Hall); simplify_eq/=.
        exists before, after. split_and!; [done | done | by inversion Hall].
Qed.

Lemma find_ready_None (cs : list Condition.t) :
  List.find isReadyType cs = None ↔ NoReadyCondition cs.
Proof.
  unfold NoReadyCondition. induction cs as [|d cs IH]; simpl.
  - split; [constructor | done].
  - unfold isReadyType at 1. case_bool_decide as Hd.
    + split; [done | by inversion 1].
    + rewrite IH. split; [by constructor | by inversion 1].
Qed.

Lemma ReadyCondition_unique cs c c' :
  ReadyCondition cs c → ReadyCondition cs c' → c = c'.
Proof. rewrite <- !find_ready_Some. congruence. Qed.

Lemma ReadyCondition_not_none cs c :
  ReadyCondition cs c → ¬ NoReadyCondition cs.
Proof. rewrite <- find_ready_Some, <- find_ready_None. congruence. Qed.

End Reflection.

(** ** The copies of the derivation agree *)

Lemma transformer_ready_lookup (run : WorkflowRun.t) :
  (st ← WorkflowRun.status run; cs ← RunStatus.conditions st; List.find isReadyType cs)
  = List.find isReadyType (conditionsOf run).
Proof.
  unfold conditionsOf. destruct (WorkflowRun.status run) as [st|]; simpl; [|done].
  by destruct (RunStatus.conditions st).
Qed.

Lemma ci_agrees (run : WorkflowRun.t) :
  WorkflowService.deriveWorkflowRunStatus run = Transformer.derive run.
Proof.
  unfold WorkflowService.deriveWorkflowRunStatus, Transformer.derive.
  rewrite transformer_ready_lookup. unfold conditionsOf, Js.nullish.
  by rewrite (andb_comm (forallb _ _)).
Qed.

Lemma generic_agrees (run : WorkflowRun.t) :
  GenericWorkflowService.deriveWorkflowRunStatus run = Transformer.derive run.
Proof.
  unfold GenericWorkflowService.deriveWorkflowRunStatus, Transformer.derive.
  rewrite transformer_ready_lookup. unfold conditionsOf, Js.nullish.
  by rewrite (andb_comm (forallb _ _)).
Qed.

Lemma derivations_agree (derive : WorkflowRun.t → string) (run : WorkflowRun.t) :
  derive ∈ derivations → derive run = Transformer.derive run.
Proof.
  unfold derivations. rewrite !elem_of_cons, elem_of_nil.
  intros [-> | [-> | [-> | []]]]; [done | apply ci_agrees | apply generic_agrees].
Qed.

(** The derivation as a decision list over the vocabulary of the claims. *)
Lemma derive_unfold (run : WorkflowRun.t) :
  Transformer.derive run =
    if Js.truthy (completedAtOf run) then
      if existsb failedOrError (tasksOf run) then "Failed"
      else match List.find isReadyType (conditionsOf run) ≫= Condition.reason with
           | Some r =>
               if bool_decide (r ≠ "") && bool_decide (r ≠ "Running")
                  && bool_decide (r ≠ "Pending")
               then r else "Succeeded"
           | None => "Succeeded"
           end
    else
      match List.find isReadyType (conditionsOf run) with
      | Some rc =>
          match Condition.reason rc with
          | Some r =>
              if bool_decide (r ≠ "") then r
              else if bool_decide (Condition.status rc = "True") then "Succeeded"
                   else "Running"
          | None =>
              if bool_decide (Condition.status rc = "True") then "Succeeded" else "Running"
          end
      | None =>
          if existsb failedOrError (tasksOf run) then "Failed"
          else if bool_decide (0 < length (tasksOf run))
                  && forallb (phaseIs "Succeeded") (tasksOf run)
          then "Succeeded"
          else if existsb (phaseIs "Running") (tasksOf run) then "Running"
          else if Js.truthy (startedAtOf run) then "Running"
          else "Pending"
      end.
Proof.
  unfold Transformer.derive. rewrite transformer_ready_lookup.
  fold (completedAtOf run) (startedAtOf run). change (Js.nullish _ []) with (tasksOf run).
  destruct (Js.truthy (completedAtOf run)).
  - destruct (existsb _ _); [done|].
    destruct (List.find _ _ ≫= _) as [r|] eqn:Hr; [|done].
    unfold terminalReason. simpl.
    repeat case_bool_decide; simpl; congruence.
  - destruct (List.find _ _) as [rc|]; [|done].
    unfold Js.or_else, Js.truthy. by destruct (Condition.reason rc).
Qed.

Ltac on_transformer Hd :=
  rewrite ?(derivations_agree _ _ Hd), ?derive_unfold.

Ltac in_list :=
  repeat first [ apply list_elem_of_here | apply list_elem_of_further ].

Ltac decide_tests :=
  repeat case_bool_decide; simplify_eq/=; try first [ done | naive_solver ].

(** The label is never the empty string. *)
Lemma derive_nonempty (run : WorkflowRun.t) : Transformer.derive run ≠ "".
Proof.
  rewrite derive_unfold.
  repeat first [ case_match | case_bool_decide ]; simplify_eq/=; try done.
  all: naive_solver.
Qed.

(** ** Completed runs (rule 1) *)

(** C1, as amended: for every run record whose completedAt holds a
    (non-empty) timestamp, every derivation returns "Failed" if some task has
    phase "Failed" or "Error", whatever the conditions are; otherwise it
    returns the reason of the Ready condition verbatim when that reason is
    present, is not the empty string and is neither "Running" nor "Pending";
    otherwise it returns "Succeeded".  A completed record whose Ready
    condition says "Running" and whose tasks all succeeded yields
    "Succeeded". *)
Theorem completed_status (derive : WorkflowRun.t → string) (run : WorkflowRun.t) :
  derive ∈ derivations →
  isSet (completedAtOf run) →
  (AnyFailed (tasksOf run) → derive run = "Failed")
  ∧ (¬ AnyFailed (tasksOf run) →
     ∀ c r, ReadyCondition (conditionsOf run) c → Condition.reason c = Some r →
            r ≠ "" → r ≠ "Running" → r ≠ "Pending" → derive run = r)
  ∧ (¬ AnyFailed (tasksOf run) →
     (NoReadyCondition (conditionsOf run)
      ∨ ∃ c, ReadyCondition (conditionsOf run) c
             ∧ Condition.reason c ∈ [None; Some ""; Some "Running"; Some "Pending"]) →
     derive run = "Succeeded")
  ∧ derive staleRunningRun = "Succeeded".
Proof.
  intros Hd Hset%truthy_isSet. on_transformer Hd. rewrite Hset. split_and!.
  - intros Hf%failed_reflect. by rewrite Hf.
  - intros Hnf%not_failed_reflect c r Hc%find_ready_Some Hr Hne Hrun Hpen.
    rewrite Hnf, Hc. simpl. rewrite Hr. decide_tests.
  - intros Hnf%not_failed_reflect [Hnone%find_ready_None | (c & Hc%find_ready_Some & Hr)];
      rewrite Hnf.
    + by rewrite Hnone.
    + rewrite Hc. simpl. rewrite !elem_of_cons, elem_of_nil in Hr.
      destruct Hr as [-> | [-> | [-> | [-> | []]]]]; done.
  - done.
Qed.

Lemma completed_status_witness :
  Transformer.derive ∈ derivations
  ∧ isSet (completedAtOf cancelledRun)
  ∧ ¬ AnyFailed (tasksOf cancelledRun)
  ∧ ReadyCondition (conditionsOf cancelledRun) (ready "False" (Some "Cancelled"))
  ∧ Transformer.derive cancelledRun = "Cancelled".
Proof.
  assert (Hd : Transformer.derive ∈ derivations) by (unfold derivations; in_list).
  assert (Hs : isSet (completedAtOf cancelledRun)) by (eexists; split; [reflexivity | done]).
  assert (Hf : ¬ AnyFailed (tasksOf cancelledRun))
    by (apply not_failed_reflect; reflexivity).
  assert (Hc : ReadyCondition (conditionsOf cancelledRun) (ready "False" (Some "Cancelled")))
    by (apply find_ready_Some; reflexivity).
  split_and!; try assumption.
  apply (proj1 (proj2 (completed_status Transformer.derive cancelledRun Hd Hs))
           Hf (ready "False" (Some "Cancelled")) "Cancelled" Hc); done.
Defined.

(** C1 as stated fails: the record below is completed, has no failed task,
    and its Ready condition carries a reason that is present and is neither
    "Running" nor "Pending" (the empty string); the claim asks for that reason
    verbatim, every derivation answers "Succeeded". *)
Lemma completed_status_empty_reason :
  isSet (completedAtOf emptyReasonCompletedRun)
  ∧ ¬ AnyFailed (tasksOf emptyReasonCompletedRun)
  ∧ ReadyCondition (conditionsOf emptyReasonCompletedRun) (ready "True" (Some ""))
  ∧ Condition.reason (ready "True" (Some "")) = Some ""
  ∧ "" ≠ "Running" ∧ "" ≠ "Pending"
  ∧ Transformer.derive emptyReasonCompletedRun ≠ ""
  ∧ Transformer.derive emptyReasonCompletedRun = "Succeeded"
  ∧ WorkflowService.deriveWorkflowRunStatus emptyReasonCompletedRun = "Succeeded".
Proof.
  split_and!; try done.
  - eexists; split; [reflexivity | done].
  - apply not_failed_reflect; reflexivity.
  - apply find_ready_Some; reflexivity.
Qed.

(** ** Runs in progress with a Ready condition (rule 2) *)

(** C2, as amended: for every run record without completedAt that has a
    Ready condition, every derivation returns that condition's reason when
    it is present and not the empty string; otherwise "Succeeded" when the
    condition's status is "True" and "Running" otherwise.  Tasks and
    startedAt play no part: two such records with the same Ready condition
    get the same label. *)
Theorem ready_condition_status
    (derive : WorkflowRun.t → string) (run : WorkflowRun.t) (c : Condition.t) :
  derive ∈ derivations →
  ¬ isSet (completedAtOf run) →
  ReadyCondition (conditionsOf run) c →
  (∀ r, Condition.reason c = Some r → r ≠ "" → derive run = r)
  ∧ (Condition.reason c = None ∨ Condition.reason c = Some "" →
     (Condition.status c = "True" → derive run = "Succeeded")
     ∧ (Condition.status c ≠ "True" → derive run = "Running"))
  ∧ (∀ run', ¬ isSet (completedAtOf run') → ReadyCondition (conditionsOf run') c →
             derive run' = derive run).
Proof.
  intros Hd Hset%truthy_not_isSet Hc%find_ready_Some. on_transformer Hd.
  rewrite Hset, Hc. split_and!.
  - intros r -> Hne. decide_tests.
  - intros [-> | ->]; split; intros Hst; decide_tests.
  - intros run' Hset'%truthy_not_isSet Hc'%find_ready_Some. on_transformer Hd.
    by rewrite Hset', Hc'.
Qed.

Lemma ready_condition_status_witness :
  WorkflowService.deriveWorkflowRunStatus ∈ derivations
  ∧ ¬ isSet (completedAtOf pendingConditionRun)
  ∧ ReadyCondition (conditionsOf pendingConditionRun) (ready "False" (Some "Pending"))
  ∧ WorkflowService.deriveWorkflowRunStatus pendingConditionRun = "Pending".
Proof.
  assert (Hd : WorkflowService.deriveWorkflowRunStatus ∈ derivations)
    by (unfold derivations; in_list).
  assert (Hs : ¬ isSet (completedAtOf pendingConditionRun))
    by (apply truthy_not_isSet; reflexivity).
  assert (Hc : ReadyCondition (conditionsOf pendingConditionRun)
                 (ready "False" (Some "Pending")))
    by (apply find_ready_Some; reflexivity).
  split_and!; try assumption.
  apply (proj1 (ready_condition_status _ pendingConditionRun _ Hd Hs Hc) "Pending"); done.
Defined.

(** C2 as stated fails: the record below has no completedAt and a Ready
    condition whose reason is present (the empty string); the claim asks for
    that reason, every derivation answers "Running". *)
Lemma ready_condition_empty_reason :
  ¬ isSet (completedAtOf emptyReasonOpenRun)
  ∧ completedAtOf emptyReasonOpenRun = None
  ∧ ReadyCondition (conditionsOf emptyReasonOpenRun) (ready "False" (Some ""))
  ∧ Condition.reason (ready "False" (Some "")) = Some ""
  ∧ Transformer.derive emptyReasonOpenRun ≠ ""
  ∧ Transformer.derive emptyReasonOpenRun = "Running"
  ∧ WorkflowService.deriveWorkflowRunStatus emptyReasonOpenRun = "Running".
Proof.
  split_and!; try done.
  - apply truthy_not_isSet; reflexivity.
  - apply find_ready_Some; reflexivity.
Qed.

(** ** Runs without completedAt and without Ready condition (rule 3) *)

(** C3: for every run record without completedAt and without a Ready
    condition, every derivation applies the fallback rules in order:
    "Failed" if a task has phase "Failed" or "Error"; else "Succeeded" if
    there is at least one task and all have phase "Succeeded"; else
    "Running" if a task has phase "Running"; else "Running" if startedAt is
    set; else "Pending".  A record with nothing in it yields "Pending". *)
Theorem fallback_status (derive : WorkflowRun.t → string) (run : WorkflowRun.t) :
  derive ∈ derivations →
  ¬ isSet (completedAtOf run) →
  NoReadyCondition (conditionsOf run) →
  (AnyFailed (tasksOf run) → derive run = "Failed")
  ∧ (¬ AnyFailed (tasksOf run) → AllSucceeded (tasksOf run) → derive run = "Succeeded")
  ∧ (¬ AnyFailed (tasksOf run) → ¬ AllSucceeded (tasksOf run) →
     AnyRunning (tasksOf run) → derive run = "Running")
  ∧ (¬ AnyFailed (tasksOf run) → ¬ AllSucceeded (tasksOf run) →
     ¬ AnyRunning (tasksOf run) → isSet (startedAtOf run) → derive run = "Running")
  ∧ (¬ AnyFailed (tasksOf run) → ¬ AllSucceeded (tasksOf run) →
     ¬ AnyRunning (tasksOf run) → ¬ isSet (startedAtOf run) → derive run = "Pending")
  ∧ (conditionsOf run = [] → tasksOf run = [] → ¬ isSet (startedAtOf run) →
     derive run = "Pending").
Proof.
  intros Hd Hset%truthy_not_isSet Hnone%find_ready_None. on_transformer Hd.
  rewrite Hset, Hnone.
  destruct (existsb failedOrError (tasksOf run)) eqn:Hf;
    [apply failed_reflect in Hf | apply not_failed_reflect in Hf].
  { split_and!; try done. intros _ Ht. rewrite Ht in Hf. by inversion Hf. }
  destruct (bool_decide _ && forallb _ _) eqn:Hs.
  { apply succeeded_reflect in Hs. split_and!; try done.
    intros _ Ht. rewrite Ht in Hs. by destruct Hs. }
  assert (¬ AllSucceeded (tasksOf run)) as Hns.
  { rewrite <- succeeded_reflect. by rewrite Hs. }
  destruct (existsb (phaseIs "Running") (tasksOf run)) eqn:Hr.
  { apply running_reflect in Hr. split_and!; try done.
    intros _ Ht. rewrite Ht in Hr. by inversion Hr. }
  assert (¬ AnyRunning (tasksOf run)) as Hnr.
  { rewrite <- running_reflect. by rewrite Hr. }
  destruct (Js.truthy (startedAtOf run)) eqn:Hst;
    [apply truthy_isSet in Hst | apply truthy_not_isSet in Hst];
    split_and!; done.
Qed.

Lemma fallback_status_witness :
  GenericWorkflowService.deriveWorkflowRunStatus ∈ derivations
  ∧ ¬ isSet (completedAtOf startedRun)
  ∧ NoReadyCondition (conditionsOf startedRun)
  ∧ ¬ AnyFailed (tasksOf startedRun)
  ∧ ¬ AllSucceeded (tasksOf startedRun)
  ∧ ¬ AnyRunning (tasksOf startedRun)
  ∧ isSet (startedAtOf startedRun)
  ∧ GenericWorkflowService.deriveWorkflowRunStatus startedRun = "Running".
Proof.
  assert (Hd : GenericWorkflowService.deriveWorkflowRunStatus ∈ derivations)
    by (unfold derivations; in_list).
  assert (Hs : ¬ isSet (completedAtOf startedRun))
    by (apply truthy_not_isSet; reflexivity).
  assert (Hc : NoReadyCondition (conditionsOf startedRun))
    by (apply find_ready_None; reflexivity).
  assert (Hf : ¬ AnyFailed (tasksOf startedRun))
    by (apply not_failed_reflect; reflexivity).
  assert (Ha : ¬ AllSucceeded (tasksOf startedRun))
    by (rewrite <- succeeded_reflect; simpl; done).
  assert (Hr : ¬ AnyRunning (tasksOf startedRun))
    by (rewrite <- running_reflect; simpl; done).
  assert (Ht : isSet (startedAtOf startedRun))
    by (eexists; split; [reflexivity | done]).
  split_and!; try assumption.
  apply (proj1 (proj2 (proj2 (proj2 (fallback_status _ startedRun Hd Hs Hc))))
           Hf Ha Hr Ht).
Defined.

(** ** The two implementations compute the same status *)

(** C4: for every raw run record, the status computed inline by
    transformComponentWorkflowRun of the openchoreo-backend transformer
    equals the status computed by deriveWorkflowRunStatus of the CI
    backend's WorkflowService module; the flat records built around the two
    are equal as well. *)
Theorem status_derivations_equal (run : WorkflowRun.t) :
  ComponentWorkflowRunResponse.status (Transformer.transformComponentWorkflowRun run)
  = WorkflowService.deriveWorkflowRunStatus run
  ∧ Transformer.transformComponentWorkflowRun run
    = WorkflowService.transformWorkflowRun run.
Proof.
  unfold Transformer.transformComponentWorkflowRun, WorkflowService.transformWorkflowRun.
  simpl. by rewrite ci_agrees.
Qed.

(** ** Totality and determinism *)

(** ** The derivations on well-typed records *)

Section Records.

Lemma dyn_bind {A B} (c : Dyn.E A) (f : A → Dyn.E B) (x : A) :
  c = inr x → (c ≫= f) = f x.
Proof. by intros ->. Qed.

Lemma holdsString_truthy (v : Js.value) (s : option string) :
  holdsString v s → Js.truthyValue v = Js.truthy s.
Proof. destruct s as [s|]; simpl; [by intros -> | by intros [-> | ->]]. Qed.

Lemma holdsString_is (literal : string) (v : Js.value) (s : option string) :
  holdsString v s → Dyn.isString literal v = bool_decide (s = Some literal).
Proof.
  destruct s as [s|]; simpl.
  - intros ->. simpl. destruct (String.eqb_spec s literal) as [-> | Hne].
    + by rewrite bool_decide_eq_true_2.
    + rewrite bool_decide_eq_false_2; [done | congruence].
  - by intros [-> | ->].
Qed.

Lemma holdsString_terminal (v : Js.value) (s : option string) :
  holdsString v s → Dyn.terminalReason v = terminalReason s.
Proof.
  intros Hv. unfold Dyn.terminalReason, terminalReason.
  rewrite (holdsString_truthy _ _ Hv), !(holdsString_is _ _ _ Hv).
  by repeat case_bool_decide.
Qed.

Lemma holdsList_elements {A} (holds : Js.value → A → Prop) (method : string)
    (v : Js.value) (xs : option (list A)) :
  holdsList holds v xs →
  ∃ vs, Dyn.elements method (Dyn.nullish v (Js.Arr [])) = inr vs
        ∧ Forall2 holds vs (default [] xs).
Proof.
  destruct xs as [xs|]; simpl.
  - intros (vs & -> & Hvs). by exists vs.
  - intros [-> | ->]; exists []; by split; [|constructor].
Qed.

Lemma holds_isReadyType (v : Js.value) (c : Condition.t) :
  holdsCondition v c → Dyn.isReadyType v = inr (isReadyType c).
Proof.
  intros (fields & -> & Htype & _). unfold Dyn.isReadyType, isReadyType.
  unfold mbind, Dyn.E_bind, mret, Dyn.E_ret. cbn [Dyn.prop]. rewrite Htype.
  cbn [Dyn.isString]. f_equal.
  destruct (String.eqb_spec (Condition.type c) "Ready");
    [by rewrite bool_decide_eq_true_2 | by rewrite bool_decide_eq_false_2].
Qed.

Lemma holds_failedOrError (v : Js.value) (t : Task.t) :
  holdsTask v t → Dyn.failedOrError v = inr (failedOrError t).
Proof.
  intros (fields & -> & Hphase). unfold Dyn.failedOrError, failedOrError.
  unfold mbind, Dyn.E_bind, mret, Dyn.E_ret. cbn [Dyn.prop].
  by rewrite !(holdsString_is _ _ _ Hphase).
Qed.

Lemma holds_phaseIs (p : string) (v : Js.value) (t : Task.t) :
  holdsTask v t → Dyn.phaseIs p v = inr (phaseIs p t).
Proof.
  intros (fields & -> & Hphase). unfold Dyn.phaseIs, phaseIs.
  unfold mbind, Dyn.E_bind, mret, Dyn.E_ret. cbn [Dyn.prop].
  by rewrite (holdsString_is _ _ _ Hphase).
Qed.

(** The Ready condition as JavaScript holds it: the object of the
    condition, or [undefined]. *)
Lemma find_isReadyType (vs : list Js.value) (cs : list Condition.t) :
  Forall2 holdsCondition vs cs →
  ∃ rc,
    Dyn.find Dyn.isReadyType vs = inr rc
    ∧ match List.find isReadyType cs with
      | Some c => holdsCondition rc c
      | None => rc = Js.Undefined
      end.
Proof.
  induction 1 as [|v c vs cs Hv _ IH]; [by exists Js.Undefined|].
  cbn [Dyn.find List.find]. rewrite (dyn_bind _ _ _ (holds_isReadyType _ _ Hv)).
  destruct (isReadyType c); [by exists v | exact IH].
Qed.

Lemma some_failedOrError (vs : list Js.value) (ts : list Task.t) :
  Forall2 holdsTask vs ts →
  Dyn.some Dyn.failedOrError vs = inr (existsb failedOrError ts).
Proof.
  induction 1 as [|v t vs ts Hv _ IH]; [done|].
  cbn [Dyn.some existsb]. rewrite (dyn_bind _ _ _ (holds_failedOrError _ _ Hv)).
  by destruct (failedOrError t).
Qed.

Lemma some_phaseIs (p : string) (vs : list Js.value) (ts : list Task.t) :
  Forall2 holdsTask vs ts →
  Dyn.some (Dyn.phaseIs p) vs = inr (existsb (phaseIs p) ts).
Proof.
  induction 1 as [|v t vs ts Hv _ IH]; [done|].
  cbn [Dyn.some existsb]. rewrite (dyn_bind _ _ _ (holds_phaseIs p _ _ Hv)).
  by destruct (phaseIs p t).
Qed.

Lemma every_phaseIs (p : string) (vs : list Js.value) (ts : list Task.t) :
  Forall2 holdsTask vs ts →
  Dyn.every (Dyn.phaseIs p) vs = inr (forallb (phaseIs p) ts).
Proof.
  induction 1 as [|v t vs ts Hv _ IH]; [done|].
  cbn [Dyn.every forallb]. rewrite (dyn_bind _ _ _ (holds_phaseIs p _ _ Hv)).
  by destruct (phaseIs p t).
Qed.

(** What [run.status?.name] yields on a well-typed record. *)
Lemma holdsRun_fields (v : Js.value) (run : WorkflowRun.t) :
  holdsRun v run →
  ∃ completedAt startedAt conditions tasks,
    Dyn.statusField "completedAt" v = inr completedAt
    ∧ holdsString completedAt (completedAtOf run)
    ∧ Dyn.statusField "startedAt" v = inr startedAt
    ∧ holdsString startedAt (startedAtOf run)
    ∧ Dyn.statusField "conditions" v = inr conditions
    ∧ holdsList holdsCondition conditions (WorkflowRun.status run ≫= RunStatus.conditions)
    ∧ Dyn.statusField "tasks" v = inr tasks
    ∧ holdsList holdsTask tasks (WorkflowRun.status run ≫= RunStatus.tasks).
Proof.
  intros (fields & -> & Hstatus). unfold Dyn.statusField, completedAtOf, startedAtOf.
  unfold mbind, Dyn.E_bind. cbn [Dyn.prop].
  destruct (WorkflowRun.status run) as [st|]; simpl in Hstatus.
  - destruct Hstatus as (fields' & -> & Hc & Hs & Hcs & Hts).
    exists (Dyn.field "completedAt" fields'), (Dyn.field "startedAt" fields'),
      (Dyn.field "conditions" fields'), (Dyn.field "tasks" fields').
    by split_and!.
  - exists Js.Undefined, Js.Undefined, Js.Undefined, Js.Undefined.
    destruct Hstatus as [-> | ->]; cbn; split_and!; auto.
Qed.

Lemma holdsCondition_reads (rc : Js.value) (c : Condition.t) :
  holdsCondition rc c →
  Js.truthyValue rc = true
  ∧ Dyn.prop "status" rc = inr (Js.Str (Condition.status c))
  ∧ ∃ reason,
      Dyn.prop "reason" rc = inr reason ∧ Dyn.optProp "reason" rc = inr reason
      ∧ holdsString reason (Condition.reason c).
Proof.
  intros (fields & -> & _ & Hstatus & Hreason). cbn [Dyn.prop Dyn.optProp].
  rewrite Hstatus. split_and!; [done | done |].
  by exists (Dyn.field "reason" fields).
Qed.

Lemma isString_Str (literal s : string) :
  Dyn.isString literal (Js.Str s) = bool_decide (s = literal).
Proof.
  cbn. destruct (String.eqb_spec s literal);
    [by rewrite bool_decide_eq_true_2 | by rewrite bool_decide_eq_false_2].
Qed.

Lemma nonEmpty_and_all (vs : list Js.value) (ts : list Task.t) :
  Forall2 holdsTask vs ts →
  (if bool_decide (0 < length vs) then Dyn.every (Dyn.phaseIs "Succeeded") vs
   else mret false)
  = inr (bool_decide (0 < length ts) && forallb (phaseIs "Succeeded") ts).
Proof.
  intros Hall. rewrite (Forall2_length _ _ _ Hall), (every_phaseIs _ _ _ Hall).
  by destruct (bool_decide _).
Qed.

Lemma all_and_nonEmpty (vs : list Js.value) (ts : list Task.t) :
  Forall2 holdsTask vs ts →
  (all ← Dyn.every (Dyn.phaseIs "Succeeded") vs;
   mret (all && bool_decide (0 < length vs)))
  = inr (bool_decide (0 < length ts) && forallb (phaseIs "Succeeded") ts).
Proof.
  intros Hall. rewrite (Forall2_length _ _ _ Hall), (every_phaseIs _ _ _ Hall).
  cbn. by rewrite andb_comm.
Qed.

Ltac tests := repeat case_bool_decide; simpl; solve [done | congruence].

(** The steps shared by the three copies once [readyCondition] is read. *)
Ltac derive_from Hfields Hrc :=
  destruct Hfields
    as (completedAt & startedAt & conditions & tasks
        & HcompletedAt & Hc & HstartedAt & Hs & Hconditions & Hcs & Htasks & Hts);
  rewrite (dyn_bind _ _ _ Htasks); cbn zeta;
  destruct (holdsList_elements holdsTask "some" tasks _ Hts) as (ts & Hts_el & Hts_all);
  rewrite (dyn_bind _ _ _ HcompletedAt), (holdsString_truthy _ _ Hc);
  rewrite derive_unfold; unfold tasksOf;
  destruct (Js.truthy (completedAtOf _));
  [ rewrite (dyn_bind _ _ _ Hts_el), (dyn_bind _ _ _ (some_failedOrError _ _ Hts_all));
    destruct (existsb failedOrError _); [done|];
    destruct (List.find isReadyType _) as [c|];
    [ destruct (holdsCondition_reads _ _ Hrc) as (_ & _ & reason & _ & Hopt & Hreason);
      rewrite (dyn_bind _ _ _ Hopt), (holdsString_terminal _ _ Hreason);
      unfold terminalReason, Js.truthy; cbn [mbind option_bind];
      destruct (Condition.reason c) as [r|]; [|done];
      cbn in Hreason; subst reason; tests
    | subst; done ]
  | destruct (List.find isReadyType _) as [c|];
    [ destruct (holdsCondition_reads _ _ Hrc) as (-> & Hstatus & reason & Hprop & _ & Hreason);
      rewrite (dyn_bind _ _ _ Hprop), (holdsString_truthy _ _ Hreason);
      rewrite (dyn_bind _ _ _ Hstatus), isString_Str;
      unfold Js.truthy;
      destruct (Condition.reason c) as [r|];
      [ cbn in Hreason; subst reason; tests | tests ]
    | subst; cbn [Js.truthyValue];
      rewrite (dyn_bind _ _ _ Hts_el), (dyn_bind _ _ _ (some_failedOrError _ _ Hts_all));
      destruct (existsb failedOrError _); [done|];
      first [ rewrite (dyn_bind _ _ _ (nonEmpty_and_all _ _ Hts_all))
            | rewrite (dyn_bind _ _ _ (all_and_nonEmpty _ _ Hts_all)) ];
      destruct (bool_decide _ && forallb _ _); [done|];
      rewrite (dyn_bind _ _ _ (some_phaseIs _ _ _ Hts_all));
      destruct (existsb _ _); [done|];
      rewrite (dyn_bind _ _ _ HstartedAt), (holdsString_truthy _ _ Hs);
      by destruct (Js.truthy _) ] ].

Lemma holdsRun_readyCondition (v : Js.value) (run : WorkflowRun.t) (conditions : Js.value) :
  holdsList holdsCondition conditions (WorkflowRun.status run ≫= RunStatus.conditions) →
  ∃ cs rc,
    Dyn.elements "find" (Dyn.nullish conditions (Js.Arr [])) = inr cs
    ∧ Dyn.find Dyn.isReadyType cs = inr rc
    ∧ match conditions with
      | Js.Undefined | Js.Null => mret Js.Undefined
      | _ => cs ← Dyn.elements "find" conditions; Dyn.find Dyn.isReadyType cs
      end = inr rc
    ∧ match List.find isReadyType (conditionsOf run) with
      | Some c => holdsCondition rc c
      | None => rc = Js.Undefined
      end.
Proof.
  intros Hcs. unfold conditionsOf.
  destruct (holdsList_elements holdsCondition "find" conditions _ Hcs) as (cs & Hel & Hall).
  destruct (find_isReadyType _ _ Hall) as (rc & Hfind & Hrc).
  exists cs, rc. split_and!; [done | done | | done].
  destruct (WorkflowRun.status run ≫= RunStatus.conditions) as [cs'|]; cbn in Hcs.
  - destruct Hcs as (vs & -> & _). cbn in Hel. simplify_eq. done.
  - destruct Hcs as [-> | ->]; cbn in Hel; simplify_eq; done.
Qed.

Lemma transformer_on_record (v : Js.value) (run : WorkflowRun.t) :
  holdsRun v run → Dyn.Transformer.derive v = inr (Js.Str (Transformer.derive run)).
Proof.
  intros Hfields%holdsRun_fields. unfold Dyn.Transformer.derive.
  pose proof Hfields as (_ & _ & conditions' & _ & _ & _ & _ & _ & Hcond & Hcs' & _).
  destruct (holdsRun_readyCondition v run _ Hcs') as (cs & rc & _ & _ & Hready & Hrc).
  rewrite (dyn_bind _ _ _ Hcond), (dyn_bind _ _ _ Hready).
  derive_from Hfields Hrc.
Qed.

Lemma ci_on_record (v : Js.value) (run : WorkflowRun.t) :
  holdsRun v run →
  Dyn.WorkflowService.deriveWorkflowRunStatus v = inr (Js.Str (Transformer.derive run)).
Proof.
  intros Hfields%holdsRun_fields. unfold Dyn.WorkflowService.deriveWorkflowRunStatus.
  pose proof Hfields as (_ & _ & conditions' & _ & _ & _ & _ & _ & Hcond & Hcs' & _).
  destruct (holdsRun_readyCondition v run _ Hcs') as (cs & rc & Hel & Hfind & _ & Hrc).
  rewrite (dyn_bind _ _ _ Hcond), (dyn_bind _ _ _ Hel), (dyn_bind _ _ _ Hfind).
  derive_from Hfields Hrc.
Qed.

Lemma generic_on_record (v : Js.value) (run : WorkflowRun.t) :
  holdsRun v run →
  Dyn.GenericWorkflowService.deriveWorkflowRunStatus v
  = inr (Js.Str (Transformer.derive run)).
Proof.
  intros Hfields%holdsRun_fields. unfold Dyn.GenericWorkflowService.deriveWorkflowRunStatus.
  pose proof Hfields as (_ & _ & conditions' & _ & _ & _ & _ & _ & Hcond & Hcs' & _).
  destruct (holdsRun_readyCondition v run _ Hcs') as (cs & rc & Hel & Hfind & _ & Hrc).
  rewrite (dyn_bind _ _ _ Hcond). cbn zeta.
  rewrite (dyn_bind _ _ _ Hel), (dyn_bind _ _ _ Hfind).
  derive_from Hfields Hrc.
Qed.

Lemma optionalField_here {A} (name : string) (value : A → Js.value) (x : option A)
    (rest : list (string * Js.value)) :
  Dyn.field name (optionalField name value x ++ rest)
  = match x with
    | Some a => value a
    | None => Dyn.field name rest
    end.
Proof. destruct x; cbn; [|done]. by rewrite String.eqb_refl. Qed.

Lemma optionalField_skip {A} (name other : string) (value : A → Js.value) (x : option A)
    (rest : list (string * Js.value)) :
  other ≠ name →
  Dyn.field name (optionalField other value x ++ rest) = Dyn.field name rest.
Proof.
  intros Hne. destruct x; cbn; [|done].
  by destruct (String.eqb_spec other name).
Qed.

Lemma holdsString_optional (s : option string) :
  holdsString (match s with Some a => Js.Str a | None => Js.Undefined end) s.
Proof. destruct s; cbn; auto. Qed.

(** Every run record is held by its plain object. *)
Lemma runObject_holds (run : WorkflowRun.t) : holdsRun (runObject run) run.
Proof.
  assert (∀ c, holdsCondition (conditionObject c) c) as Hcondition.
  { intros c. eexists. split; [done|]. split_and!; [done | done |].
    cbn [app Dyn.field String.eqb Ascii.eqb Bool.eqb].
    rewrite <- (app_nil_r (optionalField _ _ _)), optionalField_here.
    apply holdsString_optional. }
  assert (∀ t, holdsTask (taskObject t) t) as Htask.
  { intros t. eexists. split; [done|]. rewrite optionalField_here.
    destruct (Task.phase t) as [p|]; [done|].
    rewrite <- (app_nil_r (optionalField _ _ _)), optionalField_skip by done. by left. }
  eexists. split; [done|].
  rewrite <- (app_nil_r (optionalField _ _ _)), optionalField_here.
  destruct (WorkflowRun.status run) as [st|]; [|by left]. cbn [holdsStatus].
  eexists. split; [done|]. split_and!.
  - rewrite optionalField_here. destruct (RunStatus.completedAt st); [done|].
    rewrite optionalField_skip, optionalField_skip by done.
    rewrite <- (app_nil_r (optionalField _ _ _)), optionalField_skip by done. by left.
  - rewrite optionalField_skip by done. rewrite optionalField_here.
    destruct (RunStatus.startedAt st); [done|].
    rewrite optionalField_skip by done.
    rewrite <- (app_nil_r (optionalField _ _ _)), optionalField_skip by done. by left.
  - rewrite !optionalField_skip by done. rewrite optionalField_here.
    destruct (RunStatus.conditions st) as [cs|]; cbn [holdsList].
    + eexists. split; [done|]. apply Forall2_fmap_l, Forall_Forall2_diag, Forall_forall.
      intros c _. apply Hcondition.
    + rewrite <- (app_nil_r (optionalField _ _ _)), optionalField_skip by done. by left.
  - rewrite !optionalField_skip by done.
    rewrite <- (app_nil_r (optionalField _ _ _)), optionalField_here.
    destruct (RunStatus.tasks st) as [ts|]; cbn [holdsList].
    + eexists. split; [done|]. apply Forall2_fmap_l, Forall_Forall2_diag, Forall_forall.
      intros t _. apply Htask.
    + by left.
Qed.

End Records.

(** C5: on every well-typed run record, whatever is missing from it
    (completedAt, the conditions or an empty list of them, the reason of a
    condition, the tasks, startedAt, the status object itself), each of the
    three derivations returns without throwing, and what it returns is one
    string: the label the typed derivation gives for the record.  The label
    depends on the record only, however JavaScript holds it; it is one of
    the four fixed labels or the non-empty reason of the Ready condition,
    and "Pending" when nothing is present. *)
Theorem derive_total_deterministic (v : Js.value) (run : WorkflowRun.t) :
  holdsRun v run →
  Dyn.Transformer.derive v = inr (Js.Str (Transformer.derive run))
  ∧ Dyn.WorkflowService.deriveWorkflowRunStatus v
    = inr (Js.Str (WorkflowService.deriveWorkflowRunStatus run))
  ∧ Dyn.GenericWorkflowService.deriveWorkflowRunStatus v
    = inr (Js.Str (GenericWorkflowService.deriveWorkflowRunStatus run))
  ∧ (∀ v', holdsRun v' run →
       Dyn.Transformer.derive v' = Dyn.Transformer.derive v
       ∧ Dyn.WorkflowService.deriveWorkflowRunStatus v'
         = Dyn.WorkflowService.deriveWorkflowRunStatus v
       ∧ Dyn.GenericWorkflowService.deriveWorkflowRunStatus v'
         = Dyn.GenericWorkflowService.deriveWorkflowRunStatus v)
  ∧ (∀ derive, derive ∈ derivations →
       (derive run ∈ ["Pending"; "Running"; "Succeeded"; "Failed"]
        ∨ ∃ c r, ReadyCondition (conditionsOf run) c ∧ Condition.reason c = Some r
                 ∧ r ≠ "" ∧ derive run = r)
       ∧ (¬ isSet (completedAtOf run) → conditionsOf run = [] → tasksOf run = [] →
          ¬ isSet (startedAtOf run) → derive run = "Pending")
       ∧ (WorkflowRun.status run = None → derive run = "Pending")).
Proof.
  intros Hv. split_and!.
  - by apply transformer_on_record.
  - rewrite ci_agrees. by apply ci_on_record.
  - rewrite generic_agrees. by apply generic_on_record.
  - intros v' Hv'.
    rewrite (transformer_on_record v' run Hv'), (transformer_on_record v run Hv).
    rewrite (ci_on_record v' run Hv'), (ci_on_record v run Hv).
    by rewrite (generic_on_record v' run Hv'), (generic_on_record v run Hv).
  - intros derive Hd. split_and!.
    + on_transformer Hd.
      destruct (List.find isReadyType (conditionsOf run)) as [c|] eqn:Hc.
      * apply find_ready_Some in Hc as Hc'. simpl.
        destruct (Condition.reason c) as [r|] eqn:Hr.
        -- destruct (decide (r = "")) as [-> | Hne].
           { left. repeat first [ case_match | case_bool_decide ];
               first [ done | by in_list ]. }
           repeat first [ case_match | case_bool_decide ]; simplify_eq/=;
             try (left; by in_list); right; eauto 10.
        -- left. repeat first [ case_match | case_bool_decide ]; in_list.
      * left. simpl. repeat first [ case_match | case_bool_decide ]; in_list.
    + intros Hset%truthy_not_isSet Hcs Hts Hst%truthy_not_isSet. on_transformer Hd.
      by rewrite Hset, Hcs, Hts, Hst.
    + intros Hnone. on_transformer Hd.
      unfold completedAtOf, conditionsOf, tasksOf, startedAtOf. by rewrite Hnone.
Qed.

Lemma derive_total_deterministic_witness :
  holdsRun (runObject staleRunningRun) staleRunningRun
  ∧ Dyn.WorkflowService.deriveWorkflowRunStatus (runObject staleRunningRun)
    = inr (Js.Str "Succeeded")
  ∧ Dyn.Transformer.derive (Js.Obj []) = inr (Js.Str "Pending").
Proof.
  assert (H : holdsRun (runObject staleRunningRun) staleRunningRun).
  { eexists. split; [reflexivity|]. eexists. split; [reflexivity|].
    split_and!; [reflexivity | by left | |].
    - eexists. split; [reflexivity|]. constructor; [|constructor].
      eexists. split; [reflexivity|]. by split_and!.
    - eexists. split; [reflexivity|]. constructor; [|constructor].
      eexists. split; reflexivity. }
  split_and!.
  - exact H.
  - rewrite (proj1 (proj2 (derive_total_deterministic _ _ H))). reflexivity.
  - by vm_compute.
Defined.

(** On values that are not run records the derivations do throw, or return
    something that is not a string: the typing of the record is needed. *)
Lemma derive_needs_a_record :
  Dyn.WorkflowService.deriveWorkflowRunStatus conditionsNotAList
  = inl (Dyn.TypeError "find is not a function")
  ∧ Dyn.Transformer.derive conditionsNotAList
    = inl (Dyn.TypeError "find is not a function")
  ∧ Dyn.GenericWorkflowService.deriveWorkflowRunStatus Js.Null
    = inl (Dyn.TypeError "Cannot read properties of null (reading 'status')")
  ∧ Dyn.WorkflowService.deriveWorkflowRunStatus numericReason = inr (Js.Num 42).
Proof. by vm_compute. Qed.

(** ** The empty reason *)

(** C10: when the Ready condition of a run record carries the empty string
    as its reason, every derivation treats the reason as absent: with
    completedAt set and no Failed or Error task the label is "Succeeded";
    without completedAt it is "Succeeded" when the condition's status is
    "True" and "Running" otherwise; the empty string is never the label. *)
Theorem empty_reason_is_absent
    (derive : WorkflowRun.t → string) (run : WorkflowRun.t) (c : Condition.t) :
  derive ∈ derivations →
  ReadyCondition (conditionsOf run) c →
  Condition.reason c = Some "" →
  (isSet (completedAtOf run) → ¬ AnyFailed (tasksOf run) → derive run = "Succeeded")
  ∧ (¬ isSet (completedAtOf run) → Condition.status c = "True" →
     derive run = "Succeeded")
  ∧ (¬ isSet (completedAtOf run) → Condition.status c ≠ "True" →
     derive run = "Running")
  ∧ (∀ run', derive run' ≠ "").
Proof.
  intros Hd Hc%find_ready_Some Hr. split_and!.
  - intros Hset%truthy_isSet Hnf%not_failed_reflect. on_transformer Hd.
    rewrite Hset, Hnf, Hc. simpl. by rewrite Hr.
  - intros Hset%truthy_not_isSet Hst. on_transformer Hd.
    rewrite Hset, Hc, Hr. decide_tests.
  - intros Hset%truthy_not_isSet Hst. on_transformer Hd.
    rewrite Hset, Hc, Hr. decide_tests.
  - intros run'. rewrite (derivations_agree _ _ Hd). apply derive_nonempty.
Qed.

Lemma empty_reason_is_absent_witness :
  WorkflowService.deriveWorkflowRunStatus ∈ derivations
  ∧ ReadyCondition (conditionsOf emptyReasonCompletedRun) (ready "True" (Some ""))
  ∧ isSet (completedAtOf emptyReasonCompletedRun)
  ∧ ¬ AnyFailed (tasksOf emptyReasonCompletedRun)
  ∧ WorkflowService.deriveWorkflowRunStatus emptyReasonCompletedRun = "Succeeded".
Proof.
  assert (Hd : WorkflowService.deriveWorkflowRunStatus ∈ derivations)
    by (unfold derivations; in_list).
  assert (Hc : ReadyCondition (conditionsOf emptyReasonCompletedRun)
                 (ready "True" (Some "")))
    by (apply find_ready_Some; reflexivity).
  assert (Hs : isSet (completedAtOf emptyReasonCompletedRun))
    by (eexists; split; [reflexivity | done]).
  assert (Hf : ¬ AnyFailed (tasksOf emptyReasonCompletedRun))
    by (apply not_failed_reflect; reflexivity).
  split_and!; try assumption.
  apply (proj1 (empty_reason_is_absent _ emptyReasonCompletedRun _ Hd Hc eq_refl) Hs Hf).
Defined.

(** ** Grouping environments by data plane *)

Section Grouping.
Import PlatformEnvironmentInfoService.

Lemma groupStep_lookup (m : gmap string (list Environment.t)) (env : Environment.t)
    (k : string) :
  groupStep m env !! k =
    if decide (environmentKey env = k) then Some (default [] (m !! k) ++ [env])
    else m !! k.
Proof.
  unfold groupStep. case_bool_decide as Hin.
  - destruct Hin as [g Hg]. case_decide as Hk.
    + subst k. by rewrite lookup_alter_eq, Hg.
    + by rewrite lookup_alter_ne.
  - assert (m !! environmentKey env = None) as Hnone.
    { by destruct (m !! environmentKey env) eqn:?; [destruct Hin; eauto|]. }
    case_decide as Hk.
    + subst k. by rewrite lookup_alter_eq, lookup_insert_eq, Hnone.
    + by rewrite lookup_alter_ne, lookup_insert_ne.
Qed.

Lemma withKey_snoc (k : string) (envs : list Environment.t) (env : Environment.t) :
  withKey k (envs ++ [env]) =
    if decide (environmentKey env = k) then withKey k envs ++ [env] else withKey k envs.
Proof.
  unfold withKey. rewrite filter_app, filter_cons, filter_nil.
  repeat case_decide; simplify_eq/=; by rewrite ?app_nil_r.
Qed.

Lemma groupEnvironments_snoc (envs : list Environment.t) (env : Environment.t) :
  groupEnvironments (envs ++ [env]) = groupStep (groupEnvironments envs) env.
Proof. unfold groupEnvironments. by rewrite foldl_snoc. Qed.

(** Every group is the input restricted to its key; keys without an
    environment have no group. *)
Lemma groupEnvironments_lookup (envs : list Environment.t) (k : string) :
  groupEnvironments envs !! k =
    if decide (withKey k envs = []) then None else Some (withKey k envs).
Proof.
  induction envs as [|env envs IH] using rev_ind.
  - unfold groupEnvironments. simpl. by rewrite lookup_empty.
  - rewrite groupEnvironments_snoc, groupStep_lookup, IH, withKey_snoc.
    destruct (decide (environmentKey env = k)) as [Hk|Hk].
    + destruct (withKey k envs); simpl; repeat case_decide; done.
    + done.
Qed.

Lemma allGroups_insert (m : gmap string (list Environment.t)) (k : string)
    (g : list Environment.t) :
  m !! k = None → allGroups (<[k := g]> m) ≡ₚ g ++ allGroups m.
Proof.
  intros Hnone. unfold allGroups. by rewrite map_to_list_insert.
Qed.

Lemma groupStep_allGroups (m : gmap string (list Environment.t)) (env : Environment.t) :
  allGroups (groupStep m env) ≡ₚ allGroups m ++ [env].
Proof.
  unfold groupStep. case_bool_decide as Hin.
  - destruct Hin as [g Hg].
    assert (alter (λ group, group ++ [env]) (environmentKey env) m
            = <[environmentKey env := g ++ [env]]> (delete (environmentKey env) m)) as ->.
    { apply map_eq. intros j. destruct (decide (environmentKey env = j)) as [<- | ?].
      - by rewrite lookup_alter_eq, lookup_insert_eq, Hg.
      - by rewrite lookup_alter_ne, lookup_insert_ne, lookup_delete_ne. }
    rewrite allGroups_insert by apply lookup_delete_eq.
    assert (allGroups m ≡ₚ g ++ allGroups (delete (environmentKey env) m)) as ->.
    { unfold allGroups. by rewrite <- (map_to_list_delete m _ g Hg). }
    rewrite <- !(assoc_L (++)). f_equiv. apply (comm (++)).
  - assert (m !! environmentKey env = None) as Hnone.
    { by destruct (m !! environmentKey env) eqn:?; [destruct Hin; eauto|]. }
    rewrite alter_insert_eq. rewrite allGroups_insert by done.
    simpl. apply Permutation_cons_append.
Qed.

Lemma groupEnvironments_allGroups (envs : list Environment.t) :
  allGroups (groupEnvironments envs) ≡ₚ envs.
Proof.
  induction envs as [|env envs IH] using rev_ind.
  - unfold groupEnvironments, allGroups. simpl. by rewrite map_to_list_empty.
  - by rewrite groupEnvironments_snoc, groupStep_allGroups, IH.
Qed.

End Grouping.

Lemma list_ascii_of_string_app (s t : string) :
  String.list_ascii_of_string (s +:+ t) = String.list_ascii_of_string s ++ String.list_ascii_of_string t.
Proof. induction s as [|a s IH]; simpl; [done | by rewrite IH]. Qed.

Lemma string_app_inj_r (s1 s2 t : string) : s1 +:+ t = s2 +:+ t → s1 = s2.
Proof.
  intros H%(f_equal String.list_ascii_of_string). rewrite !list_ascii_of_string_app in H.
  apply (inj (.++ _)) in H.
  by rewrite <- (String.string_of_list_ascii_of_string s1), H, String.string_of_list_ascii_of_string.
Qed.

(** C6: the grouping built by fetchDataplanesWithEnvironments partitions its
    input.  Every environment lies in the group of its composite key
    namespaceName + "/" + dataPlaneRef and in no other group; environments
    that name the same data plane in different namespaces have different
    keys; an environment whose dataPlaneRef is the empty string is kept, in
    the group whose key has the empty data plane name; every group lists its
    environments in input order; and all groups together are the input list,
    each environment exactly as often as it occurs there. *)
Theorem grouping_partitions (environments : list Environment.t) :
  let groups := PlatformEnvironmentInfoService.groupEnvironments environments in
  (∀ env, env ∈ environments →
     ∃ group, groups !! (Environment.namespaceName env +:+ "/"
                         +:+ Environment.dataPlaneRef env) = Some group
              ∧ env ∈ group)
  ∧ (∀ key group env, groups !! key = Some group → env ∈ group →
       key = Environment.namespaceName env +:+ "/" +:+ Environment.dataPlaneRef env)
  ∧ (∀ env1 env2,
       Environment.dataPlaneRef env1 = Environment.dataPlaneRef env2 →
       Environment.namespaceName env1 ≠ Environment.namespaceName env2 →
       PlatformEnvironmentInfoService.environmentKey env1
       ≠ PlatformEnvironmentInfoService.environmentKey env2)
  ∧ (∀ env, env ∈ environments → Environment.dataPlaneRef env = "" →
       ∃ group, groups !! (Environment.namespaceName env +:+ "/" +:+ "") = Some group
                ∧ env ∈ group)
  ∧ (∀ key group, groups !! key = Some group →
       group ≠ [] ∧ group = withKey key environments ∧ group `sublist_of` environments)
  ∧ allGroups groups ≡ₚ environments.
Proof.
  intros groups.
  assert (∀ env, env ∈ environments →
            ∃ group, groups !! PlatformEnvironmentInfoService.environmentKey env = Some group
                     ∧ env ∈ group) as Hin.
  { intros env Henv. unfold groups. rewrite groupEnvironments_lookup.
    assert (env ∈ withKey (PlatformEnvironmentInfoService.environmentKey env) environments)
      as Hmem by (by apply list_elem_of_filter).
    case_decide as Hnil; [rewrite Hnil in Hmem; by apply elem_of_nil in Hmem|].
    eauto. }
  assert (∀ key group, groups !! key = Some group →
            group ≠ [] ∧ group = withKey key environments) as Hgroup.
  { intros key group. unfold groups. rewrite groupEnvironments_lookup.
    case_decide; [done|]. by intros [= <-]. }
  split_and!.
  - exact Hin.
  - intros key group env [_ ->]%Hgroup [Hk _]%list_elem_of_filter. by rewrite <- Hk.
  - intros env1 env2 Href Hns Hkey. apply Hns.
    unfold PlatformEnvironmentInfoService.environmentKey in Hkey. rewrite Href in Hkey.
    by apply string_app_inj_r in Hkey.
  - intros env Henv Href. destruct (Hin env Henv) as (group & Hg & Hmem).
    unfold PlatformEnvironmentInfoService.environmentKey in Hg. rewrite Href in Hg. eauto.
  - intros key group Hg. destruct (Hgroup _ _ Hg) as [Hne ->].
    split_and!; [done | done | apply sublist_filter].
  - apply groupEnvironments_allGroups.
Qed.

Lemma grouping_partitions_witness :
  environment "acme" "scratch" "" ∈ sampleEnvironments
  ∧ PlatformEnvironmentInfoService.groupEnvironments sampleEnvironments !! "acme/"
    = Some [environment "acme" "scratch" ""]
  ∧ PlatformEnvironmentInfoService.groupEnvironments sampleEnvironments !! "acme/default"
    = Some [environment "acme" "dev" "default"; environment "acme" "prod" "default"]
  ∧ PlatformEnvironmentInfoService.groupEnvironments sampleEnvironments !! "globex/default"
    = Some [environment "globex" "dev" "default"]
  ∧ ∃ group,
      PlatformEnvironmentInfoService.groupEnvironments sampleEnvironments !! "acme/"
      = Some group
      ∧ environment "acme" "scratch" "" ∈ group.
Proof.
  assert (Hin : environment "acme" "scratch" "" ∈ sampleEnvironments)
    by (unfold sampleEnvironments; in_list).
  split_and!; [assumption | by vm_compute | by vm_compute | by vm_compute |].
  apply (proj1 (proj2 (proj2 (proj2 (grouping_partitions sampleEnvironments))))
           (environment "acme" "scratch" "") Hin eq_refl).
Defined.

(** ** Counting bindings per environment *)

Section Counting.
Import PlatformEnvironmentInfoService.

Lemma totalCount_increment (counts : gmap string nat) (key : string) :
  totalCount (<[key := default 0 (counts !! key) + 1]> counts) = totalCount counts + 1.
Proof.
  unfold totalCount.
  assert (∀ (m : gmap string nat) j1 j2 z1 z2 y,
            j1 ≠ j2 → m !! j1 = Some z1 → m !! j2 = Some z2 →
            z1 + (z2 + y) = z2 + (z1 + y)) as Hcomm by (intros; lia).
  destruct (counts !! key) as [n|] eqn:Hn; simpl.
  - rewrite <- insert_delete_eq.
    rewrite map_fold_insert_L; [|by eauto|apply lookup_delete_eq].
    rewrite (map_fold_delete_L _ _ key n counts); [lia|by eauto|done].
  - rewrite map_fold_insert_L; [lia|by eauto|done].
Qed.

Lemma countBinding_cases (c : Component.t) (counts : gmap string nat)
    (binding : NewReleaseBinding.t) :
  countBinding c counts binding =
    match environmentOf binding with
    | Some name =>
        let key := Component.namespaceName c +:+ "/" +:+ name in
        <[key := default 0 (counts !! key) + 1]> counts
    | None => counts
    end.
Proof.
  unfold countBinding, environmentOf.
  destruct (NewReleaseBinding.spec binding ≫= NewReleaseBinding.environment) as [name|];
    [|done].
  unfold Js.truthy. by case_bool_decide.
Qed.

Lemma countedUnder_cons (c : Component.t) (key : string) (binding : NewReleaseBinding.t)
    (bindings : list NewReleaseBinding.t) :
  length (countedUnder c key (binding :: bindings)) =
    (if decide ((λ name, Component.namespaceName c +:+ "/" +:+ name)
                  <$> environmentOf binding = Some key) then 1 else 0)
    + length (countedUnder c key bindings).
Proof. unfold countedUnder. rewrite filter_cons. by case_decide. Qed.

Lemma countBindings_lookup (c : Component.t) (bindings : list NewReleaseBinding.t)
    (counts : gmap string nat) (key : string) :
  default 0 (foldl (countBinding c) counts bindings !! key)
  = default 0 (counts !! key) + length (countedUnder c key bindings).
Proof.
  revert counts. induction bindings as [|binding bindings IH]; intros counts; simpl.
  - unfold countedUnder. rewrite ?filter_nil. simpl. lia.
  - rewrite IH, countedUnder_cons, countBinding_cases.
    destruct (environmentOf binding) as [name|]; simpl.
    + case_decide as Hk.
      * injection Hk as <-. rewrite lookup_insert_eq. simpl. lia.
      * rewrite lookup_insert_ne by congruence. lia.
    + done.
Qed.

Lemma countBindings_total (c : Component.t) (bindings : list NewReleaseBinding.t)
    (counts : gmap string nat) :
  totalCount (foldl (countBinding c) counts bindings)
  = totalCount counts + length (withEnvironment bindings).
Proof.
  revert counts. induction bindings as [|binding bindings IH]; intros counts; simpl.
  - unfold withEnvironment. rewrite ?filter_nil. simpl. lia.
  - rewrite IH, countBinding_cases. unfold withEnvironment. rewrite filter_cons.
    destruct (environmentOf binding) as [name|]; simpl.
    + rewrite totalCount_increment. simpl. lia.
    + done.
Qed.

End Counting.

(** C7, as amended: for every list of bindings of a component, the
    accumulation inside fetchComponentCountsPerEnvironment increments the
    counter of the composite key namespaceName + "/" + environment once for
    every binding that names a (non-empty) environment, without merging
    bindings of the same component; bindings that name no environment are
    skipped.  So the sum of all counters grows by the number of bindings
    that name an environment, and by the number of all bindings when each
    of them names one. *)
Theorem count_by_environment (c : Component.t) (bindings : list NewReleaseBinding.t)
    (counts : gmap string nat) :
  let counts' := foldl (PlatformEnvironmentInfoService.countBinding c) counts bindings in
  (∀ key, default 0 (counts' !! key)
          = default 0 (counts !! key) + length (countedUnder c key bindings))
  ∧ (∀ binding name n,
       NewReleaseBinding.spec binding ≫= NewReleaseBinding.environment = Some name →
       name ≠ "" →
       foldl (PlatformEnvironmentInfoService.countBinding c) ∅ (replicate n binding)
         !! (Component.namespaceName c +:+ "/" +:+ name)
       = if decide (n = 0) then None else Some n)
  ∧ totalCount counts' = totalCount counts + length (withEnvironment bindings)
  ∧ (Forall (λ binding, is_Some (environmentOf binding)) bindings →
     totalCount (foldl (PlatformEnvironmentInfoService.countBinding c) ∅ bindings)
     = length bindings).
Proof.
  intros counts'. split_and!.
  - intros key. apply countBindings_lookup.
  - intros binding name n Hspec Hne.
    assert (environmentOf binding = Some name) as Henv.
    { unfold environmentOf. rewrite Hspec. by rewrite bool_decide_eq_true_2. }
    induction n as [|n IH]; [done|].
    rewrite replicate_S_end, foldl_snoc, countBinding_cases, Henv. simpl.
    rewrite lookup_insert_eq, IH. case_decide; simpl; f_equal; lia.
  - apply countBindings_total.
  - intros Hall. rewrite countBindings_total. unfold totalCount at 1.
    rewrite map_fold_empty. simpl. f_equal. unfold withEnvironment.
    induction Hall as [|binding bindings Hb _ IH]; [done|].
    rewrite filter_cons, decide_True by done. simpl. by rewrite IH.
Qed.

Lemma count_by_environment_witness :
  NewReleaseBinding.spec (bindingTo "cart" "dev") ≫= NewReleaseBinding.environment
  = Some "dev"
  ∧ "dev" ≠ ""
  ∧ foldl (PlatformEnvironmentInfoService.countBinding (component "acme" "cart")) ∅
      (replicate 3 (bindingTo "cart" "dev")) !! "acme/dev"
    = Some 3.
Proof.
  split_and!; [reflexivity | done |].
  apply (proj1 (proj2 (count_by_environment (component "acme" "cart") [] ∅))
           (bindingTo "cart" "dev") "dev" 3 eq_refl).
  done.
Defined.

(** C7 as stated fails: one binding is processed, it names no environment,
    and the counters sum to 0, not to the number of bindings processed. *)
Lemma count_by_environment_skips_unnamed :
  let bindings := [bindingNowhere "cart"] in
  let counts :=
    foldl (PlatformEnvironmentInfoService.countBinding (component "acme" "cart")) ∅ bindings in
  length bindings = 1 ∧ counts = ∅ ∧ totalCount counts = 0
  ∧ totalCount counts ≠ length bindings.
Proof. by vm_compute. Qed.

(** ** Running effects *)

Section Effects.

Lemma bind_run {σ A B} (c : Eff.M σ A) (f : A → Eff.M σ B) (s : list Eff.entry * σ) :
  (c ≫= f) s = match c s with
               | (inl e, s') => (inl e, s')
               | (inr x, s') => f x s'
               end.
Proof. done. Qed.

(** Awaiting a method at once is running its body from end to end. *)
Lemma awaited_try_async {σ A} (before : Eff.M σ unit) (rest : Eff.M σ A)
    (handler : Js.thrown → Eff.M σ A) (s : list Eff.entry * σ) :
  Eff.awaited (Eff.try_async (before;; Eff.suspend rest) handler) s
  = Eff.try_catch (before;; rest) handler s.
Proof.
  unfold Eff.awaited, Eff.try_async, Eff.try_catch, Eff.suspend.
  rewrite !bind_run. destruct (before s) as [[e | []] s']; simpl.
  - by destruct (handler e s').
  - done.
Qed.

Lemma mapM_run {σ A C D} (h : C → Eff.M σ D) (φ : A → C) (g : A → D)
    (step : A → list Eff.entry * σ → list Eff.entry * σ) :
  (∀ x s, h (φ x) s = (inr (g x), step x s)) →
  ∀ xs s, mapM h (φ <$> xs) s = (inr (g <$> xs), foldl (λ s x, step x s) s xs).
Proof.
  intros Hh xs. induction xs as [|x xs IH]; intros s; [done|].
  rewrite !fmap_cons. cbn [mapM foldl]. by rewrite bind_run, Hh, bind_run, IH.
Qed.

Lemma settled_Permutation {A} (order : list nat) (xs : list A) :
  Eff.settled order xs ≡ₚ xs.
Proof.
  revert order. induction xs as [|x xs IH]; intros order; [done|].
  cbn [Eff.settled]. rewrite <- Permutation_middle, take_drop. by rewrite IH.
Qed.

Lemma settled_fmap {A B} (h : A → B) (order : list nat) (xs : list A) :
  Eff.settled order (h <$> xs) = h <$> Eff.settled order xs.
Proof.
  revert order. induction xs as [|x xs IH]; intros order; [done|].
  rewrite fmap_cons. cbn [Eff.settled].
  by rewrite IH, fmap_app, fmap_cons, fmap_take, fmap_drop.
Qed.

Lemma settled_request_order {A} (xs : list A) : Eff.settled [] xs = xs.
Proof. induction xs as [|x xs IH]; [done|]. cbn [Eff.settled hd tail]. by rewrite IH. Qed.

(** Every order of settling is covered. *)
Lemma settled_any_order {A} (xs ys : list A) :
  ys ≡ₚ xs → ∃ order, Eff.settled order xs = ys.
Proof.
  revert ys. induction xs as [|x xs IH]; intros ys Hperm.
  - apply Permutation_nil_r in Hperm as ->. by exists [].
  - assert (x ∈ ys) as (l1 & l2 & ->)%list_elem_of_split
      by (rewrite Hperm; apply list_elem_of_here).
    symmetry in Hperm. apply Permutation_cons_app_inv in Hperm.
    destruct (IH (l1 ++ l2)) as [order Horder]; [done|].
    exists (length l1 :: order). cbn [Eff.settled hd tail]. rewrite Horder.
    by rewrite take_app_length, drop_app_length.
Qed.

Lemma omap_seq_lookup {B} (F : nat → option B) (ys : list B) (j : nat) :
  (∀ i y, ys !! i = Some y → F (j + i) = Some y) →
  omap F (seq j (length ys)) = ys.
Proof.
  revert j. induction ys as [|y ys IH]; intros j HF; [done|].
  pose proof (HF 0 y eq_refl) as H0. rewrite Nat.add_0_r in H0.
  cbn [length seq]. change (omap F (j :: seq (S j) (length ys)))
    with (match F j with Some y => y :: omap F (seq (S j) (length ys))
          | None => omap F (seq (S j) (length ys)) end).
  rewrite H0. f_equal. apply IH. intros i y' Hi.
  replace (S j + i) with (j + S i) by lia. by apply HF.
Qed.

Lemma aligned_settled {B} (order : list nat) (ys : list B) :
  Eff.aligned (length ys) (Eff.settled order (zip (seq 0 (length ys)) ys)) = ys.
Proof.
  unfold Eff.aligned. apply omap_seq_lookup. intros i y Hi. cbn [Nat.add].
  assert (∀ p, p ∈ Eff.settled order (zip (seq 0 (length ys)) ys) ↔ ys !! p.1 = Some p.2)
    as Hmem.
  { intros [j y']. rewrite settled_Permutation.
    rewrite elem_of_lookup_zip_with. cbn [fst snd]. split.
    - intros (m & j' & y'' & [= -> ->] & Hj & Hy). apply lookup_seq in Hj as [-> _].
      done.
    - intros Hy. exists j, j, y'. split_and!; [done | | done].
      apply lookup_seq. split; [done|]. by apply lookup_lt_Some in Hy. }
  destruct (List.find _ _) as [[j y']|] eqn:Hfind; simpl.
  - apply find_some in Hfind as [Hin Heq]. apply Nat.eqb_eq in Heq. simpl in Heq.
    subst j. apply list_elem_of_In, Hmem in Hin. simpl in Hin. congruence.
  - exfalso. pose proof (find_none _ _ Hfind (i, y)) as Hnone.
    rewrite <- list_elem_of_In, Hmem in Hnone. specialize (Hnone Hi).
    simpl in Hnone. by rewrite Nat.eqb_refl in Hnone.
Qed.

Lemma zip_fmap_r {A B C} (h : B → C) (l : list A) (k : list B) :
  zip l (h <$> k) = (λ p, (p.1, h p.2)) <$> zip l k.
Proof.
  revert k. induction l as [|x l IH]; intros [|y k]; [done..|].
  rewrite fmap_cons. cbn [zip_with fmap list_fmap]. by rewrite <- IH.
Qed.

(** [Promise.all] over callbacks that do not throw: the values come back in
    the order of the requests; the effects of the parts before the first
    await take place in that order too, the effects of what follows in the
    order of settling. *)
Lemma all_run {σ A B} (order : list nat) (f : A → Eff.async σ B) (rest : A → Eff.M σ B)
    (g : A → B) (start step : A → list Eff.entry * σ → list Eff.entry * σ) :
  (∀ x s, f x s = (inr (rest x), start x s)) →
  (∀ x s, rest x s = (inr (g x), step x s)) →
  ∀ xs s,
    Eff.all order f xs s
    = (inr (g <$> xs),
       foldl (λ s x, step x s) (foldl (λ s x, start x s) s xs) (Eff.settled order xs)).
Proof.
  intros Hf Hrest xs s. unfold Eff.all. rewrite bind_run.
  rewrite <- (list_fmap_id xs) at 1.
  rewrite (mapM_run _ id rest start)
    by (intros x s'; unfold Eff.try_catch; by rewrite Hf).
  rewrite bind_run, length_fmap.
  rewrite zip_fmap_r, settled_fmap.
  rewrite (mapM_run _ _ (λ p, (p.1, g p.2)) (λ p, step p.2))
    by (intros [i x] s'; cbn [fst snd]; by rewrite bind_run, Hrest).
  unfold mret, Eff.M_ret.
  rewrite <- settled_fmap, <- zip_fmap_r, <- (length_fmap g xs), aligned_settled.
  f_equal. rewrite length_fmap.
  rewrite <- (foldl_fmap (λ s x, step x s) _ _ snd), <- settled_fmap.
  by rewrite snd_zip by (rewrite length_seq; lia).
Qed.

Lemma fetchAllPages_collect {σ A} (undefinedPage : option Js.thrown)
    (page : Api.outcome (list A) → Js.thrown + option (list A))
    (fetchPage : Api.outcome (list A) → Eff.M σ (option (list A))) :
  (∀ r s, fetchPage r s = (page r, s)) →
  ∀ pages s,
    Api.fetchAllPages undefinedPage fetchPage pages s
    = (collectPages undefinedPage page pages, s).
Proof.
  intros Hpage pages s. induction pages as [r | r rest IH]; simpl.
  - rewrite bind_run, Hpage. destruct (page r) as [e | [items|]]; [done | done |].
    by destruct undefinedPage.
  - rewrite bind_run, Hpage. destruct (page r) as [e | [items|]]; [done | |].
    + rewrite bind_run, IH. by destruct (collectPages undefinedPage page rest).
    + by destruct undefinedPage.
Qed.

Lemma foldl_commute {A B} (f : B → A → B) (l l' : list A) (b : B) :
  (∀ b x y, f (f b x) y = f (f b y) x) →
  l ≡ₚ l' → foldl f b l = foldl f b l'.
Proof.
  intros Hf Hperm. revert b.
  induction Hperm as [|x l l' _ IH | x y l | l l' l'' _ IH _ IH']; intros b; simpl.
  - done.
  - apply IH.
  - by rewrite Hf.
  - by rewrite IH.
Qed.

End Effects.

(** ** Paged fetches *)

Section Pages.
Context {A : Type}.
Context (undefinedPage : option Js.thrown).
Context (page : Api.outcome (list A) → Js.thrown + option (list A)).

Lemma collectPages_throws (pages : Api.paged A) (k : nat) (res : Api.outcome (list A))
    (e : Js.thrown) :
  responses pages !! k = Some res →
  page res = inl e →
  (∀ j res', (j < k)%nat → responses pages !! j = Some res' →
             ∃ items, page res' = inr (Some items)) →
  collectPages undefinedPage page pages = inl e.
Proof.
  revert k. induction pages as [r | r rest IH]; intros k Hk He Hbefore.
  - destruct k as [|k]; [|done]. cbn in Hk. simplify_eq. cbn. by rewrite He.
  - destruct k as [|k]; cbn in Hk.
    + simplify_eq. cbn. by rewrite He.
    + destruct (Hbefore 0 r) as [items Hitems]; [lia | done |].
      cbn. rewrite Hitems. rewrite (IH k); [done | done | done |].
      intros j res' Hj Hres'. apply (Hbefore (S j)); [lia | done].
Qed.

Lemma collectPages_returns (pages : Api.paged A) :
  (∀ res, res ∈ responses pages → ∃ items, page res = inr (Some items)) →
  ∃ itemss,
    Forall2 (λ res items, page res = inr (Some items)) (responses pages) itemss
    ∧ collectPages undefinedPage page pages = inr (concat itemss).
Proof.
  induction pages as [r | r rest IH]; intros Hall.
  - destruct (Hall r) as [items Hitems]; [apply list_elem_of_here|].
    exists [items]. split; [by repeat constructor|]. cbn. rewrite Hitems.
    by rewrite app_nil_r.
  - destruct (Hall r) as [items Hitems]; [apply list_elem_of_here|].
    destruct IH as (itemss & Hitemss & Hrest).
    { intros res Hres. apply Hall. by apply list_elem_of_further. }
    exists (items :: itemss). split; [by constructor|]. cbn. by rewrite Hitems, Hrest.
Qed.


End Pages.

Lemma handedOver_errored {A} (message : Api.response A → string) (res : Api.outcome A) :
  handedOver Api.errored message res
  = if broken res
    then inl (match res with
              | Api.rejected e => e
              | Api.resolved r => Js.Error (message r)
              end)
    else inr (delivered res).
Proof.
  unfold handedOver, broken, delivered. destruct res as [e | r]; [done|].
  by destruct (Api.errored r).
Qed.

(** ** Batches with failing fetches *)

Section Batches.
Import PlatformEnvironmentInfoService.
Context (lib : ClientNode.t) (remote : Remote.t).

Lemma releaseBindingsPage_result {σ} (r : Api.outcome (list NewReleaseBinding.t))
    (s : list Eff.entry * σ) :
  releaseBindingsPage r s
  = (handedOver Api.errored (λ _, "Failed to fetch release bindings") r, s).
Proof.
  unfold releaseBindingsPage. rewrite bind_run. destruct r as [e | r]; simpl; [done|].
  by destruct (Api.errored r).
Qed.

Lemma bindingsOf_collect (c : Component.t) :
  bindingsOf remote c
  = collectPages (Remote.undefinedPage remote)
      (handedOver Api.errored (λ _, "Failed to fetch release bindings"))
      (Remote.releasebindingPages remote
         (Component.namespaceName c) (Component.componentName c)).
Proof.
  unfold bindingsOf, Eff.result, Eff.run, fetchBindings.
  by rewrite (fetchAllPages_collect _ _ _ releaseBindingsPage_result).
Qed.

Lemma fetchBindings_result {σ} (c : Component.t) (s : list Eff.entry * σ) :
  fetchBindings remote c s = (bindingsOf remote c, s).
Proof.
  rewrite bindingsOf_collect. apply fetchAllPages_collect, releaseBindingsPage_result.
Qed.

Lemma countComponent_result (c : Component.t) (s : list Eff.entry * gmap string nat) :
  countComponent remote c s = (inr (), countStep remote c s).
Proof.
  unfold countComponent, Eff.try_catch, countStep, warned, warningOf, fetchedBindings.
  rewrite bind_run, fetchBindings_result.
  destruct (bindingsOf remote c) as [e | bindings]; simpl.
  - done.
  - unfold Eff.modify. by rewrite app_nil_r.
Qed.

Lemma healthyCount_result (c : Component.t) (s : list Eff.entry * nat) :
  healthyCount lib remote c s = (inr (readyBindings lib remote c), (warned remote s.1 c, s.2)).
Proof.
  unfold healthyCount, Eff.try_catch, warned, warningOf, readyBindings, fetchedBindings.
  rewrite bind_run, fetchBindings_result.
  destruct (bindingsOf remote c) as [e | bindings]; simpl.
  - done.
  - rewrite app_nil_r. by destruct s.
Qed.

Lemma foldl_unchanged {A S} (xs : list A) (s : S) : foldl (λ s _, s) s xs = s.
Proof. by induction xs. Qed.

(** [Promise.all] over callbacks that start with their [await]. *)
Lemma all_suspended {σ A B} (order : list nat) (rest : A → Eff.M σ B) (g : A → B)
    (step : A → list Eff.entry * σ → list Eff.entry * σ) :
  (∀ x s, rest x s = (inr (g x), step x s)) →
  ∀ xs s,
    Eff.all order (λ x, Eff.suspend (rest x)) xs s
    = (inr (g <$> xs), foldl (λ s x, step x s) s (Eff.settled order xs)).
Proof.
  intros Hrest xs s.
  rewrite (all_run order _ rest g (λ _ s, s) step) by done.
  by rewrite foldl_unchanged.
Qed.

(** What the loop records when its body records the settled batches. *)
Lemma recordSettled_run (order : nat → list nat) (fuel i : nat)
    (components : list Component.t) (l : list Eff.entry) (seen : list Component.t) :
  forBatches fuel i components (recordSettled order) (l, seen)
  = (inr (),
     (l, seen ++ (forBatches fuel i components (recordSettled order) ([], [])).2.2)).
Proof.
  revert i l seen. induction fuel as [|fuel IH]; intros i l seen;
    cbn [forBatches].
  - cbn. by rewrite app_nil_r.
  - case_bool_decide; [|cbn; by rewrite app_nil_r].
    rewrite !bind_run. unfold recordSettled at 1 3, Eff.modify. cbn [fst snd].
    rewrite IH. rewrite (IH _ [] ([] ++ _)). cbn [fst snd]. by rewrite app_nil_l, app_assoc.
Qed.

(** The loop runs its body batch after batch; a body that folds a step over
    the batch in the order of settling makes the loop fold it over the
    components in the order of completion. *)
Lemma forBatches_result {σ} (order : nat → list nat)
    (body : nat → list Component.t → Eff.M σ unit)
    (step : Component.t → list Eff.entry * σ → list Eff.entry * σ) :
  (∀ i batch s,
     body i batch s = (inr (), foldl (λ s c, step c s) s (Eff.settled (order i) batch))) →
  ∀ fuel i components s,
    forBatches fuel i components body s
    = (inr (),
       foldl (λ s c, step c s) s
         (forBatches fuel i components (recordSettled order) ([], [])).2.2).
Proof.
  intros Hbody fuel. induction fuel as [|fuel IH]; intros i components s;
    cbn [forBatches].
  - done.
  - case_bool_decide; [|done].
    rewrite !bind_run, Hbody, IH. unfold recordSettled at 2, Eff.modify. cbn [fst snd].
    rewrite app_nil_l, (recordSettled_run order fuel _ components [] (Eff.settled _ _)).
    cbn [fst snd]. by rewrite foldl_app.
Qed.

(** With the fuel given by the callers the loop gets through all
    components: the order of completion is an order of the components. *)
Lemma recordSettled_Permutation (order : nat → list nat) (fuel i : nat)
    (components : list Component.t) :
  (length components - i ≤ fuel)%nat →
  (forBatches fuel i components (recordSettled order) ([], [])).2.2
  ≡ₚ drop i components.
Proof.
  revert i. induction fuel as [|fuel IH]; intros i Hfuel; cbn [forBatches].
  - rewrite drop_ge by lia. done.
  - case_bool_decide as Hi; [|by rewrite drop_ge by lia].
    rewrite bind_run. unfold recordSettled at 1, Eff.modify. cbn [fst snd].
    rewrite app_nil_l, (recordSettled_run order fuel _ components [] (Eff.settled _ _)).
    cbn [fst snd].
    rewrite settled_Permutation, IH by (unfold batchSize; lia).
    unfold slice. replace (i + batchSize - i) with batchSize by lia.
    rewrite <- drop_drop. by rewrite take_drop.
Qed.

Lemma completionOrder_Permutation (method : string) (components : list Component.t) :
  completionOrder remote method components ≡ₚ components.
Proof.
  unfold completionOrder, Eff.run.
  rewrite recordSettled_Permutation by lia. by rewrite drop_0.
Qed.

(** When the requests of every batch are answered in the order in which
    they were sent, the callbacks complete in the order of the components. *)
Lemma recordSettled_request_order (order : nat → list nat) (fuel i : nat)
    (components : list Component.t) :
  (∀ i, order i = []) →
  (length components - i ≤ fuel)%nat →
  (forBatches fuel i components (recordSettled order) ([], [])).2.2 = drop i components.
Proof.
  intros Horder. revert i. induction fuel as [|fuel IH]; intros i Hfuel;
    cbn [forBatches].
  - rewrite drop_ge by lia. done.
  - case_bool_decide as Hi; [|by rewrite drop_ge by lia].
    rewrite bind_run. unfold recordSettled at 1, Eff.modify. cbn [fst snd].
    rewrite app_nil_l, (recordSettled_run order fuel _ components [] (Eff.settled _ _)).
    cbn [fst snd].
    rewrite Horder, settled_request_order, IH by (unfold batchSize; lia).
    unfold slice. replace (i + batchSize - i) with batchSize by lia.
    rewrite <- drop_drop. by rewrite take_drop.
Qed.

Lemma foldl_countStep (components : list Component.t) (s : list Eff.entry * gmap string nat) :
  foldl (λ s c, countStep remote c s) s components
  = (s.1 ++ omap (warningOf remote) components, accumulated remote s.2 components).
Proof.
  revert s. induction components as [|c components IH]; intros s; simpl.
  - rewrite app_nil_r. by destruct s.
  - rewrite IH. unfold countStep, warned, accumulated. simpl.
    rewrite <- (assoc_L (++)). by destruct (warningOf remote c).
Qed.

Lemma foldl_healthyStep (components : list Component.t) (s : list Eff.entry * nat) :
  foldl (λ s c, healthyStep lib remote c s) s components
  = (s.1 ++ omap (warningOf remote) components,
     s.2 + sum_list (readyBindings lib remote <$> components)).
Proof.
  revert s. induction components as [|c components IH]; intros s; simpl.
  - rewrite app_nil_r, Nat.add_0_r. by destruct s.
  - rewrite IH. unfold healthyStep, warned. simpl.
    rewrite <- (assoc_L (++)), <- (assoc_L Nat.add). by destruct (warningOf remote c).
Qed.

Lemma foldl_sum (counts : list nat) (n : nat) :
  foldl (λ sum count, sum + count) n counts = n + sum_list counts.
Proof.
  revert n. induction counts as [|count counts IH]; intros n; simpl; [lia|].
  rewrite IH. lia.
Qed.

Lemma foldl_warned {σ} (components : list Component.t) (s : list Eff.entry * σ) :
  foldl (λ s c, (warned remote s.1 c, s.2)) s components
  = (s.1 ++ omap (warningOf remote) components, s.2).
Proof.
  revert s. induction components as [|c components IH]; intros s; simpl.
  - rewrite app_nil_r. by destruct s.
  - rewrite IH. unfold warned. simpl.
    rewrite <- (assoc_L (++)). by destruct (warningOf remote c).
Qed.

Lemma sum_list_fmap_Permutation {A} (f : A → nat) (l l' : list A) :
  l ≡ₚ l' → sum_list (f <$> l) = sum_list (f <$> l').
Proof. intros Hperm. unfold sum_list. by rewrite Hperm. Qed.

Lemma healthyBatch_result (i : nat) (batch : list Component.t) (s : list Eff.entry * nat) :
  healthyBatch lib remote i batch s
  = (inr (),
     foldl (λ s c, healthyStep lib remote c s) s
       (Eff.settled (Remote.settleOrder remote "fetchHealthyWorkloadCount" i) batch)).
Proof.
  unfold healthyBatch. rewrite bind_run.
  rewrite (all_suspended _ _ (readyBindings lib remote) (λ c s, (warned remote s.1 c, s.2)))
    by apply healthyCount_result.
  unfold Eff.modify. rewrite foldl_healthyStep, foldl_sum, foldl_warned. cbn [fst snd].
  do 3 f_equal. apply sum_list_fmap_Permutation. by rewrite settled_Permutation.
Qed.

Lemma countBatch_result (i : nat) (batch : list Component.t)
    (s : list Eff.entry * gmap string nat) :
  (Eff.all (Remote.settleOrder remote "fetchComponentCountsPerEnvironment" i)
     (λ component, Eff.suspend (countComponent remote component)) batch;; mret ()) s
  = (inr (),
     foldl (λ s c, countStep remote c s) s
       (Eff.settled (Remote.settleOrder remote "fetchComponentCountsPerEnvironment" i)
          batch)).
Proof.
  rewrite bind_run.
  by rewrite (all_suspended _ _ (λ _, ()) (countStep remote)) by apply countComponent_result.
Qed.

Lemma warnings_app (es es' : list Eff.entry) :
  Eff.warnings (es ++ es') = Eff.warnings es ++ Eff.warnings es'.
Proof. unfold Eff.warnings. apply filter_app. Qed.

Lemma warnings_debug (msg : string) (c : option Js.thrown) :
  Eff.warnings [{| Eff.lvl := Eff.debug; Eff.message := msg; Eff.cause := c |}] = [].
Proof. done. Qed.

Lemma warnings_of_failures (components : list Component.t) :
  Eff.warnings (omap (warningOf remote) components) = omap (warningOf remote) components.
Proof.
  unfold Eff.warnings. induction components as [|c components IH]; simpl; [done|].
  destruct (warningOf remote c) as [w|] eqn:Hw; [|exact IH].
  assert (Eff.lvl w = Eff.warn) as Hlvl.
  { unfold warningOf in Hw. destruct (bindingsOf remote c); by simplify_eq. }
  rewrite filter_cons, decide_True by done. f_equal. exact IH.
Qed.

Lemma failures_counted (components : list Component.t) :
  length (omap (warningOf remote) components)
  = length (List.filter (λ c, negb (fetchSucceeds remote c)) components).
Proof.
  induction components as [|c components IH]; simpl; [done|].
  destruct (warningOf remote c) eqn:Hw, (fetchSucceeds remote c) eqn:Hs; simpl;
    unfold warningOf, fetchSucceeds in Hw, Hs;
    destruct (bindingsOf remote c); simplify_eq; [f_equal|]; exact IH.
Qed.

Lemma succeeded_sum (f : Component.t → nat) (components : list Component.t) :
  (∀ c, fetchSucceeds remote c = false → f c = 0) →
  sum_list (f <$> components)
  = sum_list (f <$> List.filter (fetchSucceeds remote) components).
Proof.
  intros Hzero. induction components as [|c components IH]; [done|].
  rewrite fmap_cons. cbn [List.filter sum_list sum_list_with].
  destruct (fetchSucceeds remote c) eqn:Hc.
  - rewrite fmap_cons. cbn [sum_list sum_list_with]. by rewrite <- IH.
  - by rewrite (Hzero c Hc), <- IH.
Qed.

(** The increments of the counters commute. *)
Lemma countBinding_commute (c c' : Component.t) (binding binding' : NewReleaseBinding.t)
    (counts : gmap string nat) :
  countBinding c' (countBinding c counts binding) binding'
  = countBinding c (countBinding c' counts binding') binding.
Proof.
  unfold countBinding.
  destruct (NewReleaseBinding.spec binding ≫= NewReleaseBinding.environment) as [name|];
    [|done].
  destruct (NewReleaseBinding.spec binding' ≫= NewReleaseBinding.environment)
    as [name'|]; [|done].
  destruct (Js.truthy (Some name)); [|done]. destruct (Js.truthy (Some name')); [|done].
  destruct (decide (Component.namespaceName c +:+ "/" +:+ name
                    = Component.namespaceName c' +:+ "/" +:+ name')) as [->|Hne]; [done|].
  rewrite !lookup_insert_ne by done. by apply insert_insert_ne.
Qed.

Lemma foldl_foldl_commute {A B S} (f : S → A → S) (g : S → B → S)
    (xs : list A) (ys : list B) (s : S) :
  (∀ s x y, g (f s x) y = f (g s y) x) →
  foldl g (foldl f s xs) ys = foldl f (foldl g s ys) xs.
Proof.
  intros Hfg. revert s. induction ys as [|y ys IH]; intros s; simpl; [done|].
  rewrite <- IH. f_equal. clear IH. revert s.
  induction xs as [|x xs IH]; intros s; simpl; [done|]. by rewrite IH, Hfg.
Qed.

Lemma accumulated_Permutation (components components' : list Component.t)
    (counts : gmap string nat) :
  components ≡ₚ components' →
  accumulated remote counts components = accumulated remote counts components'.
Proof.
  unfold accumulated. apply foldl_commute. intros m c c'.
  apply foldl_foldl_commute. intros. apply countBinding_commute.
Qed.

Lemma fetchHealthyWorkloadCount_run (components : list Component.t) :
  Eff.run (fetchHealthyWorkloadCount lib remote components) 0
  = (inr (sum_list (readyBindings lib remote <$> components)),
     ([{| Eff.lvl := Eff.debug;
          Eff.message := "Starting healthy workload count for "
                         +:+ Js.show (length components) +:+ " components";
          Eff.cause := None |}]
      ++ omap (warningOf remote)
           (completionOrder remote "fetchHealthyWorkloadCount" components)
      ++ [{| Eff.lvl := Eff.debug;
             Eff.message :=
               "Healthy workload count completed: Found "
               +:+ Js.show (sum_list (readyBindings lib remote <$> components))
               +:+ " healthy workloads (" +:+ elapsed remote +:+ "ms)";
             Eff.cause := None |}],
      sum_list (readyBindings lib remote <$> components))).
Proof.
  unfold Eff.run, fetchHealthyWorkloadCount, Eff.try_catch.
  rewrite bind_run. unfold Eff.log at 1. simpl.
  rewrite bind_run.
  rewrite (forBatches_result _ _ (healthyStep lib remote)) by apply healthyBatch_result.
  rewrite foldl_healthyStep. fold (completionOrder remote "fetchHealthyWorkloadCount" components).
  rewrite (sum_list_fmap_Permutation _ _ _
             (completionOrder_Permutation "fetchHealthyWorkloadCount" components)).
  done.
Qed.

Lemma fetchComponentCountsPerEnvironment_run (components : list Component.t) :
  Eff.run (fetchComponentCountsPerEnvironment remote components) ∅
  = (inr (accumulated remote ∅ components),
     ([{| Eff.lvl := Eff.debug;
          Eff.message := "Starting component counts fetch for "
                         +:+ Js.show (length components) +:+ " components";
          Eff.cause := None |}]
      ++ omap (warningOf remote)
           (completionOrder remote "fetchComponentCountsPerEnvironment" components)
      ++ [{| Eff.lvl := Eff.debug;
             Eff.message :=
               "Component counts fetch completed: Found deployments in "
               +:+ Js.show (size (accumulated remote ∅ components))
               +:+ " environments (" +:+ elapsed remote +:+ "ms)";
             Eff.cause := None |}],
      accumulated remote ∅ components)).
Proof.
  unfold Eff.run, fetchComponentCountsPerEnvironment, Eff.try_catch.
  rewrite bind_run. unfold Eff.log at 1. simpl.
  rewrite bind_run.
  rewrite (forBatches_result _ _ (countStep remote)) by apply countBatch_result.
  rewrite foldl_countStep.
  fold (completionOrder remote "fetchComponentCountsPerEnvironment" components).
  rewrite (accumulated_Permutation _ _ _
             (completionOrder_Permutation "fetchComponentCountsPerEnvironment" components)).
  done.
Qed.

End Batches.

Lemma accumulated_succeeding (remote : Remote.t) (components : list Component.t)
    (counts : gmap string nat) :
  accumulated remote counts components
  = accumulated remote counts (List.filter (fetchSucceeds remote) components).
Proof.
  unfold accumulated. revert counts.
  induction components as [|c components IH]; intros counts; [done|].
  cbn [List.filter foldl]. destruct (fetchSucceeds remote c) eqn:Hc.
  - cbn [foldl]. apply IH.
  - rewrite <- IH. unfold fetchSucceeds in Hc. unfold fetchedBindings.
    by destruct (bindingsOf remote c).
Qed.

Lemma accumulated_lookup (remote : Remote.t) (components : list Component.t)
    (counts : gmap string nat) (key : string) :
  default 0 (accumulated remote counts components !! key)
  = default 0 (counts !! key)
    + sum_list ((λ c, length (countedUnder c key (fetchedBindings remote c)))
                  <$> components).
Proof.
  unfold accumulated. revert counts.
  induction components as [|c components IH]; intros counts.
  - rewrite fmap_nil. cbn [foldl sum_list sum_list_with]. lia.
  - cbn [foldl]. rewrite IH, countBindings_lookup, fmap_cons.
    cbn [sum_list sum_list_with id]. lia.
Qed.

Lemma accumulated_total (remote : Remote.t) (components : list Component.t)
    (counts : gmap string nat) :
  totalCount (accumulated remote counts components)
  = totalCount counts
    + sum_list ((λ c, length (withEnvironment (fetchedBindings remote c))) <$> components).
Proof.
  unfold accumulated. revert counts.
  induction components as [|c components IH]; intros counts.
  - rewrite fmap_nil. cbn [foldl sum_list sum_list_with]. lia.
  - cbn [foldl]. rewrite IH, countBindings_total, fmap_cons.
    cbn [sum_list sum_list_with id]. lia.
Qed.

(** The counters do not depend on the order in which the callbacks of a
    batch settle. *)
Lemma accumulated_settle_order (remote : Remote.t) (components components' : list Component.t)
    (counts : gmap string nat) (key : string) :
  components ≡ₚ components' →
  default 0 (accumulated remote counts components !! key)
  = default 0 (accumulated remote counts components' !! key).
Proof. intros Hperm. rewrite !accumulated_lookup. by rewrite Hperm. Qed.

Lemma delivered_items {A} (message : Api.response (list A) → string)
    (pages : list (Api.outcome (list A))) (itemss : list (list A)) :
  Forall2 (λ res items, handedOver Api.errored message res = inr (Some items))
    pages itemss →
  omap delivered pages = itemss.
Proof.
  induction 1 as [|res items pages itemss Hres _ IH]; [done|].
  rewrite handedOver_errored in Hres. destruct (broken res); [done|].
  simplify_eq. cbn. rewrite Hres. by f_equal.
Qed.

Lemma delivered_handedOver {A} (message : Api.response (list A) → string)
    (res : Api.outcome (list A)) :
  is_Some (delivered res) → ∃ items, handedOver Api.errored message res = inr (Some items).
Proof.
  intros [items Hitems]. exists items. rewrite handedOver_errored.
  unfold broken, delivered in *. destruct res as [e | r]; [done|].
  destruct (Api.errored r); [done|]. by rewrite Hitems.
Qed.

(** C8: when fetching the bindings of some components fails, each failure
    is caught and logged as one warning and counts as nothing.
    fetchHealthyWorkloadCount returns the sum of the ready bindings of the
    components whose fetch succeeds; fetchComponentCountsPerEnvironment
    returns the counters accumulated from the bindings of those components
    only; both return normally, whatever the remote answers and in whatever
    order the requests of a batch are answered.  The warnings appear in the
    order in which the callbacks complete.  A fetch fails when a page
    request, reached after pages that delivered their items, is rejected or
    answered with an error value; it succeeds, with the items of all pages,
    when every page delivers. *)
Theorem batch_failures_count_zero
    (lib : ClientNode.t) (remote : Remote.t) (components : list Component.t) :
  let healthy :=
    Eff.run (PlatformEnvironmentInfoService.fetchHealthyWorkloadCount lib remote components) 0 in
  let counts :=
    Eff.run (PlatformEnvironmentInfoService.fetchComponentCountsPerEnvironment
               remote components) ∅ in
  let succeeding := List.filter (fetchSucceeds remote) components in
  let failing := List.filter (λ c, negb (fetchSucceeds remote c)) components in
  let pagesOf c :=
    responses (Remote.releasebindingPages remote
                 (Component.namespaceName c) (Component.componentName c)) in
  Eff.result healthy
  = inr (sum_list ((λ c, length (List.filter
                                   (λ binding, ClientNode.isReady lib
                                                 (NewReleaseBinding.obj binding))
                                   (fetchedBindings remote c))) <$> succeeding))
  ∧ Eff.warnings (Eff.logged healthy)
    = omap (warningOf remote)
        (completionOrder remote "fetchHealthyWorkloadCount" components)
  ∧ Eff.warnings (Eff.logged healthy) ≡ₚ omap (warningOf remote) components
  ∧ length (Eff.warnings (Eff.logged healthy)) = length failing
  ∧ Forall (λ e, Eff.lvl e ≠ Eff.error) (Eff.logged healthy)
  ∧ Eff.result counts = inr (accumulated remote ∅ succeeding)
  ∧ (∀ key,
       default 0 (accumulated remote ∅ succeeding !! key)
       = sum_list ((λ c, length (countedUnder c key (fetchedBindings remote c)))
                     <$> succeeding))
  ∧ totalCount (accumulated remote ∅ succeeding)
    = sum_list ((λ c, length (withEnvironment (fetchedBindings remote c))) <$> succeeding)
  ∧ Eff.warnings (Eff.logged counts)
    = omap (warningOf remote)
        (completionOrder remote "fetchComponentCountsPerEnvironment" components)
  ∧ Eff.warnings (Eff.logged counts) ≡ₚ omap (warningOf remote) components
  ∧ length (Eff.warnings (Eff.logged counts)) = length failing
  ∧ Forall (λ e, Eff.lvl e ≠ Eff.error) (Eff.logged counts)
  ∧ (∀ method, completionOrder remote method components ≡ₚ components)
  ∧ (∀ c k res,
       pagesOf c !! k = Some res → broken res = true →
       (∀ j res', (j < k)%nat → pagesOf c !! j = Some res' → is_Some (delivered res')) →
       fetchSucceeds remote c = false
       ∧ warningOf remote c
         = Some {| Eff.lvl := Eff.warn;
                   Eff.message :=
                     "Failed to fetch bindings for component "
                     +:+ Component.namespaceName c +:+ "/"
                     +:+ Component.projectName c +:+ "/"
                     +:+ Component.componentName c +:+ ":";
                   Eff.cause :=
                     Some (Js.asError
                             match res with
                             | Api.rejected e => e
                             | Api.resolved _ =>
                                 Js.Error "Failed to fetch release bindings"
                             end) |})
  ∧ (∀ c, (∀ res, res ∈ pagesOf c → is_Some (delivered res)) →
          fetchSucceeds remote c = true
          ∧ fetchedBindings remote c = concat (omap delivered (pagesOf c))).
Proof.
  intros healthy counts succeeding failing pagesOf.
  assert (Forall (λ e, Eff.lvl e ≠ Eff.error) (omap (warningOf remote) components))
    as Hnoerr.
  { apply Forall_forall. intros w (c & _ & Hw)%list_elem_of_omap.
    unfold warningOf in Hw. destruct (bindingsOf remote c); by simplify_eq. }
  assert (∀ method, Forall (λ e, Eff.lvl e ≠ Eff.error)
            (omap (warningOf remote) (completionOrder remote method components)))
    as Hnoerr'.
  { intros method. by rewrite (completionOrder_Permutation remote method components). }
  assert (∀ method, length (omap (warningOf remote)
                              (completionOrder remote method components))
                    = length failing) as Hcount.
  { intros method. rewrite (completionOrder_Permutation remote method components).
    apply failures_counted. }
  unfold healthy, counts.
  rewrite fetchHealthyWorkloadCount_run, fetchComponentCountsPerEnvironment_run.
  unfold Eff.result, Eff.logged. cbn [fst snd].
  rewrite !warnings_app, !warnings_of_failures, !warnings_debug, !app_nil_r.
  cbn [app]. split_and!.
  - f_equal. apply (succeeded_sum remote (readyBindings lib remote)).
    intros c Hc. unfold readyBindings, fetchedBindings, fetchSucceeds in *.
    by destruct (bindingsOf remote c).
  - done.
  - by rewrite completionOrder_Permutation.
  - apply Hcount.
  - constructor; [done|]. apply Forall_app. split; [apply Hnoerr' | by repeat constructor].
  - f_equal. apply accumulated_succeeding.
  - intros key. rewrite accumulated_lookup. by rewrite lookup_empty.
  - rewrite accumulated_total. unfold totalCount at 1. by rewrite map_fold_empty.
  - done.
  - by rewrite completionOrder_Permutation.
  - apply Hcount.
  - constructor; [done|]. apply Forall_app. split; [apply Hnoerr' | by repeat constructor].
  - intros method. apply completionOrder_Permutation.
  - intros c k res Hk Hbroken Hbefore.
    assert (bindingsOf remote c
            = inl match res with
                  | Api.rejected e => e
                  | Api.resolved _ => Js.Error "Failed to fetch release bindings"
                  end) as Hfails.
    { rewrite bindingsOf_collect. apply (collectPages_throws _ _ _ k res); [exact Hk | |].
      - rewrite handedOver_errored, Hbroken. by destruct res.
      - intros j res' Hj Hres'. by eapply delivered_handedOver, Hbefore. }
    unfold fetchSucceeds, warningOf. by rewrite Hfails.
  - intros c Hall.
    destruct (collectPages_returns (Remote.undefinedPage remote)
                (handedOver Api.errored (λ _, "Failed to fetch release bindings"))
                (Remote.releasebindingPages remote
                   (Component.namespaceName c) (Component.componentName c)))
      as (itemss & Hitemss & Hcollect).
    { intros res Hres. by apply delivered_handedOver, Hall. }
    unfold fetchSucceeds, fetchedBindings. rewrite bindingsOf_collect, Hcollect.
    split; [done|]. f_equal. symmetry. by eapply delivered_items.
Qed.

Lemma batch_failures_count_zero_witness :
  fetchSucceeds sampleRemote <$> sampleComponents
  = [true; false; true; true; true; true; true; true; true; true; true; true]
  ∧ Eff.result
      (Eff.run (PlatformEnvironmentInfoService.fetchHealthyWorkloadCount
                  sampleLib sampleRemote sampleComponents) 0)
    = inr 33
  ∧ length (Eff.warnings (Eff.logged
      (Eff.run (PlatformEnvironmentInfoService.fetchHealthyWorkloadCount
                  sampleLib sampleRemote sampleComponents) 0))) = 1
  ∧ completionOrder sampleRemote "fetchHealthyWorkloadCount" sampleComponents
    = component "acme" <$>
        ["search"; "mail"; "auth"; "cart"; "pay"; "feed"; "chat"; "maps"; "ads"; "logs";
         "jobs"; "docs"].
Proof.
  split; [by vm_compute|].
  pose proof (batch_failures_count_zero sampleLib sampleRemote sampleComponents) as H.
  cbv zeta in H. destruct H as (Hsum & _ & _ & Hwarn & _).
  split_and!; [rewrite Hsum | rewrite Hwarn |]; by vm_compute.
Defined.

(** ** Failing list fetches *)








(* ===================================================================== *)
(** * Further properties *)
(* ===================================================================== *)

(** ** The batch loop *)

Lemma forBatches_record (fuel i : nat) (components : list Component.t)
    (es : list Eff.entry) (seen : list (list Component.t)) :
  (length components - i ≤ fuel)%nat →
  ∃ batches,
    PlatformEnvironmentInfoService.forBatches fuel i components (λ _, recordBatch) (es, seen)
    = (inr (), (es, seen ++ batches))
    ∧ concat batches = drop i components
    ∧ length batches = (length components - i + 9) / 10
    ∧ ∀ k batch, batches !! k = Some batch →
                 batch = take 10 (drop (i + 10 * k) components)
                 ∧ (i + 10 * k < length components)%nat.
Proof.
  revert i seen. induction fuel as [|fuel IH]; intros i seen Hfuel;
    cbn [PlatformEnvironmentInfoService.forBatches].
  - exists []. rewrite app_nil_r. split_and!; [done | | | done].
    + by rewrite drop_ge by lia.
    + cbn [length]. symmetry. apply Nat.div_small. lia.
  - case_bool_decide as Hi.
    + destruct (IH (i + PlatformEnvironmentInfoService.batchSize) (seen ++
        [PlatformEnvironmentInfoService.slice i
           (i + PlatformEnvironmentInfoService.batchSize) components]))
        as (batches & Hrun & Hcat & Hlen & Hnth).
      { unfold PlatformEnvironmentInfoService.batchSize. lia. }
      exists (PlatformEnvironmentInfoService.slice i
                (i + PlatformEnvironmentInfoService.batchSize) components :: batches).
      split_and!.
      * rewrite bind_run. unfold recordBatch at 1, Eff.modify. cbn [fst snd].
        rewrite Hrun. by rewrite <- (assoc_L (++)).
      * cbn [concat]. rewrite Hcat. unfold PlatformEnvironmentInfoService.slice.
        replace (i + PlatformEnvironmentInfoService.batchSize - i)
          with PlatformEnvironmentInfoService.batchSize by lia.
        rewrite <- drop_drop. by rewrite take_drop.
      * cbn [length]. rewrite Hlen.
        unfold PlatformEnvironmentInfoService.batchSize.
        pose proof (Nat.div_mod (length components - (i + 10) + 9) 10).
        pose proof (Nat.mod_upper_bound (length components - (i + 10) + 9) 10).
        pose proof (Nat.div_mod (length components - i + 9) 10).
        pose proof (Nat.mod_upper_bound (length components - i + 9) 10).
        lia.
      * intros [|k] batch Hk; [apply (inj Some) in Hk as <- | cbn in Hk].
        -- unfold PlatformEnvironmentInfoService.slice,
             PlatformEnvironmentInfoService.batchSize.
           replace (i + 10 - i) with 10 by lia. rewrite Nat.add_0_r. done.
        -- destruct (Hnth k batch Hk) as [-> Hlt].
           unfold PlatformEnvironmentInfoService.batchSize in *.
           split; [f_equal; f_equal; lia | lia].
    + exists []. rewrite app_nil_r. split_and!; [done | | | done].
      * by rewrite drop_ge by lia.
      * cbn [length]. symmetry. apply Nat.div_small. lia.
Qed.

(** X1: the batch loop shared by the aggregation methods hands every
    component to its body exactly once and in order.  Batch number k (from
    0) is components.slice(10k, 10k + 10); there are ceil(n / 10) batches,
    none is empty, none has more than 10 components, and every batch but
    the last has exactly 10. *)
Theorem batches_cover_components (components : list Component.t) :
  concat (batchesOf components) = components
  ∧ length (batchesOf components) = (length components + 9) / 10
  ∧ (∀ k batch, batchesOf components !! k = Some batch →
       batch = take 10 (drop (10 * k) components)
       ∧ (0 < length batch ≤ 10)%nat
       ∧ ((S k < length (batchesOf components))%nat → length batch = 10)).
Proof.
  destruct (forBatches_record (length components) 0 components [] [])
    as (batches & Hrun & Hcat & Hlen & Hnth); [lia|].
  assert (batchesOf components = batches) as ->.
  { unfold batchesOf, Eff.run. by rewrite Hrun. }
  rewrite Nat.sub_0_r in Hlen. rewrite drop_0 in Hcat.
  split_and!; [done | done |].
  intros k batch Hk. destruct (Hnth _ _ Hk) as [-> Hlt]. simpl in Hlt.
  rewrite length_take, length_drop. split_and!.
  - done.
  - lia.
  - lia.
  - intros Hnext. rewrite Hlen in Hnext.
    assert (S (S k) * 10 ≤ length components + 9)%nat.
    { pose proof (Nat.div_mod (length components + 9) 10).
      pose proof (Nat.mod_upper_bound (length components + 9) 10). nia. }
    lia.
Qed.

(** ** Listing namespaces, environments and data planes *)

Section Listings.
Import PlatformEnvironmentInfoService.
Context (lib : ClientNode.t) (remote : Remote.t).

Lemma fetchNamespaceNames_run (s : list Eff.entry * ()) :
  fetchNamespaceNames lib remote s =
    match Remote.namespaces remote with
    | Api.rejected e => (inl e, s)
    | Api.resolved r =>
        if Api.failed r then
          (inr [],
           (s.1 ++ [{| Eff.lvl := Eff.error;
                       Eff.message := "Failed to fetch namespaces: "
                                      +:+ Js.show (Api.status r) +:+ " "
                                      +:+ Api.statusText r;
                       Eff.cause := None |}], s.2))
        else
          match Api.data r with
          | None =>
              (inr [],
               (s.1 ++ [{| Eff.lvl := Eff.warn; Eff.message := "No namespaces found";
                           Eff.cause := None |}], s.2))
          | Some items =>
              (inr (omap (λ ns, let name := ClientNode.getName lib ns in
                                if Js.truthy name then name else None) items), s)
          end
    end.
Proof.
  unfold fetchNamespaceNames. rewrite bind_run.
  destruct (Remote.namespaces remote) as [e | r]; simpl; [done|].
  destruct (Api.failed r); [done|]. by destruct (Api.data r).
Qed.

Lemma fetchEnvironmentsByNamespace_fst (namespaceName : string)
    (s : list Eff.entry * ()) :
  (fetchEnvironmentsByNamespace lib remote namespaceName s).1 =
    inr match Remote.environments remote namespaceName with
        | Api.rejected _ => []
        | Api.resolved r =>
            if Api.failed r then []
            else match Api.data r with
                 | None => []
                 | Some items => transformEnvironmentData lib items namespaceName
                 end
        end.
Proof.
  unfold fetchEnvironmentsByNamespace, fetchEnvironmentsByNamespaceAsync.
  rewrite awaited_try_async. unfold Eff.try_catch.
  rewrite bind_run. unfold Eff.log at 1. cbn [fst snd]. rewrite bind_run.
  destruct (Remote.environments remote namespaceName) as [e | r]; simpl; [done|].
  destruct (Api.failed r); [done|]. by destruct (Api.data r).
Qed.

Lemma fetchDataplanesByNamespace_fst (namespaceName : string)
    (s : list Eff.entry * ()) :
  (fetchDataplanesByNamespace lib remote namespaceName s).1 =
    inr match Remote.dataplanes remote namespaceName with
        | Api.rejected _ => []
        | Api.resolved r =>
            if Api.failed r then []
            else match Api.data r with
                 | None => []
                 | Some items => transformDataPlaneData lib items namespaceName
                 end
        end.
Proof.
  unfold fetchDataplanesByNamespace, fetchDataplanesByNamespaceAsync.
  rewrite awaited_try_async. unfold Eff.try_catch.
  rewrite bind_run. unfold Eff.log at 1. cbn [fst snd]. rewrite bind_run.
  destruct (Remote.dataplanes remote namespaceName) as [e | r]; simpl; [done|].
  destruct (Api.failed r); [done|]. by destruct (Api.data r).
Qed.

Lemma environmentsIn_cases (namespaceName : string) :
  environmentsIn lib remote namespaceName =
    match Remote.environments remote namespaceName with
    | Api.rejected _ => []
    | Api.resolved r =>
        if Api.failed r then []
        else match Api.data r with
             | None => []
             | Some items => transformEnvironmentData lib items namespaceName
             end
    end.
Proof.
  unfold environmentsIn, returned, Eff.result, Eff.run.
  by rewrite fetchEnvironmentsByNamespace_fst.
Qed.

Lemma dataplanesIn_cases (namespaceName : string) :
  dataplanesIn lib remote namespaceName =
    match Remote.dataplanes remote namespaceName with
    | Api.rejected _ => []
    | Api.resolved r =>
        if Api.failed r then []
        else match Api.data r with
             | None => []
             | Some items => transformDataPlaneData lib items namespaceName
             end
    end.
Proof.
  unfold dataplanesIn, returned, Eff.result, Eff.run.
  by rewrite fetchDataplanesByNamespace_fst.
Qed.

Lemma fetchEnvironmentsByNamespace_returns (namespaceName : string)
    (s : list Eff.entry * ()) :
  (fetchEnvironmentsByNamespace lib remote namespaceName s).1
  = inr (environmentsIn lib remote namespaceName).
Proof. by rewrite fetchEnvironmentsByNamespace_fst, environmentsIn_cases. Qed.

Lemma fetchDataplanesByNamespace_returns (namespaceName : string)
    (s : list Eff.entry * ()) :
  (fetchDataplanesByNamespace lib remote namespaceName s).1
  = inr (dataplanesIn lib remote namespaceName).
Proof. by rewrite fetchDataplanesByNamespace_fst, dataplanesIn_cases. Qed.

(** [Promise.all] over calls of a method that logs, sends its request and
    catches whatever follows: every call gives what the method returns. *)
Lemma all_returns {A B} (order : list nat) (l : A → Eff.level) (m : A → string)
    (rest : A → Eff.M () B) (handler : A → Js.thrown → Eff.M () B) (g : A → B) :
  (∀ x s, (Eff.try_catch (rest x) (handler x) s).1 = inr (g x)) →
  ∀ xs s,
    (Eff.all order
       (λ x, Eff.try_async (Eff.log (l x) (m x) None;; Eff.suspend (rest x)) (handler x))
       xs s).1
    = inr (g <$> xs).
Proof.
  intros Hrest xs s.
  rewrite (all_run order _ (λ x, Eff.try_catch (rest x) (handler x)) g
             (λ x s, (s.1 ++ [{| Eff.lvl := l x; Eff.message := m x; Eff.cause := None |}],
                      s.2))
             (λ x s, (Eff.try_catch (rest x) (handler x) s).2)); [done | done |].
  intros x s'. rewrite <- (Hrest x s'). by destruct (Eff.try_catch _ _ s').
Qed.

Lemma fetchAllEnvironments_returns (s : list Eff.entry * ()) :
  (fetchAllEnvironments lib remote s).1
  = inr (concat (environmentsIn lib remote <$> platformNamespaces lib remote)).
Proof.
  unfold platformNamespaces, returned, Eff.result, Eff.run, fetchAllEnvironments,
    Eff.try_catch.
  rewrite bind_run. unfold Eff.log at 1. cbn [fst snd].
  rewrite bind_run, !fetchNamespaceNames_run.
  destruct (Remote.namespaces remote) as [e | r]; simpl; [done|].
  destruct (Api.failed r); [done|]. destruct (Api.data r) as [items|]; [|done].
  simpl. rewrite bind_run.
  match goal with |- context [Eff.all ?order ?f ?xs ?st] =>
    assert ((Eff.all order f xs st).1 = inr (environmentsIn lib remote <$> xs)) as Hall;
    [|destruct (Eff.all order f xs st) as [[e | results] st']]
  end; [|simpl in Hall; simplify_eq..]; [|done].
  unfold fetchEnvironmentsByNamespaceAsync. apply all_returns. intros ns s'.
  rewrite environmentsIn_cases. unfold Eff.try_catch. rewrite bind_run.
  destruct (Remote.environments remote ns) as [e' | r']; simpl; [done|].
  destruct (Api.failed r'); [done|]. by destruct (Api.data r').
Qed.

Lemma fetchAllDataplanes_returns (s : list Eff.entry * ()) :
  (fetchAllDataplanes lib remote s).1
  = inr (concat (dataplanesIn lib remote <$> platformNamespaces lib remote)).
Proof.
  unfold platformNamespaces, returned, Eff.result, Eff.run, fetchAllDataplanes,
    Eff.try_catch.
  rewrite bind_run. unfold Eff.log at 1. cbn [fst snd].
  rewrite bind_run, !fetchNamespaceNames_run.
  destruct (Remote.namespaces remote) as [e | r]; simpl; [done|].
  destruct (Api.failed r); [done|]. destruct (Api.data r) as [items|]; [|done].
  simpl. rewrite bind_run.
  match goal with |- context [Eff.all ?order ?f ?xs ?st] =>
    assert ((Eff.all order f xs st).1 = inr (dataplanesIn lib remote <$> xs)) as Hall;
    [|destruct (Eff.all order f xs st) as [[e | results] st']]
  end; [|simpl in Hall; simplify_eq..]; [|done].
  unfold fetchDataplanesByNamespaceAsync. apply all_returns. intros ns s'.
  rewrite dataplanesIn_cases. unfold Eff.try_catch. rewrite bind_run.
  destruct (Remote.dataplanes remote ns) as [e' | r']; simpl; [done|].
  destruct (Api.failed r'); [done|]. by destruct (Api.data r').
Qed.

End Listings.

Lemma elem_of_concat {A} (x : A) (ls : list (list A)) :
  x ∈ concat ls ↔ ∃ l, x ∈ l ∧ l ∈ ls.
Proof.
  rewrite list_elem_of_In, in_concat. setoid_rewrite list_elem_of_In.
  split; intros (l & ? & ?); eauto.
Qed.

Lemma fetchAllEnvironments_platform (lib : ClientNode.t) (remote : Remote.t)
    (s : list Eff.entry * ()) :
  (PlatformEnvironmentInfoService.fetchAllEnvironments lib remote s).1
  = inr (platformEnvironments lib remote).
Proof.
  unfold platformEnvironments, returned, Eff.result, Eff.run.
  by rewrite !fetchAllEnvironments_returns.
Qed.

Lemma fetchAllDataplanes_platform (lib : ClientNode.t) (remote : Remote.t)
    (s : list Eff.entry * ()) :
  (PlatformEnvironmentInfoService.fetchAllDataplanes lib remote s).1
  = inr (platformDataplanes lib remote).
Proof.
  unfold platformDataplanes, returned, Eff.result, Eff.run.
  by rewrite !fetchAllDataplanes_returns.
Qed.

Lemma environmentsIn_namespace (lib : ClientNode.t) (remote : Remote.t)
    (namespaceName : string) (env : Environment.t) :
  env ∈ environmentsIn lib remote namespaceName →
  Environment.namespaceName env = namespaceName.
Proof.
  rewrite environmentsIn_cases.
  destruct (Remote.environments remote namespaceName) as [e | r];
    [by intros ?%elem_of_nil|].
  destruct (Api.failed r); [by intros ?%elem_of_nil|].
  destruct (Api.data r) as [items|]; [|by intros ?%elem_of_nil].
  unfold PlatformEnvironmentInfoService.transformEnvironmentData.
  intros Hin. apply list_elem_of_In, in_map_iff in Hin as (raw & <- & _). done.
Qed.

Lemma dataplanesIn_namespace (lib : ClientNode.t) (remote : Remote.t)
    (namespaceName : string) (dp : DataPlane.t) :
  dp ∈ dataplanesIn lib remote namespaceName →
  DataPlane.namespaceName dp = namespaceName.
Proof.
  rewrite dataplanesIn_cases.
  destruct (Remote.dataplanes remote namespaceName) as [e | r];
    [by intros ?%elem_of_nil|].
  destruct (Api.failed r); [by intros ?%elem_of_nil|].
  destruct (Api.data r) as [items|]; [|by intros ?%elem_of_nil].
  unfold PlatformEnvironmentInfoService.transformDataPlaneData.
  intros Hin. apply list_elem_of_In, in_map_iff in Hin as (raw & <- & _). done.
Qed.

(** X2: fetchNamespaceNames passes a rejected request on to its caller,
    answers a failed response or a response without items with the empty
    list and one log entry, and otherwise returns, in the order of the
    items, exactly the names that are present and not empty. *)
Theorem namespace_names_listed (lib : ClientNode.t) (remote : Remote.t) :
  let listed :=
    Eff.run (PlatformEnvironmentInfoService.fetchNamespaceNames lib remote) () in
  (∀ e, Remote.namespaces remote = Api.rejected e →
        Eff.result listed = inl e ∧ Eff.logged listed = [])
  ∧ (∀ r, Remote.namespaces remote = Api.resolved r →
       ∃ names,
         Eff.result listed = inr names
         ∧ (Api.failed r = true ∨ Api.data r = None →
            names = [] ∧ length (Eff.logged listed) = 1)
         ∧ (∀ items, Api.failed r = false → Api.data r = Some items →
              Eff.logged listed = []
              ∧ names `sublist_of` omap (ClientNode.getName lib) items
              ∧ ∀ name, name ∈ names ↔
                        name ≠ "" ∧ ∃ ns, ns ∈ items
                                          ∧ ClientNode.getName lib ns = Some name)).
Proof.
  intros listed. unfold listed, Eff.run. rewrite fetchNamespaceNames_run.
  split.
  - by intros e ->.
  - intros r ->. destruct (Api.failed r) eqn:Hfailed.
    + exists []. split_and!; [done | done |]. by intros items [=].
    + destruct (Api.data r) as [items|] eqn:Hdata.
      * eexists. split_and!; [done | by intros [[=] | [=]] |].
        intros items' _ [= <-]. unfold Eff.result, Eff.logged. cbn [fst snd].
        split_and!; [done | |].
        -- clear. induction items as [|ns items IH]; [done|]. cbn [omap list_omap].
           destruct (ClientNode.getName lib ns) as [name|]; cbn [Js.truthy];
             [|done].
           case_bool_decide; [by apply sublist_skip | by apply sublist_cons].
        -- intros name. rewrite list_elem_of_omap. split.
           ++ intros (ns & Hns & Hname). cbn zeta in Hname.
              destruct (ClientNode.getName lib ns) as [name'|] eqn:Hget;
                cbn [Js.truthy] in Hname; [|done].
              case_bool_decide; simplify_eq. eauto.
           ++ intros (Hne & ns & Hns & Hget). exists ns. split; [done|].
              cbn zeta. rewrite Hget. cbn [Js.truthy].
              by rewrite bool_decide_eq_true_2.
      * exists []. split_and!; [done | done |]. by intros items _ [=].
Qed.

(** X3: the platform-wide listings never throw, whatever the remote does.
    Each returns the concatenation, in namespace order, of what the
    per-namespace method returns for the listed namespace names; every
    environment and data plane returned is tagged with the listed name of
    the namespace it was fetched for; and when the namespace listing itself
    is rejected both return the empty list. *)
Theorem platform_listings_never_throw (lib : ClientNode.t) (remote : Remote.t) :
  Eff.result (Eff.run (PlatformEnvironmentInfoService.fetchAllEnvironments lib remote) ())
  = inr (concat (environmentsIn lib remote <$> platformNamespaces lib remote))
  ∧ Eff.result (Eff.run (PlatformEnvironmentInfoService.fetchAllDataplanes lib remote) ())
    = inr (concat (dataplanesIn lib remote <$> platformNamespaces lib remote))
  ∧ (∀ env, env ∈ platformEnvironments lib remote →
       Environment.namespaceName env ∈ platformNamespaces lib remote
       ∧ env ∈ environmentsIn lib remote (Environment.namespaceName env))
  ∧ (∀ dp, dp ∈ platformDataplanes lib remote →
       DataPlane.namespaceName dp ∈ platformNamespaces lib remote
       ∧ dp ∈ dataplanesIn lib remote (DataPlane.namespaceName dp))
  ∧ (∀ e, Remote.namespaces remote = Api.rejected e →
       platformEnvironments lib remote = [] ∧ platformDataplanes lib remote = []).
Proof.
  assert (platformEnvironments lib remote
          = concat (environmentsIn lib remote <$> platformNamespaces lib remote)) as Henvs.
  { unfold platformEnvironments, returned, Eff.result, Eff.run.
    by rewrite fetchAllEnvironments_returns. }
  assert (platformDataplanes lib remote
          = concat (dataplanesIn lib remote <$> platformNamespaces lib remote)) as Hdps.
  { unfold platformDataplanes, returned, Eff.result, Eff.run.
    by rewrite fetchAllDataplanes_returns. }
  split_and!.
  - unfold Eff.result, Eff.run. apply fetchAllEnvironments_returns.
  - unfold Eff.result, Eff.run. apply fetchAllDataplanes_returns.
  - intros env. rewrite Henvs.
    intros (group & Hin & (ns & -> & Hns)%list_elem_of_fmap)%elem_of_concat.
    rewrite (environmentsIn_namespace _ _ _ _ Hin). done.
  - intros dp. rewrite Hdps.
    intros (group & Hin & (ns & -> & Hns)%list_elem_of_fmap)%elem_of_concat.
    rewrite (dataplanesIn_namespace _ _ _ _ Hin). done.
  - intros e He. rewrite Henvs, Hdps.
    assert (platformNamespaces lib remote = []) as ->; [|done].
    unfold platformNamespaces, returned, Eff.result, Eff.run.
    by rewrite fetchNamespaceNames_run, He.
Qed.

(** ** Data planes with their environments *)

Lemma attachEnvironments_filter (environments : list Environment.t)
    (dataplanes : list DataPlane.t) :
  PlatformEnvironmentInfoService.attachEnvironments
    (PlatformEnvironmentInfoService.groupEnvironments environments) dataplanes
  = map (λ dp,
      {| DataPlaneWithEnvironments.dataplane := dp;
         DataPlaneWithEnvironments.environments :=
           withKey (PlatformEnvironmentInfoService.dataplaneKey dp) environments |})
      dataplanes.
Proof.
  unfold PlatformEnvironmentInfoService.attachEnvironments. apply map_ext. intros dp.
  f_equal. rewrite groupEnvironments_lookup. by case_decide as Hnil; [rewrite Hnil|].
Qed.

Lemma fetchDataplanesWithEnvironments_returns (lib : ClientNode.t) (remote : Remote.t)
    (s : list Eff.entry * ()) :
  (PlatformEnvironmentInfoService.fetchDataplanesWithEnvironments lib remote s).1
  = inr (map (λ dp,
           {| DataPlaneWithEnvironments.dataplane := dp;
              DataPlaneWithEnvironments.environments :=
                withKey (PlatformEnvironmentInfoService.dataplaneKey dp)
                  (platformEnvironments lib remote) |})
           (platformDataplanes lib remote)).
Proof.
  unfold PlatformEnvironmentInfoService.fetchDataplanesWithEnvironments, Eff.try_catch.
  rewrite bind_run. unfold Eff.log at 1. cbn [fst snd]. rewrite bind_run.
  match goal with |- context [PlatformEnvironmentInfoService.fetchAllDataplanes _ _ ?st] =>
    pose proof (fetchAllDataplanes_platform lib remote st) as Hdps;
    destruct (PlatformEnvironmentInfoService.fetchAllDataplanes lib remote st)
      as [[e | dps] st1] end; simpl in Hdps; simplify_eq.
  rewrite bind_run.
  pose proof (fetchAllEnvironments_platform lib remote st1) as Henvs.
  destruct (PlatformEnvironmentInfoService.fetchAllEnvironments lib remote st1)
    as [[e | envs] st2]; simpl in Henvs; simplify_eq.
  simpl. by rewrite attachEnvironments_filter.
Qed.

(** X4: fetchDataplanesWithEnvironments never throws and returns one entry
    per listed data plane, in order; the environments of an entry are the
    listed environments whose composite key namespaceName/dataPlaneRef
    equals the key namespaceName/name of its data plane, in listing order.
    So a listed environment appears in some entry exactly when a listed
    data plane has its key; the others are left out of the answer. *)
Theorem dataplanes_get_their_environments (lib : ClientNode.t) (remote : Remote.t) :
  ∃ entries,
    Eff.result
      (Eff.run (PlatformEnvironmentInfoService.fetchDataplanesWithEnvironments
                  lib remote) ())
    = inr entries
    ∧ map DataPlaneWithEnvironments.dataplane entries = platformDataplanes lib remote
    ∧ (∀ entry, entry ∈ entries →
         DataPlaneWithEnvironments.environments entry
         = filter (λ env, PlatformEnvironmentInfoService.environmentKey env
                          = PlatformEnvironmentInfoService.dataplaneKey
                              (DataPlaneWithEnvironments.dataplane entry))
             (platformEnvironments lib remote))
    ∧ (∀ env, (∃ entry, entry ∈ entries
                        ∧ env ∈ DataPlaneWithEnvironments.environments entry)
              ↔ env ∈ platformEnvironments lib remote
                ∧ ∃ dp, dp ∈ platformDataplanes lib remote
                        ∧ PlatformEnvironmentInfoService.dataplaneKey dp
                          = PlatformEnvironmentInfoService.environmentKey env).
Proof.
  eexists. split.
  { unfold Eff.result, Eff.run. apply fetchDataplanesWithEnvironments_returns. }
  split_and!.
  - rewrite map_map. simpl. apply map_id.
  - intros entry Hentry. apply list_elem_of_In, in_map_iff in Hentry as (dp & <- & _).
    done.
  - intros env. split.
    + intros (entry & Hentry & Henv).
      apply list_elem_of_In, in_map_iff in Hentry as (dp & <- & Hdp).
      simpl in Henv. apply list_elem_of_filter in Henv as [Hkey Hin].
      split; [done|]. exists dp. split; [by apply list_elem_of_In | done].
    + intros (Hin & dp & Hdp & Hkey). eexists. split.
      * apply list_elem_of_In, in_map_iff. exists dp.
        split; [done | by apply list_elem_of_In].
      * simpl. by apply list_elem_of_filter.
Qed.

(** ** Composite keys *)

Lemma slashFree_tail (c : Ascii.ascii) (s : string) : slashFree (String c s) → slashFree s.
Proof. intros Hs before after ->. by apply (Hs (String c before) after). Qed.

Lemma slashFree_head (s : string) : slashFree ("/" +:+ s) → False.
Proof. intros Hs. by apply (Hs "" s). Qed.

Lemma noSlash_slashFree (s : string) : noSlash s = true → slashFree s.
Proof.
  induction s as [|c s IH]; simpl.
  - intros _ [|??] after; done.
  - intros [Hc Hs]%andb_true_iff [|c' before] after Heq.
    + injection Heq as -> _. by rewrite bool_decide_eq_true_2 in Hc.
    + injection Heq as _ Heq. by apply (IH Hs before after).
Qed.

Lemma slashed_inj (ns1 ns2 x1 x2 : string) :
  slashFree ns1 → slashFree ns2 →
  ns1 +:+ "/" +:+ x1 = ns2 +:+ "/" +:+ x2 → ns1 = ns2 ∧ x1 = x2.
Proof.
  revert ns2. induction ns1 as [|c ns1 IH]; intros [|c' ns2] H1 H2 Heq; simplify_eq/=.
  - done.
  - by destruct (slashFree_head _ H2).
  - by destruct (slashFree_head _ H1).
  - destruct (IH ns2 (slashFree_tail _ _ H1) (slashFree_tail _ _ H2)) as [-> ->]; done.
Qed.

(** X5: when the namespace names contain no "/", the composite keys tell
    namespaces and names apart: an environment has the key of a data plane
    exactly when both lie in the same namespace and the environment's
    dataPlaneRef is the data plane's name. *)
Theorem composite_key_separates (env : Environment.t) (dp : DataPlane.t) :
  slashFree (Environment.namespaceName env) →
  slashFree (DataPlane.namespaceName dp) →
  (PlatformEnvironmentInfoService.environmentKey env
   = PlatformEnvironmentInfoService.dataplaneKey dp
   ↔ Environment.namespaceName env = DataPlane.namespaceName dp
     ∧ Environment.dataPlaneRef env = DataPlane.name dp).
Proof.
  intros Henv Hdp.
  unfold PlatformEnvironmentInfoService.environmentKey,
    PlatformEnvironmentInfoService.dataplaneKey.
  split; [by apply slashed_inj | by intros [-> ->]].
Qed.

Lemma composite_key_separates_witness :
  slashFree "acme" ∧ slashFree "acme"
  ∧ (PlatformEnvironmentInfoService.environmentKey (environment "acme" "dev" "default")
     = PlatformEnvironmentInfoService.dataplaneKey (dataPlaneNamed "acme" "default")
     ↔ "acme" = "acme" ∧ "default" = "default").
Proof.
  assert (H : slashFree "acme") by (apply noSlash_slashFree; reflexivity).
  split_and!; [exact H | exact H |].
  apply (composite_key_separates (environment "acme" "dev" "default")
           (dataPlaneNamed "acme" "default") H H).
Defined.

(** Without the restriction the keys can collide: the environment of
    namespace "a/b" that names data plane "c" has the key of the data plane
    "b/c" of namespace "a". *)
Lemma composite_key_collision :
  PlatformEnvironmentInfoService.environmentKey (environment "a/b" "dev" "c")
  = PlatformEnvironmentInfoService.dataplaneKey (dataPlaneNamed "a" "b/c").
Proof. reflexivity. Qed.

(** ** The component-count placeholder *)

(** X6: fetchDataplanesWithEnvironmentsAndComponentCounts never throws and
    returns the data planes and environments of
    fetchDataplanesWithEnvironments unchanged and in the same order, each
    environment with componentCount 0, whatever the remote holds. *)
Theorem component_counts_are_placeholders (lib : ClientNode.t) (remote : Remote.t) :
  ∃ entries counted,
    Eff.result
      (Eff.run (PlatformEnvironmentInfoService.fetchDataplanesWithEnvironments
                  lib remote) ())
    = inr entries
    ∧ Eff.result
        (Eff.run (PlatformEnvironmentInfoService.fetchDataplanesWithEnvironmentsAndComponentCounts
                    lib remote) ())
      = inr counted
    ∧ Forall2
        (λ c e,
           PlatformEnvironmentInfoService.countedDataplane c
           = DataPlaneWithEnvironments.dataplane e
           ∧ map PlatformEnvironmentInfoService.environment
               (PlatformEnvironmentInfoService.countedEnvironments c)
             = DataPlaneWithEnvironments.environments e
           ∧ Forall (λ env, PlatformEnvironmentInfoService.componentCount env = 0)
               (PlatformEnvironmentInfoService.countedEnvironments c))
        counted entries.
Proof.
  eexists _, _. split_and!.
  - unfold Eff.result, Eff.run. apply fetchDataplanesWithEnvironments_returns.
  - unfold Eff.result, Eff.run,
      PlatformEnvironmentInfoService.fetchDataplanesWithEnvironmentsAndComponentCounts,
      Eff.try_catch.
    rewrite bind_run. unfold Eff.log at 1. cbn [fst snd]. rewrite bind_run.
    match goal with
    | |- context [PlatformEnvironmentInfoService.fetchDataplanesWithEnvironments _ _ ?st] =>
        pose proof (fetchDataplanesWithEnvironments_returns lib remote st) as Hret;
        destruct (PlatformEnvironmentInfoService.fetchDataplanesWithEnvironments
                    lib remote st) as [[e | entries] st1]
    end; simpl in Hret; simplify_eq. simpl. reflexivity.
  - generalize (platformDataplanes lib remote). intros dps.
    induction dps as [|dp dps IH]; simpl; constructor; [|exact IH].
    simpl. split_and!; [done | |].
    + rewrite map_map. simpl. apply map_id.
    + apply Forall_forall. intros env Henv.
      apply list_elem_of_In, in_map_iff in Henv as (? & <- & _). done.
Qed.

(** ** Distinct deployed components *)

Section Deployed.
Import PlatformEnvironmentInfoService.
Context (remote : Remote.t)
        (probe : string → string → Api.outcome (list NewReleaseBinding.t)).

Lemma probeComponent_result (c : Component.t) (s : list Eff.entry * gset string) :
  probeComponent probe c s
  = (inr (),
     (s.1 ++ option_list (probeWarning probe c),
      if deployed probe c then s.2 ∪ {[componentKey c]} else s.2)).
Proof.
  unfold probeComponent, Eff.try_catch, probeWarning, deployed. rewrite bind_run.
  destruct (probe (Component.namespaceName c) (Component.componentName c)) as [e | res];
    simpl; [done|].
  rewrite app_nil_r. destruct (hasBinding res); simpl; by destruct s.
Qed.

Lemma probeBatch_result (i : nat) (batch : list Component.t)
    (s : list Eff.entry * gset string) :
  (Eff.all (Remote.settleOrder remote "fetchDistinctDeployedComponentsCount" i)
     (λ component, Eff.suspend (probeComponent probe component)) batch;; mret ()) s
  = (inr (),
     foldl (λ s c, probeStep probe c s) s
       (Eff.settled (Remote.settleOrder remote "fetchDistinctDeployedComponentsCount" i)
          batch)).
Proof.
  rewrite bind_run.
  by rewrite (all_suspended _ _ (λ _, ()) (probeStep probe)) by apply probeComponent_result.
Qed.

Lemma deployed_keys_Permutation (components components' : list Component.t) :
  components ≡ₚ components' →
  list_to_set (componentKey <$> List.filter (deployed probe) components)
  = (list_to_set (componentKey <$> List.filter (deployed probe) components')
     : gset string).
Proof.
  intros Hperm. apply set_eq. intros key.
  rewrite !elem_of_list_to_set, !list_elem_of_fmap.
  setoid_rewrite list_elem_of_In. setoid_rewrite filter_In.
  setoid_rewrite <- list_elem_of_In. by setoid_rewrite Hperm.
Qed.

Lemma foldl_probeStep (components : list Component.t) (s : list Eff.entry * gset string) :
  foldl (λ s c, probeStep probe c s) s components
  = (s.1 ++ omap (probeWarning probe) components,
     s.2 ∪ list_to_set (componentKey <$> List.filter (deployed probe) components)).
Proof.
  revert s. induction components as [|c components IH]; intros s.
  - cbn [foldl List.filter fmap list_fmap list_to_set foldr omap list_omap].
    rewrite app_nil_r, (right_id_L ∅ (∪)). by destruct s.
  - cbn [foldl List.filter omap list_omap]. rewrite IH. unfold probeStep.
    cbn [fst snd]. rewrite <- (assoc_L (++)). f_equal.
    + by destruct (probeWarning probe c).
    + destruct (deployed probe c); [|done].
      rewrite fmap_cons. cbn [list_to_set foldr]. by rewrite (assoc_L (∪)).
Qed.

Lemma probe_warnings (components : list Component.t) :
  Eff.warnings (omap (probeWarning probe) components)
  = omap (probeWarning probe) components.
Proof.
  unfold Eff.warnings. induction components as [|c components IH]; simpl; [done|].
  destruct (probeWarning probe c) as [w|] eqn:Hw; [|exact IH].
  assert (Eff.lvl w = Eff.warn) as Hlvl.
  { unfold probeWarning in Hw. destruct (probe _ _); by simplify_eq. }
  rewrite filter_cons, decide_True by done. f_equal. exact IH.
Qed.

Lemma fetchDistinctDeployedComponentsCount_run (components : list Component.t) :
  Eff.run (fetchDistinctDeployedComponentsCount remote probe components) ∅
  = (inr (size (list_to_set (componentKey <$> List.filter (deployed probe) components)
                : gset string)),
     ([{| Eff.lvl := Eff.debug;
          Eff.message := "Starting distinct deployed components count for "
                         +:+ Js.show (length components) +:+ " components";
          Eff.cause := None |}]
      ++ omap (probeWarning probe)
           (completionOrder remote "fetchDistinctDeployedComponentsCount" components)
      ++ [{| Eff.lvl := Eff.debug;
             Eff.message :=
               "Distinct deployed components count completed: Found "
               +:+ Js.show (size (list_to_set
                                    (componentKey <$> List.filter (deployed probe) components)
                                  : gset string))
               +:+ " deployed components (" +:+ elapsed remote +:+ "ms)";
             Eff.cause := None |}],
      list_to_set (componentKey <$> List.filter (deployed probe) components))).
Proof.
  unfold Eff.run, fetchDistinctDeployedComponentsCount, Eff.try_catch.
  rewrite bind_run. unfold Eff.log at 1. simpl.
  rewrite bind_run.
  rewrite (forBatches_result _ _ (probeStep probe)) by apply probeBatch_result.
  rewrite foldl_probeStep. cbn [fst snd].
  change (forBatches (length components) 0 components
            (recordSettled (Remote.settleOrder remote
                              "fetchDistinctDeployedComponentsCount")) ([], [])).2.2
    with (completionOrder remote "fetchDistinctDeployedComponentsCount" components).
  rewrite (left_id_L ∅ (∪)).
  rewrite (deployed_keys_Permutation _ _
             (completionOrder_Permutation remote
                "fetchDistinctDeployedComponentsCount" components)).
  done.
Qed.

Lemma size_list_to_set_le (keys : list string) :
  (size (list_to_set keys : gset string) ≤ length keys)%nat.
Proof.
  induction keys as [|key keys IH]; cbn [list_to_set foldr length].
  - by rewrite size_empty.
  - rewrite size_union_alt, size_singleton.
    pose proof (subseteq_size (list_to_set keys ∖ {[key]}) (list_to_set keys : gset string)
                  (subseteq_difference_l _ _ _ (reflexivity _))).
    lia.
Qed.

End Deployed.

Lemma filter_length_le {A} (f : A → bool) (l : list A) :
  (length (List.filter f l) ≤ length l)%nat.
Proof. induction l as [|x l IH]; simpl; [done|]. destruct (f x); simpl; lia. Qed.

Lemma NoDup_fmap_filter {A B} `{EqDecision B} (g : A → B) (f : A → bool) (l : list A) :
  NoDup (g <$> l) → NoDup (g <$> List.filter f l).
Proof.
  induction l as [|x l IH]; [done|].
  rewrite fmap_cons. intros [Hx Hl]%NoDup_cons. cbn [List.filter].
  destruct (f x); [|by apply IH].
  rewrite fmap_cons. apply NoDup_cons. split; [|by apply IH].
  intros (y & Hy & Hin)%list_elem_of_fmap. apply Hx, list_elem_of_fmap.
  exists y. split; [done|]. by apply list_elem_of_In, filter_In in Hin as [?%list_elem_of_In _].
Qed.

(** X7: fetchDistinctDeployedComponentsCount never throws.  It returns the
    number of distinct keys namespace/project/component among the
    components whose existence probe resolves without error, with an ok
    status and at least one item: a component listed twice counts once, and
    the count never exceeds the number of such components.  A rejected
    probe is logged as one warning, the warnings appearing in the order in
    which the probes are answered; a probe answered with an error or a
    non-ok status is logged nowhere and counts as not deployed. *)
Theorem distinct_deployed_components (remote : Remote.t)
    (probe : string → string → Api.outcome (list NewReleaseBinding.t))
    (components : list Component.t) :
  let counted :=
    Eff.run (PlatformEnvironmentInfoService.fetchDistinctDeployedComponentsCount
               remote probe components) ∅ in
  let found := List.filter (deployed probe) components in
  Eff.result counted
  = inr (size (list_to_set (PlatformEnvironmentInfoService.componentKey <$> found)
               : gset string))
  ∧ (size (list_to_set (PlatformEnvironmentInfoService.componentKey <$> found)
           : gset string) ≤ length found ≤ length components)%nat
  ∧ (NoDup (PlatformEnvironmentInfoService.componentKey <$> components) →
     Eff.result counted = inr (length found))
  ∧ Eff.warnings (Eff.logged counted)
    = omap (probeWarning probe)
        (completionOrder remote "fetchDistinctDeployedComponentsCount" components)
  ∧ completionOrder remote "fetchDistinctDeployedComponentsCount" components
    ≡ₚ components
  ∧ Eff.warnings (Eff.logged counted) ≡ₚ omap (probeWarning probe) components
  ∧ length (Eff.warnings (Eff.logged counted))
    = length (List.filter (probeRejected probe) components)
  ∧ Forall (λ e, Eff.lvl e ≠ Eff.error) (Eff.logged counted).
Proof.
  intros counted found. unfold counted.
  rewrite fetchDistinctDeployedComponentsCount_run.
  unfold Eff.result, Eff.logged. cbn [fst snd].
  rewrite !warnings_app, !warnings_debug, probe_warnings, app_nil_r. cbn [app].
  split_and!.
  - done.
  - pose proof (size_list_to_set_le
                  (PlatformEnvironmentInfoService.componentKey <$> found)) as Hle.
    by rewrite length_fmap in Hle.
  - apply filter_length_le.
  - intros Hnodup. f_equal. fold found.
    rewrite size_list_to_set by by apply NoDup_fmap_filter.
    apply length_fmap.
  - done.
  - apply completionOrder_Permutation.
  - by rewrite completionOrder_Permutation.
  - rewrite completionOrder_Permutation.
    clear. induction components as [|c components IH]; simpl; [done|].
    destruct (probeWarning probe c) eqn:Hw, (probeRejected probe c) eqn:Hr; simpl;
      unfold probeWarning, probeRejected in Hw, Hr;
      destruct (probe (Component.namespaceName c) (Component.componentName c));
      simplify_eq; [f_equal|]; exact IH.
  - constructor; [done|]. apply Forall_app. split; [|by repeat constructor].
    apply Forall_forall. intros w (c & _ & Hw)%list_elem_of_omap.
    unfold probeWarning in Hw. destruct (probe _ _); by simplify_eq.
Qed.

Lemma distinct_deployed_components_witness :
  NoDup (PlatformEnvironmentInfoService.componentKey <$> sampleComponents)
  ∧ Eff.result
      (Eff.run (PlatformEnvironmentInfoService.fetchDistinctDeployedComponentsCount
                  sampleRemote
                  (λ _ componentName,
                     if bool_decide (componentName = "search")
                     then errorResponse 500 "Internal Server Error"
                     else okResponse [bindingTo componentName "dev"])
                  sampleComponents) ∅)
    = inr 11.
Proof.
  assert (H : NoDup (PlatformEnvironmentInfoService.componentKey <$> sampleComponents)).
  { apply (bool_decide_unpack _). by vm_compute. }
  split; [exact H|].
  rewrite (proj1 (proj2 (proj2 (distinct_deployed_components sampleRemote
             (λ _ componentName,
                if bool_decide (componentName = "search")
                then errorResponse 500 "Internal Server Error"
                else okResponse [bindingTo componentName "dev"])
             sampleComponents))) H).
  by vm_compute.
Defined.

(** ** Invariants of the counters *)

Lemma totalCount_insert (counts : gmap string nat) (key : string) (n : nat) :
  counts !! key = None → totalCount (<[key := n]> counts) = n + totalCount counts.
Proof.
  intros Hnone. unfold totalCount. rewrite map_fold_insert_L; [done | | done].
  intros. lia.
Qed.

Lemma size_le_totalCount (counts : gmap string nat) :
  (∀ key n, counts !! key = Some n → 0 < n)%nat → (size counts ≤ totalCount counts)%nat.
Proof.
  induction counts as [|key n counts Hnone IH] using map_ind; intros Hpos.
  - by rewrite map_size_empty.
  - rewrite map_size_insert_None, totalCount_insert by done.
    assert (0 < n)%nat by (apply (Hpos key); apply lookup_insert_eq).
    assert (size counts ≤ totalCount counts)%nat.
    { apply IH. intros key' n' Hkey'. apply (Hpos key').
      rewrite lookup_insert_ne; [done|]. intros <-. congruence. }
    lia.
Qed.

Lemma countBindings_invariant (P : string → Prop) (c : Component.t)
    (bindings : list NewReleaseBinding.t) (counts : gmap string nat) :
  (∀ key n, counts !! key = Some n → (0 < n)%nat ∧ P key) →
  (∀ binding name, binding ∈ bindings → environmentOf binding = Some name →
                   P (Component.namespaceName c +:+ "/" +:+ name)) →
  ∀ key n,
    foldl (PlatformEnvironmentInfoService.countBinding c) counts bindings !! key = Some n →
    (0 < n)%nat ∧ P key.
Proof.
  revert counts. induction bindings as [|binding bindings IH]; intros counts Hinv HP;
    [done|].
  cbn [foldl]. apply IH.
  - rewrite countBinding_cases.
    destruct (environmentOf binding) as [name|] eqn:Hname; [|done]. cbn zeta.
    intros key n. rewrite lookup_insert. case_decide as Hkey.
    + intros [= <-]. subst key. split; [lia|]. apply (HP binding); [left | done].
    + apply Hinv.
  - intros b name Hb. apply HP. by right.
Qed.

(** X8: fetchComponentCountsPerEnvironment never throws, and in the map it
    returns every counter is at least 1 and sits under a key
    namespaceName + "/" + environment made from a component of the input
    and a non-empty environment named by one of its fetched bindings; so the
    map has at most as many keys as bindings were counted. *)
Theorem counters_are_positive (remote : Remote.t) (components : list Component.t) :
  ∃ counts,
    Eff.result
      (Eff.run (PlatformEnvironmentInfoService.fetchComponentCountsPerEnvironment
                  remote components) ∅)
    = inr counts
    ∧ (∀ key n, counts !! key = Some n →
         (0 < n)%nat
         ∧ ∃ c binding name,
             c ∈ components ∧ binding ∈ fetchedBindings remote c
             ∧ NewReleaseBinding.spec binding ≫= NewReleaseBinding.environment = Some name
             ∧ name ≠ ""
             ∧ key = Component.namespaceName c +:+ "/" +:+ name)
    ∧ (size counts ≤ totalCount counts)%nat.
Proof.
  exists (accumulated remote ∅ components).
  assert (∀ key n, accumulated remote ∅ components !! key = Some n →
            (0 < n)%nat
            ∧ ∃ c binding name,
                c ∈ components ∧ binding ∈ fetchedBindings remote c
                ∧ NewReleaseBinding.spec binding ≫= NewReleaseBinding.environment
                  = Some name
                ∧ name ≠ ""
                ∧ key = Component.namespaceName c +:+ "/" +:+ name) as Hinv.
  { unfold accumulated.
    assert (∀ (seen : list Component.t) (counts : gmap string nat),
              (∀ key n, counts !! key = Some n →
                 (0 < n)%nat
                 ∧ ∃ c binding name,
                     c ∈ seen ++ components ∧ binding ∈ fetchedBindings remote c
                     ∧ NewReleaseBinding.spec binding ≫= NewReleaseBinding.environment
                       = Some name
                     ∧ name ≠ ""
                     ∧ key = Component.namespaceName c +:+ "/" +:+ name) →
              ∀ key n,
                foldl (λ counts component,
                         foldl (PlatformEnvironmentInfoService.countBinding component)
                           counts (fetchedBindings remote component))
                  counts components !! key = Some n →
                (0 < n)%nat
                ∧ ∃ c binding name,
                    c ∈ seen ++ components ∧ binding ∈ fetchedBindings remote c
                    ∧ NewReleaseBinding.spec binding ≫= NewReleaseBinding.environment
                      = Some name
                    ∧ name ≠ ""
                    ∧ key = Component.namespaceName c +:+ "/" +:+ name) as Hgen.
    { intros seen. revert seen.
      induction components as [|c components IH]; intros seen counts Hcounts; [done|].
      cbn [foldl]. replace (seen ++ c :: components) with ((seen ++ [c]) ++ components)
        by (by rewrite <- (assoc_L (++))).
      apply IH. rewrite <- (assoc_L (++)). cbn [app].
      apply (countBindings_invariant
               (λ key, ∃ c' binding name,
                  c' ∈ seen ++ c :: components ∧ binding ∈ fetchedBindings remote c'
                  ∧ NewReleaseBinding.spec binding ≫= NewReleaseBinding.environment
                    = Some name
                  ∧ name ≠ ""
                  ∧ key = Component.namespaceName c' +:+ "/" +:+ name)); [done|].
      intros binding name Hb Hname. exists c, binding, name.
      unfold environmentOf in Hname.
      destruct (NewReleaseBinding.spec binding ≫= NewReleaseBinding.environment)
        as [name'|]; [|done].
      case_bool_decide; simplify_eq.
      split_and!; try done. apply elem_of_app. right. left. }
    apply (Hgen [] ∅). intros key n Hkey. by rewrite lookup_empty in Hkey. }
  split_and!.
  - by rewrite fetchComponentCountsPerEnvironment_run.
  - exact Hinv.
  - apply size_le_totalCount. intros key n Hkey. by destruct (Hinv key n Hkey).
Qed.

(** ** Builds of a component *)



Lemma transformWorkflowRun_agrees (run : WorkflowRun.t) :
  Transformer.transformComponentWorkflowRun run = WorkflowService.transformWorkflowRun run.
Proof.
  unfold Transformer.transformComponentWorkflowRun, WorkflowService.transformWorkflowRun.
  simpl. by rewrite ci_agrees.
Qed.

Lemma labelOf_lookup (key : string) (run : WorkflowRun.t) :
  Js.nullish (WorkflowRun.metadata run ≫= Metadata.labels) ∅ !! key = labelOf key run.
Proof.
  unfold labelOf, Js.nullish. destruct (WorkflowRun.metadata run) as [m|]; simpl;
    [|apply lookup_empty].
  destruct (Metadata.labels m); simpl; [done | apply lookup_empty].
Qed.

Lemma transformed_componentName (run : WorkflowRun.t) (componentName : string) :
  labelOf "openchoreo.dev/component" run = Some componentName →
  ComponentWorkflowRunResponse.componentName (WorkflowService.transformWorkflowRun run)
  = componentName.
Proof.
  intros Hlabel. unfold WorkflowService.transformWorkflowRun. simpl.
  by rewrite labelOf_lookup, Hlabel.
Qed.

Lemma transformed_projectName (run : WorkflowRun.t) (projectName : string) :
  labelOf "openchoreo.dev/project" run = Some projectName →
  ComponentWorkflowRunResponse.projectName (WorkflowService.transformWorkflowRun run)
  = projectName.
Proof.
  intros Hlabel. unfold WorkflowService.transformWorkflowRun. simpl.
  by rewrite labelOf_lookup, Hlabel.
Qed.




(** ** One workflow run of a component *)

Lemma ci_getWorkflowRun_run (api : RunsApi.t)
    (namespaceName projectName componentName runName : string) :
  Eff.run (CiWorkflowService.getWorkflowRun api namespaceName projectName componentName
             runName) ()
  = let started :=
      {| Eff.lvl := Eff.debug;
         Eff.message := "Fetching workflow run: " +:+ runName +:+ " for component: "
                        +:+ componentName +:+ " in project: " +:+ projectName
                        +:+ ", namespace: " +:+ namespaceName;
         Eff.cause := None |} in
    let failure e :=
      (inl e,
       ([started;
         {| Eff.lvl := Eff.error;
            Eff.message := "Failed to fetch workflow run " +:+ runName
                           +:+ " for component " +:+ componentName +:+ ": "
                           +:+ Js.text e;
            Eff.cause := None |}], ())) in
    match RunsApi.workflowrun api namespaceName runName with
    | Api.rejected e => failure e
    | Api.resolved r =>
        if Api.failed r then
          failure (Js.Error ("Failed to fetch workflow run: " +:+ Js.show (Api.status r)
                             +:+ " " +:+ Api.statusText r))
        else
          match Api.data r with
          | None => failure (Js.Error "No workflow run data returned")
          | Some run =>
              if bool_decide (labelOf "openchoreo.dev/component" run = Some componentName
                              ∧ labelOf "openchoreo.dev/project" run = Some projectName)
              then
                (inr (WorkflowService.transformWorkflowRun run),
                 ([started;
                   {| Eff.lvl := Eff.debug;
                      Eff.message := "Successfully fetched workflow run: " +:+ runName;
                      Eff.cause := None |}], ()))
              else
                failure (Js.Error ("Workflow run " +:+ runName
                                   +:+ " does not belong to component " +:+ componentName
                                   +:+ " in project " +:+ projectName))
          end
    end.
Proof.
  unfold Eff.run, CiWorkflowService.getWorkflowRun, Eff.try_catch.
  rewrite bind_run. unfold Eff.log at 1. cbn [fst snd]. rewrite bind_run.
  destruct (RunsApi.workflowrun api namespaceName runName) as [e | r]; simpl; [done|].
  destruct (Api.failed r); [done|]. destruct (Api.data r) as [run|]; [|done].
  rewrite !labelOf_lookup.
  repeat case_bool_decide; simpl; try done; naive_solver.
Qed.

Lemma backend_getWorkflowRun_run (api : RunsApi.t)
    (namespaceName projectName componentName runName : string) :
  Eff.run (BuildInfoService.getWorkflowRun api namespaceName projectName componentName
             runName) ()
  = let started :=
      {| Eff.lvl := Eff.debug;
         Eff.message := "Fetching workflow run: " +:+ runName +:+ " in namespace: "
                        +:+ namespaceName;
         Eff.cause := None |} in
    let failure e :=
      (inl e,
       ([started;
         {| Eff.lvl := Eff.error;
            Eff.message := "Failed to fetch workflow run " +:+ runName +:+ ": "
                           +:+ Js.text e;
            Eff.cause := None |}], ())) in
    match RunsApi.workflowrun api namespaceName runName with
    | Api.rejected e => failure e
    | Api.resolved r =>
        if Api.failed r then
          failure (Js.Error ("Failed to fetch workflow run: " +:+ Js.show (Api.status r)
                             +:+ " " +:+ Api.statusText r))
        else
          match Api.data r with
          | Some run =>
              if bool_decide (labelOf "openchoreo.dev/component" run = Some componentName
                              ∧ labelOf "openchoreo.dev/project" run = Some projectName)
              then
                (inr (Transformer.transformComponentWorkflowRun run),
                 ([started;
                   {| Eff.lvl := Eff.debug;
                      Eff.message := "Successfully fetched workflow run: " +:+ runName;
                      Eff.cause := None |}], ()))
              else
                failure (Js.Error ("Workflow run " +:+ runName
                                   +:+ " does not belong to component " +:+ componentName
                                   +:+ " in project " +:+ projectName))
          | None =>
              failure (Js.Error ("Workflow run " +:+ runName
                                 +:+ " does not belong to component " +:+ componentName
                                 +:+ " in project " +:+ projectName))
          end
    end.
Proof.
  unfold Eff.run, BuildInfoService.getWorkflowRun, Eff.try_catch.
  rewrite bind_run. unfold Eff.log at 1. cbn [fst snd]. rewrite bind_run.
  destruct (RunsApi.workflowrun api namespaceName runName) as [e | r]; simpl; [done|].
  destruct (Api.failed r); [done|]. destruct (Api.data r) as [run|]; simpl.
  - change (Js.nullish (m ← WorkflowRun.metadata run; Metadata.labels m) ∅)
      with (Js.nullish (WorkflowRun.metadata run ≫= Metadata.labels) ∅).
    rewrite !labelOf_lookup.
    repeat case_bool_decide; simpl; try done; naive_solver.
  - rewrite !lookup_empty. by rewrite bool_decide_eq_true_2.
Qed.

(** X10: getWorkflowRun of the CI backend's WorkflowService returns a run
    exactly when the request resolves without error, with an ok status and
    with data whose component and project labels are the requested ones; the
    build returned is the transformed run and carries the requested
    componentName and projectName.  Every other outcome is thrown after one
    error entry is logged: the rejection itself when the request is
    rejected, "Failed to fetch workflow run: <status> <statusText>" when the
    response failed, "No workflow run data returned" when it carries no
    data, and "... does not belong to component ..." when a label differs.
    getWorkflowRun of BuildInfoService returns the same build and throws the
    same error in every case but one: for a response without data it throws
    the "does not belong" error. *)
Theorem workflow_run_belongs (api : RunsApi.t)
    (namespaceName projectName componentName runName : string) :
  let ci :=
    Eff.run (CiWorkflowService.getWorkflowRun api namespaceName projectName componentName
               runName) () in
  let backend :=
    Eff.run (BuildInfoService.getWorkflowRun api namespaceName projectName componentName
               runName) () in
  let foreign :=
    Js.Error ("Workflow run " +:+ runName +:+ " does not belong to component "
              +:+ componentName +:+ " in project " +:+ projectName) in
  (∀ build,
     Eff.result ci = inr build ↔
     ∃ r run, RunsApi.workflowrun api namespaceName runName = Api.resolved r
              ∧ Api.failed r = false ∧ Api.data r = Some run
              ∧ belongsTo projectName componentName run
              ∧ build = WorkflowService.transformWorkflowRun run)
  ∧ (∀ build, Eff.result ci = inr build →
       ComponentWorkflowRunResponse.componentName build = componentName
       ∧ ComponentWorkflowRunResponse.projectName build = projectName
       ∧ Eff.lvl <$> Eff.logged ci = [Eff.debug; Eff.debug])
  ∧ (∀ e, Eff.result ci = inl e → Eff.lvl <$> Eff.logged ci = [Eff.debug; Eff.error])
  ∧ (∀ build, Eff.result backend = inr build ↔ Eff.result ci = inr build)
  ∧ (∀ e, Eff.result backend = inl e → Eff.lvl <$> Eff.logged backend = [Eff.debug; Eff.error])
  ∧ (∀ e, RunsApi.workflowrun api namespaceName runName = Api.rejected e →
       Eff.result ci = inl e ∧ Eff.result backend = inl e)
  ∧ (∀ r, RunsApi.workflowrun api namespaceName runName = Api.resolved r →
       Api.failed r = true →
       Eff.result ci
       = inl (Js.Error ("Failed to fetch workflow run: " +:+ Js.show (Api.status r) +:+ " "
                        +:+ Api.statusText r))
       ∧ Eff.result backend = Eff.result ci)
  ∧ (∀ r run, RunsApi.workflowrun api namespaceName runName = Api.resolved r →
       Api.failed r = false → Api.data r = Some run →
       ¬ belongsTo projectName componentName run →
       Eff.result ci = inl foreign ∧ Eff.result backend = inl foreign)
  ∧ (∀ r, RunsApi.workflowrun api namespaceName runName = Api.resolved r →
       Api.failed r = false → Api.data r = None →
       Eff.result ci = inl (Js.Error "No workflow run data returned")
       ∧ Eff.result backend = inl foreign)
  ∧ ((∀ r, RunsApi.workflowrun api namespaceName runName = Api.resolved r →
           Api.failed r = false → is_Some (Api.data r)) →
     Eff.result backend = Eff.result ci).
Proof.
  intros ci backend foreign. unfold ci, backend, foreign.
  rewrite ci_getWorkflowRun_run, backend_getWorkflowRun_run. cbn zeta.
  unfold Eff.result, Eff.logged, belongsTo.
  destruct (RunsApi.workflowrun api namespaceName runName) as [e | r];
    [|destruct (Api.failed r) eqn:Hfailed;
      [|destruct (Api.data r) as [run|] eqn:Hdata; [case_bool_decide as Hlabels|]]];
    cbn [fst snd]; split_and!;
    try first
      [ done
      | by intros ? [=]
      | by intros ? ? [=] ?
      | by intros ? [=] ?
      | by intros ? [=] ? ?
      | by intros ? ? [=] ? ? ?
      | by (intros ? [= <-])
      | by (intros ? [= <-] ?)
      | by (intros ?; split; intros [=])
      | by (intros ?; split; [intros [=] | intros (? & ? & ? & ? & ? & ? & ?); simplify_eq])
      | by (intros ?; split;
              [intros [=] | intros (? & ? & ? & ? & ? & ? & ?); simplify_eq; congruence])
      | by (intros ? ? ? ?; simplify_eq; congruence)
      | by (intros ? ? ? ? ? ?; simplify_eq; congruence)
      | by (intros ? ? [= <-] ? ? ?; simplify_eq)
      | by (intros ? ? [= <-] ? ?; simplify_eq)
      | by (intros ? [= <-] ?; congruence) ].
  all: try (intros Hdata'; destruct (Hdata' r eq_refl Hfailed) as [? ?]; congruence).
  - intros build. split.
    + intros [= <-]. eauto 10.
    + intros (r' & run' & Hr & _ & Hd & _ & ->). by simplify_eq.
  - intros build [= <-]. destruct Hlabels as [Hc Hp].
    by rewrite (transformed_componentName _ _ Hc), (transformed_projectName _ _ Hp).
  - intros build. by rewrite transformWorkflowRun_agrees.
  - intros _. by rewrite transformWorkflowRun_agrees.
Qed.

(** ** A completed run is never reported in progress *)

(** X11: whenever completedAt is set, no derivation answers "Running" or
    "Pending", whatever the conditions, tasks and startedAt say; so a run
    that the generic workflow service reports with a finishedAt never has
    one of these two as its status. *)
Theorem completed_is_never_in_progress
    (derive : WorkflowRun.t → string) (run : WorkflowRun.t) :
  derive ∈ derivations →
  isSet (completedAtOf run) →
  derive run ≠ "Running" ∧ derive run ≠ "Pending"
  ∧ isSet (GenericRuns.finishedAt (GenericRuns.transformWorkflowRun run))
  ∧ GenericRuns.status (GenericRuns.transformWorkflowRun run) ≠ "Running"
  ∧ GenericRuns.status (GenericRuns.transformWorkflowRun run) ≠ "Pending"
  ∧ ComponentWorkflowRunResponse.status (Transformer.transformComponentWorkflowRun run)
    ∉ ["Running"; "Pending"].
Proof.
  intros Hd Hset.
  assert (Transformer.derive run ≠ "Running" ∧ Transformer.derive run ≠ "Pending")
    as [Hrun Hpen].
  { rewrite derive_unfold. apply truthy_isSet in Hset. rewrite Hset.
    destruct (existsb failedOrError (tasksOf run)); [done|].
    destruct (List.find isReadyType (conditionsOf run) ≫= Condition.reason) as [r|];
      [|done].
    repeat case_bool_decide; simpl; done. }
  rewrite (derivations_agree _ _ Hd).
  unfold GenericRuns.transformWorkflowRun. simpl. rewrite generic_agrees.
  split_and!; try done.
  rewrite !elem_of_cons, elem_of_nil. by intros [? | [? | []]].
Qed.

Lemma completed_is_never_in_progress_witness :
  WorkflowService.deriveWorkflowRunStatus ∈ derivations
  ∧ isSet (completedAtOf staleRunningRun)
  ∧ WorkflowService.deriveWorkflowRunStatus staleRunningRun ≠ "Running".
Proof.
  assert (Hd : WorkflowService.deriveWorkflowRunStatus ∈ derivations)
    by (unfold derivations; in_list).
  assert (Hs : isSet (completedAtOf staleRunningRun))
    by (eexists; split; [reflexivity | done]).
  split_and!; [assumption | assumption |].
  apply (proj1 (completed_is_never_in_progress _ staleRunningRun Hd Hs)).
Defined.

(** ** Listing the runs of a workflow *)

Lemma listWorkflowRuns_run (workflowruns : string → Api.outcome GenericRuns.listing_t)
    (namespaceName : string) (workflowName : option string) :
  Eff.run (GenericRuns.listWorkflowRuns workflowruns namespaceName workflowName) ()
  = let started :=
      {| Eff.lvl := Eff.debug;
         Eff.message := "Fetching workflow runs for namespace: " +:+ namespaceName
                        +:+ GenericRuns.workflowSuffix workflowName;
         Eff.cause := None |} in
    let failure e :=
      (inl e,
       ([started;
         {| Eff.lvl := Eff.error;
            Eff.message := "Failed to fetch workflow runs for namespace "
                           +:+ namespaceName +:+ ": " +:+ Js.text e;
            Eff.cause := None |}], ())) in
    match workflowruns namespaceName with
    | Api.rejected e => failure e
    | Api.resolved r =>
        if Api.failed r then
          failure (Js.Error ("Failed to fetch workflow runs: " +:+ Js.show (Api.status r)
                             +:+ " " +:+ Api.statusText r))
        else
          let rawItems := default [] (Api.data r ≫= GenericRuns.items) in
          let filtered :=
            match workflowName with
            | Some w =>
                if bool_decide (w ≠ "") then
                  filter
                    (λ raw,
                       (sp ← WorkflowRun.spec (GenericRuns.run raw);
                        w' ← RunSpec.workflow sp; Some (WorkflowRef.name w')) = Some w
                       ∨ GenericRuns.flatWorkflowName raw = Some w) rawItems
                else rawItems
            | None => rawItems
            end in
          let items :=
            (λ raw, GenericRuns.transformWorkflowRun (GenericRuns.run raw)) <$> filtered in
          (inr {| GenericRuns.pageItems := items;
                  GenericRuns.pagePagination := Api.data r ≫= GenericRuns.pagination |},
           ([started;
             {| Eff.lvl := Eff.debug;
                Eff.message := "Successfully fetched " +:+ Js.show (length items)
                               +:+ " workflow runs for namespace: " +:+ namespaceName
                               +:+ GenericRuns.workflowSuffix workflowName;
                Eff.cause := None |}], ()))
    end.
Proof.
  unfold Eff.run, GenericRuns.listWorkflowRuns, Eff.try_catch.
  rewrite bind_run. unfold Eff.log at 1. cbn [fst snd]. rewrite bind_run.
  destruct (workflowruns namespaceName) as [e | r]; simpl; [done|].
  destruct (Api.failed r); [done|]. cbn zeta.
  assert (∀ w raws,
            List.filter
              (λ raw,
                 bool_decide ((sp ← WorkflowRun.spec (GenericRuns.run raw);
                               w' ← RunSpec.workflow sp; Some (WorkflowRef.name w'))
                              = Some w)
                 || bool_decide (GenericRuns.flatWorkflowName raw = Some w)) raws
            = filter
                (λ raw,
                   (sp ← WorkflowRun.spec (GenericRuns.run raw);
                    w' ← RunSpec.workflow sp; Some (WorkflowRef.name w')) = Some w
                   ∨ GenericRuns.flatWorkflowName raw = Some w) raws) as Hfilter.
  { intros w raws. induction raws as [|raw raws IH]; [done|].
    cbn [List.filter]. rewrite filter_cons, IH.
    repeat case_bool_decide; simpl; case_decide; try done; naive_solver. }
  unfold Js.truthy, Js.nullish. destruct workflowName as [w|]; [|done].
  case_bool_decide; [|done]. by rewrite Hfilter.
Qed.

(** X12: listWorkflowRuns of the generic workflow service throws, after
    logging one error, when the request is rejected or the response is an
    error or not ok.  Otherwise it returns the pagination of the response
    untouched and, when no workflow name or the empty name is given, one
    item per raw run, in order; when a non-empty name is given, one item per
    raw run whose spec.workflow.name or flat workflowName is that name.  The
    workflowName of a returned item is always read from the spec, so an item
    matched through the flat field alone does not carry the requested
    name. *)
Theorem workflow_runs_listed
    (workflowruns : string → Api.outcome GenericRuns.listing_t)
    (namespaceName : string) (workflowName : option string) :
  let listed :=
    Eff.run (GenericRuns.listWorkflowRuns workflowruns namespaceName workflowName) () in
  ((∃ e, workflowruns namespaceName = Api.rejected e)
   ∨ (∃ r, workflowruns namespaceName = Api.resolved r ∧ Api.failed r = true) →
   (∃ e, Eff.result listed = inl e)
   ∧ Eff.lvl <$> Eff.logged listed = [Eff.debug; Eff.error])
  ∧ (∀ r, workflowruns namespaceName = Api.resolved r → Api.failed r = false →
       ∃ page raws,
         Eff.result listed = inr page
         ∧ GenericRuns.pagePagination page = Api.data r ≫= GenericRuns.pagination
         ∧ GenericRuns.pageItems page
           = (λ raw, GenericRuns.transformWorkflowRun (GenericRuns.run raw)) <$> raws
         ∧ raws `sublist_of` default [] (Api.data r ≫= GenericRuns.items)
         ∧ (workflowName = None ∨ workflowName = Some "" →
            raws = default [] (Api.data r ≫= GenericRuns.items))
         ∧ (∀ w, workflowName = Some w → w ≠ "" →
              ∀ raw, raw ∈ raws ↔
                     raw ∈ default [] (Api.data r ≫= GenericRuns.items)
                     ∧ ((sp ← WorkflowRun.spec (GenericRuns.run raw);
                         w' ← RunSpec.workflow sp; Some (WorkflowRef.name w')) = Some w
                        ∨ GenericRuns.flatWorkflowName raw = Some w))
         ∧ (∀ raw w, raw ∈ raws →
              GenericRuns.workflowName
                (GenericRuns.transformWorkflowRun (GenericRuns.run raw)) = w
              ↔ default "" (sp ← WorkflowRun.spec (GenericRuns.run raw);
                            w' ← RunSpec.workflow sp; Some (WorkflowRef.name w')) = w)).
Proof.
  intros listed. unfold listed. rewrite listWorkflowRuns_run. cbn zeta.
  unfold Eff.result, Eff.logged. split.
  - intros [[e ->] | (r & -> & ->)]; cbn [fst snd]; split; eauto.
  - intros r -> ->. eexists _, _. cbn [fst snd GenericRuns.pagePagination
                                       GenericRuns.pageItems].
    split_and!; [done | done | done | | | |].
    + destruct workflowName as [w|]; [|done].
      case_bool_decide; [apply sublist_filter | done].
    + intros [-> | ->]; [done|]. by rewrite bool_decide_eq_false_2 by (by intros ?).
    + intros w -> Hw raw. rewrite bool_decide_eq_true_2 by done.
      rewrite list_elem_of_filter. tauto.
    + intros raw w _. done.
Qed.
